(** * btu/btu_api/scheduler.py: the scheduler client and the framed-message
    connection handler, embedded in Rocq.

    The file follows the source top-down:
    - [Py]      the Python data the code manipulates (str, bytes, exceptions);
    - [Utf8]    the codec behind [str.encode('utf-8')] / [bytes.decode('utf-8')];
    - [Json]    [json.dumps] and [json.load], as the code calls them;
    - [Msg]     class [Message] (the selector-driven connection handler);
    - [Api]     class [SchedulerAPI] (the blocking client);
    and then states and proves the properties of the specification. *)

From Stdlib Require Import ZArith NArith Lia Bool String Ascii List.
From Stdlib.Strings Require Import Byte.
From Stdlib Require DecimalN DecimalFacts.
Import ListNotations.

Ltac Zify.zify_post_hook ::= Z.to_euclidean_division_equations.

Set Warnings "-register-all".

(* ================================================================== *)
(** ** Python values *)
(* ================================================================== *)

Module Py.

(** A Python [str]: a sequence of Unicode code points. *)
Definition str := list N.

(** A Python [bytes] object. *)
Definition bytes := list byte.

(** An ASCII literal of the source as a [str].  JSON texts are full of double
    quotes; inside a literal the apostrophe stands for the double quote
    (code point 34), so that [lit "{'a': 1}"] is the text [{"a": 1}]. *)
Definition lit_char (a : ascii) : N :=
  let n := N_of_ascii a in
  if (n =? 39)%N then 34%N else n.

Fixpoint lit (s : string) : str :=
  match s with
  | EmptyString => []
  | String a t => lit_char a :: lit t
  end.

(** The same literal with the apostrophe kept (messages of exceptions). *)
Fixpoint raw (s : string) : str :=
  match s with
  | EmptyString => []
  | String a t => N_of_ascii a :: raw t
  end.

Fixpoint str_eqb (a b : str) : bool :=
  match a, b with
  | [], [] => true
  | x :: a', y :: b' => (x =? y)%N && str_eqb a' b'
  | _, _ => false
  end.

Lemma str_eqb_spec (a b : str) : reflect (a = b) (str_eqb a b).
Proof.
  revert b; induction a as [|x a IH]; intros [|y b]; simpl;
    try (constructor; congruence).
  destruct (N.eqb_spec x y) as [->|Hn]; simpl.
  - destruct (IH b) as [->|Hn]; constructor; congruence.
  - constructor; congruence.
Qed.

Lemma str_eqb_refl (a : str) : str_eqb a a = true.
Proof. destruct (str_eqb_spec a a); congruence. Qed.

Lemma str_eqb_eq (a b : str) : str_eqb a b = true <-> a = b.
Proof. destruct (str_eqb_spec a b); split; congruence. Qed.

Lemma str_eqb_neq (a b : str) : str_eqb a b = false <-> a <> b.
Proof. destruct (str_eqb_spec a b); split; congruence. Qed.

(** [needle in haystack] on two [str]: substring test. *)
Fixpoint starts_with (p s : str) : bool :=
  match p, s with
  | [], _ => true
  | x :: p', y :: s' => (x =? y)%N && starts_with p' s'
  | _ :: _, [] => false
  end.

Fixpoint str_contains (needle hay : str) : bool :=
  starts_with needle hay ||
  match hay with
  | [] => false
  | _ :: hay' => str_contains needle hay'
  end.

(** The exception classes the code raises or meets. *)
Inductive exn_class :=
  | TypeError | ValueError | FileNotFoundError | KeyError | AttributeError
  | RuntimeError | LookupError | UnicodeEncodeError | UnicodeDecodeError
  | JSONDecodeError | RecursionError | StructError | BlockingIOError
  | OSError | SocketTimeout.

(** An exception object: its class and [str(ex)]. *)
Record exn := Exc { exn_class_of : exn_class; exn_str : str }.

(** [b[:n]] and [b[n:]] for an [int] index [n], as Python slices: a negative
    index counts from the end and every bound is clamped to the sequence. *)
Definition slice_to {A} (b : list A) (n : Z) : list A :=
  if (0 <=? n)%Z then firstn (Z.to_nat n) b
  else firstn (length b - Z.to_nat (- n)) b.

Definition slice_from {A} (b : list A) (n : Z) : list A :=
  if (0 <=? n)%Z then skipn (Z.to_nat n) b
  else skipn (length b - Z.to_nat (- n)) b.

Lemma slice_to_from {A} (b : list A) (n : Z) :
  slice_to b n ++ slice_from b n = b.
Proof. unfold slice_to, slice_from; destruct (0 <=? n)%Z; apply firstn_skipn. Qed.

Lemma slice_to_length {A} (b : list A) (n : Z) :
  (0 <= n <= Z.of_nat (length b))%Z -> Z.of_nat (length (slice_to b n)) = n.
Proof.
  intros H. unfold slice_to.
  destruct (Z.leb_spec 0 n); [|lia].
  rewrite length_firstn. lia.
Qed.

Lemma slice_to_app {A} (a b : list A) :
  slice_to (a ++ b) (Z.of_nat (length a)) = a.
Proof.
  unfold slice_to. destruct (Z.leb_spec 0 (Z.of_nat (length a))); [|lia].
  rewrite Nat2Z.id, firstn_app, Nat.sub_diag, firstn_all. simpl.
  apply List.app_nil_r.
Qed.

Lemma slice_from_app {A} (a b : list A) :
  slice_from (a ++ b) (Z.of_nat (length a)) = b.
Proof.
  unfold slice_from. destruct (Z.leb_spec 0 (Z.of_nat (length a))); [|lia].
  rewrite Nat2Z.id, skipn_app, Nat.sub_diag, skipn_all. reflexivity.
Qed.

Lemma slice_to_all {A} (b : list A) : slice_to b (Z.of_nat (length b)) = b.
Proof.
  unfold slice_to. destruct (Z.leb_spec 0 (Z.of_nat (length b))); [|lia].
  rewrite Nat2Z.id. apply firstn_all.
Qed.

Lemma slice_from_all {A} (b : list A) : slice_from b (Z.of_nat (length b)) = [].
Proof.
  unfold slice_from. destruct (Z.leb_spec 0 (Z.of_nat (length b))); [|lia].
  rewrite Nat2Z.id. apply skipn_all.
Qed.

End Py.

Import Py.

(* ================================================================== *)
(** ** The UTF-8 codec *)
(* ================================================================== *)

Module Utf8.

(** The byte with value [n] (callers keep [n] below 256). *)
Definition byte_of_N (n : N) : byte :=
  match Byte.of_N n with
  | Some b => b
  | None => x00
  end.

Lemma to_N_byte_of_N (n : N) : (n < 256)%N -> Byte.to_N (byte_of_N n) = n.
Proof.
  intros H. unfold byte_of_N.
  destruct (Byte.of_N n) as [b|] eqn:E.
  - now apply Byte.to_of_N.
  - apply Byte.of_N_None_iff in E. lia.
Qed.

Lemma byte_of_N_to_N (b : byte) : byte_of_N (Byte.to_N b) = b.
Proof. unfold byte_of_N. now rewrite Byte.of_to_N. Qed.

Definition is_surrogate (c : N) : bool := ((0xD800 <=? c) && (c <=? 0xDFFF))%N.

(** One code point, as [str.encode('utf-8')] writes it; [None] is
    UnicodeEncodeError (a lone surrogate) or a value no [str] holds. *)
Definition encode_char (c : N) : option bytes :=
  (if c <? 0x80 then Some [byte_of_N c]
   else if c <? 0x800 then
     Some [byte_of_N (0xC0 + c / 64); byte_of_N (0x80 + c mod 64)]
   else if c <? 0x10000 then
     if is_surrogate c then None
     else Some [byte_of_N (0xE0 + c / 4096);
                byte_of_N (0x80 + (c / 64) mod 64);
                byte_of_N (0x80 + c mod 64)]
   else if c <? 0x110000 then
     Some [byte_of_N (0xF0 + c / 262144);
           byte_of_N (0x80 + (c / 4096) mod 64);
           byte_of_N (0x80 + (c / 64) mod 64);
           byte_of_N (0x80 + c mod 64)]
   else None)%N.

Fixpoint encode (s : str) : option bytes :=
  match s with
  | [] => Some []
  | c :: t =>
      match encode_char c, encode t with
      | Some a, Some b => Some (a ++ b)
      | _, _ => None
      end
  end.

Definition is_cont (n : N) : bool := ((0x80 <=? n) && (n <? 0xC0))%N.

(** [bytes.decode('utf-8')]: strict, so overlong forms, surrogates, values
    above U+10FFFF and truncated sequences are UnicodeDecodeError ([None]). *)
Fixpoint decode (bs : bytes) : option str :=
  match bs with
  | [] => Some []
  | b0 :: t0 =>
      let n0 := Byte.to_N b0 in
      (if n0 <? 0x80 then option_map (cons n0) (decode t0)
       else if n0 <? 0xC2 then None
       else if n0 <? 0xE0 then
         match t0 with
         | b1 :: t1 =>
             let n1 := Byte.to_N b1 in
             if is_cont n1
             then option_map (cons ((n0 - 0xC0) * 64 + (n1 - 0x80))) (decode t1)
             else None
         | _ => None
         end
       else if n0 <? 0xF0 then
         match t0 with
         | b1 :: b2 :: t2 =>
             let n1 := Byte.to_N b1 in
             let n2 := Byte.to_N b2 in
             let c := (n0 - 0xE0) * 4096 + (n1 - 0x80) * 64 + (n2 - 0x80) in
             if is_cont n1 && is_cont n2 && (0x800 <=? c) && negb (is_surrogate c)
             then option_map (cons c) (decode t2)
             else None
         | _ => None
         end
       else if n0 <? 0xF5 then
         match t0 with
         | b1 :: b2 :: b3 :: t3 =>
             let n1 := Byte.to_N b1 in
             let n2 := Byte.to_N b2 in
             let n3 := Byte.to_N b3 in
             let c := (n0 - 0xF0) * 262144 + (n1 - 0x80) * 4096
                      + (n2 - 0x80) * 64 + (n3 - 0x80) in
             if is_cont n1 && is_cont n2 && is_cont n3
                && (0x10000 <=? c) && (c <? 0x110000)
             then option_map (cons c) (decode t3)
             else None
         | _ => None
         end
       else None)%N
  end.

Ltac cmp_cases :=
  repeat match goal with
    | |- context [N.ltb ?a ?b] => destruct (N.ltb_spec a b); try lia
    | |- context [N.leb ?a ?b] => destruct (N.leb_spec a b); try lia
    | H : context [N.ltb ?a ?b] |- _ => destruct (N.ltb_spec a b); try lia
    | H : context [N.leb ?a ?b] |- _ => destruct (N.leb_spec a b); try lia
    end.

Lemma decode_1 (n0 : N) (r : bytes) :
  (n0 < 0x80)%N ->
  decode (byte_of_N n0 :: r) = option_map (cons n0) (decode r).
Proof.
  intros H. cbn [decode]; cbv zeta. rewrite to_N_byte_of_N by lia.
  now cmp_cases.
Qed.

Lemma decode_2 (n0 n1 : N) (r : bytes) :
  (0xC2 <= n0 < 0xE0)%N -> (0x80 <= n1 < 0xC0)%N ->
  decode (byte_of_N n0 :: byte_of_N n1 :: r)
  = option_map (cons ((n0 - 0xC0) * 64 + (n1 - 0x80))%N) (decode r).
Proof.
  intros H0 H1. cbn [decode]; cbv zeta. unfold is_cont.
  rewrite !to_N_byte_of_N by lia. now cmp_cases.
Qed.

Lemma decode_3 (n0 n1 n2 : N) (r : bytes) :
  let c := ((n0 - 0xE0) * 4096 + (n1 - 0x80) * 64 + (n2 - 0x80))%N in
  (0xE0 <= n0 < 0xF0)%N -> (0x80 <= n1 < 0xC0)%N -> (0x80 <= n2 < 0xC0)%N ->
  (0x800 <= c)%N -> is_surrogate c = false ->
  decode (byte_of_N n0 :: byte_of_N n1 :: byte_of_N n2 :: r)
  = option_map (cons c) (decode r).
Proof.
  intros c H0 H1 H2 Hc Hs. cbn [decode]; cbv zeta. unfold is_cont.
  rewrite !to_N_byte_of_N by lia. fold c. rewrite Hs.
  now cmp_cases.
Qed.

Lemma decode_4 (n0 n1 n2 n3 : N) (r : bytes) :
  let c := ((n0 - 0xF0) * 262144 + (n1 - 0x80) * 4096
            + (n2 - 0x80) * 64 + (n3 - 0x80))%N in
  (0xF0 <= n0 < 0xF5)%N -> (0x80 <= n1 < 0xC0)%N -> (0x80 <= n2 < 0xC0)%N ->
  (0x80 <= n3 < 0xC0)%N -> (0x10000 <= c < 0x110000)%N ->
  decode (byte_of_N n0 :: byte_of_N n1 :: byte_of_N n2 :: byte_of_N n3 :: r)
  = option_map (cons c) (decode r).
Proof.
  intros c H0 H1 H2 H3 Hc. cbn [decode]; cbv zeta. unfold is_cont.
  rewrite !to_N_byte_of_N by lia. fold c.
  now cmp_cases.
Qed.

Lemma decode_encode_char_aux (c : N) (r : bytes) :
  match encode_char c with
  | Some a => decode (a ++ r) = option_map (cons c) (decode r)
  | None => True
  end.
Proof.
  unfold encode_char.
  destruct (N.ltb_spec c 0x80).
  { cbn [app]. now apply decode_1. }
  destruct (N.ltb_spec c 0x800).
  { cbn [app]. rewrite decode_2 by lia. f_equal; f_equal; lia. }
  destruct (N.ltb_spec c 0x10000).
  { destruct (is_surrogate c) eqn:Es; [exact I|]. cbn [app].
    assert (E : ((0xE0 + c / 4096 - 0xE0) * 4096 + (0x80 + (c / 64) mod 64 - 0x80) * 64
             + (0x80 + c mod 64 - 0x80) = c)%N) by lia.
    rewrite decode_3; rewrite ?E; try lia; auto. }
  destruct (N.ltb_spec c 0x110000); [|exact I].
  cbn [app].
  assert (E : ((0xF0 + c / 262144 - 0xF0) * 262144 + (0x80 + (c / 4096) mod 64 - 0x80) * 4096
             + (0x80 + (c / 64) mod 64 - 0x80) * 64
             + (0x80 + c mod 64 - 0x80) = c)%N) by lia.
  rewrite decode_4; rewrite ?E; try lia; auto.
Qed.

Lemma decode_encode_char (c : N) (a r : bytes) :
  encode_char c = Some a ->
  decode (a ++ r) = option_map (cons c) (decode r).
Proof.
  intros H. generalize (decode_encode_char_aux c r). now rewrite H.
Qed.

Lemma decode_encode (s : str) (b : bytes) :
  encode s = Some b -> decode b = Some s.
Proof.
  revert b; induction s as [|c s IH]; simpl; intros b H.
  - now injection H as <-.
  - destruct (encode_char c) as [a|] eqn:Ec; [|discriminate].
    destruct (encode s) as [b'|]; [|discriminate].
    injection H as <-.
    rewrite (decode_encode_char _ _ _ Ec), (IH _ eq_refl). reflexivity.
Qed.

(** Text below U+0080 is written byte for byte. *)
Definition is_ascii (s : str) : Prop := Forall (fun c => (c < 0x80)%N) s.

Lemma encode_ascii (s : str) :
  is_ascii s -> encode s = Some (map byte_of_N s).
Proof.
  induction 1 as [|c s Hc _ IH]; simpl; [reflexivity|].
  unfold encode_char. destruct (N.ltb_spec c 0x80); [|lia].
  now rewrite IH.
Qed.

Lemma encode_app (s t : str) (a b : bytes) :
  encode s = Some a -> encode t = Some b -> encode (s ++ t) = Some (a ++ b).
Proof.
  revert a; induction s as [|c s IH]; simpl; intros a Ha Hb.
  - injection Ha as <-. exact Hb.
  - destruct (encode_char c) as [x|]; [|discriminate].
    destruct (encode s) as [y|]; [|discriminate].
    injection Ha as <-. rewrite (IH _ eq_refl Hb). now rewrite app_assoc.
Qed.

End Utf8.

(* ================================================================== *)
(** ** The interpreter and platform the module runs on *)
(* ================================================================== *)

Module Rt.

(** [sys.byteorder]. *)
Inductive ByteOrder := Little | Big.

Definition byteorder_name (b : ByteOrder) : str :=
  match b with
  | Little => lit "little"
  | Big => lit "big"
  end.

(** A text codec as [codecs.lookup] returns it: [None] from either function
    is UnicodeEncodeError / UnicodeDecodeError. *)
Record Codec := {
  codec_encode : str -> option bytes;
  codec_decode : bytes -> option str
}.

Definition utf8 : Codec :=
  {| codec_encode := Utf8.encode; codec_decode := Utf8.decode |}.

(** A codec that gives back what it wrote. *)
Definition lossless (c : Codec) : Prop :=
  forall s b, codec_encode c s = Some b -> codec_decode c b = Some s.

Lemma utf8_lossless : lossless utf8.
Proof. exact Utf8.decode_encode. Qed.

(** What the module takes from its environment and this development does not
    look into: the byte order of the machine, the registry of codecs, and
    floating point.  A [float] is carried as a literal that denotes it;
    the three float operations the code can reach are left to the runtime. *)
Class Runtime := {
  sys_byteorder : ByteOrder;
  codecs_lookup : str -> option Codec;      (* None: LookupError *)
  float_repr : str -> str;                  (* float.__repr__ *)
  float_bool : str -> bool;                 (* bool(x) *)
  int_ge_float : Z -> str -> bool           (* n >= x *)
}.

(** A little-endian CPython that knows the utf-8 codec under two of its
    names. *)
Definition cpython : Runtime := {|
  sys_byteorder := Little;
  codecs_lookup := fun name =>
    if str_eqb name (lit "utf-8") || str_eqb name (lit "utf8")
    then Some utf8 else None;
  float_repr := fun l => l;
  float_bool := fun _ => true;
  int_ge_float := fun _ _ => false
|}.

End Rt.

Import Rt.

(* ================================================================== *)
(** ** json.dumps and json.load *)
(* ================================================================== *)

Module Json.

(** What [json.load] returns and [json.dumps] accepts in this module.
    [JNull] is Python's [None]; a [dict] keeps its insertion order. *)
Inductive json :=
  | JNull
  | JBool (b : bool)
  | JInt (z : Z)
  | JFloat (literal : str)
  | JStr (s : str)
  | JList (l : list json)
  | JDict (m : list (str * json)).

Section JsonInd.
Variable P : json -> Prop.
Hypothesis Hnull : P JNull.
Hypothesis Hbool : forall b, P (JBool b).
Hypothesis Hint : forall z, P (JInt z).
Hypothesis Hfloat : forall l, P (JFloat l).
Hypothesis Hstr : forall s, P (JStr s).
Hypothesis Hlist : forall l, Forall P l -> P (JList l).
Hypothesis Hdict : forall m, Forall (fun kv => P (snd kv)) m -> P (JDict m).

Fixpoint json_ind' (v : json) : P v :=
  match v with
  | JNull => Hnull
  | JBool b => Hbool b
  | JInt z => Hint z
  | JFloat l => Hfloat l
  | JStr s => Hstr s
  | JList l =>
      Hlist l ((fix go (l : list json) : Forall P l :=
                match l with
                | [] => Forall_nil _
                | x :: t => Forall_cons _ (json_ind' x) (go t)
                end) l)
  | JDict m =>
      Hdict m ((fix go (m : list (str * json)) : Forall (fun kv => P (snd kv)) m :=
                match m with
                | [] => Forall_nil _
                | (k, x) :: t => Forall_cons (k, x) (json_ind' x) (go t)
                end) m)
  end.
End JsonInd.

(** *** The dict operations the code uses *)

Fixpoint dict_get (m : list (str * json)) (k : str) : option json :=
  match m with
  | [] => None
  | (k', v) :: m' => if str_eqb k k' then Some v else dict_get m' k
  end.

(** [m[k] = v]: a present key keeps its place. *)
Fixpoint dict_set (m : list (str * json)) (k : str) (v : json) : list (str * json) :=
  match m with
  | [] => [(k, v)]
  | (k', v') :: m' =>
      if str_eqb k k' then (k, v) :: m' else (k', v') :: dict_set m' k v
  end.

(** [dict(pairs)]. *)
Definition dict_of_pairs (pairs : list (str * json)) : list (str * json) :=
  fold_left (fun m kv => dict_set m (fst kv) (snd kv)) pairs [].

(** *** json.dumps *)

Definition hex_digit (n : N) : N := (if n <? 10 then 48 + n else 87 + n)%N.

(** ['\\u{0:04x}'.format(n)] *)
Definition u_escape (n : N) : str :=
  [92; 117; hex_digit (n / 4096); hex_digit ((n / 256) mod 16);
   hex_digit ((n / 16) mod 16); hex_digit (n mod 16)]%N.

(** One character of a string, as [encode_basestring] ([ensure_ascii=False])
    and [encode_basestring_ascii] write it. *)
Definition escape_char (ensure_ascii : bool) (c : N) : str :=
  (if c =? 34 then [92; 34]
   else if c =? 92 then [92; 92]
   else if c =? 10 then [92; 110]
   else if c =? 13 then [92; 114]
   else if c =? 9 then [92; 116]
   else if c =? 8 then [92; 98]
   else if c =? 12 then [92; 102]
   else if c <? 32 then u_escape c
   else if ensure_ascii && (126 <? c) then
     if c <? 0x10000 then u_escape c
     else
       let n := c - 0x10000 in
       u_escape (N.lor 0xD800 (N.land (N.shiftr n 10) 0x3FF))
       ++ u_escape (N.lor 0xDC00 (N.land n 0x3FF))
   else [c])%N.

Definition dumps_str (ensure_ascii : bool) (s : str) : str :=
  [34%N] ++ flat_map (escape_char ensure_ascii) s ++ [34%N].

Fixpoint uint_chars (u : Decimal.uint) : str :=
  match u with
  | Decimal.Nil => []
  | Decimal.D0 u => 48%N :: uint_chars u
  | Decimal.D1 u => 49%N :: uint_chars u
  | Decimal.D2 u => 50%N :: uint_chars u
  | Decimal.D3 u => 51%N :: uint_chars u
  | Decimal.D4 u => 52%N :: uint_chars u
  | Decimal.D5 u => 53%N :: uint_chars u
  | Decimal.D6 u => 54%N :: uint_chars u
  | Decimal.D7 u => 55%N :: uint_chars u
  | Decimal.D8 u => 56%N :: uint_chars u
  | Decimal.D9 u => 57%N :: uint_chars u
  end.

(** [int.__repr__] *)
Definition repr_int (z : Z) : str :=
  (if (z <? 0)%Z then [45%N] else []) ++ uint_chars (N.to_uint (Z.abs_N z)).

(** [sep.join(items)] *)
Fixpoint join (sep : str) (items : list str) : str :=
  match items with
  | [] => []
  | [x] => x
  | x :: t => x ++ sep ++ join sep t
  end.

Section Dumps.
Context {R : Runtime}.
Variable ensure_ascii : bool.

(** [json.dumps(v, ensure_ascii=...)] with the default separators. *)
Fixpoint dumps (v : json) : str :=
  match v with
  | JNull => lit "null"
  | JBool true => lit "true"
  | JBool false => lit "false"
  | JInt z => repr_int z
  | JFloat l => float_repr l
  | JStr s => dumps_str ensure_ascii s
  | JList l => [91%N] ++ join (lit ", ") (map dumps l) ++ [93%N]
  | JDict m =>
      [123%N]
      ++ join (lit ", ")
           (map (fun kv => match kv with
                           | (k, x) => dumps_str ensure_ascii k ++ lit ": " ++ dumps x
                           end) m)
      ++ [125%N]
  end.
End Dumps.

(** *** json.load *)

Definition is_ws (c : N) : bool :=
  ((c =? 32) || (c =? 9) || (c =? 10) || (c =? 13))%N.

Fixpoint skip_ws (s : str) : str :=
  match s with
  | c :: t => if is_ws c then skip_ws t else s
  | [] => []
  end.

Definition hex_val (c : N) : option N :=
  (if (48 <=? c) && (c <=? 57) then Some (c - 48)
   else if (97 <=? c) && (c <=? 102) then Some (c - 87)
   else if (65 <=? c) && (c <=? 70) then Some (c - 55)
   else None)%N.

Definition hex4 (a b c d : N) : option N :=
  match hex_val a, hex_val b, hex_val c, hex_val d with
  | Some x, Some y, Some z, Some w => Some (((x * 16 + y) * 16 + z) * 16 + w)%N
  | _, _, _, _ => None
  end.

(** The decoder's BACKSLASH table. *)
Definition backslash (e : N) : option N :=
  (if e =? 34 then Some 34
   else if e =? 92 then Some 92
   else if e =? 47 then Some 47
   else if e =? 98 then Some 8
   else if e =? 102 then Some 12
   else if e =? 110 then Some 10
   else if e =? 114 then Some 13
   else if e =? 116 then Some 9
   else None)%N.

(** [scanstring(s, end, strict=True)], started after the opening quote:
    the string read and what follows its closing quote. *)
Fixpoint scanstring (s : str) : option (str * str) :=
  let keep c r :=
    match r with
    | Some (x, rest) => Some (c :: x, rest)
    | None => None
    end in
  match s with
  | [] => None
  | c :: t =>
      if (c =? 34)%N then Some ([], t)
      else if (c =? 92)%N then
        match t with
        | [] => None
        | e :: t1 =>
            if (e =? 117)%N then
              match t1 with
              | h1 :: h2 :: h3 :: h4 :: t5 =>
                  match hex4 h1 h2 h3 h4 with
                  | None => None
                  | Some uni =>
                      if ((0xD800 <=? uni) && (uni <=? 0xDBFF))%N then
                        match t5 with
                        | b :: u :: t7 =>
                            if ((b =? 92) && (u =? 117))%N then
                              match t7 with
                              | g1 :: g2 :: g3 :: g4 :: t11 =>
                                  match hex4 g1 g2 g3 g4 with
                                  | None => None
                                  | Some uni2 =>
                                      if ((0xDC00 <=? uni2) && (uni2 <=? 0xDFFF))%N
                                      then keep (0x10000 + N.lor (N.shiftl (uni - 0xD800) 10)
                                                                 (uni2 - 0xDC00))%N
                                                (scanstring t11)
                                      else keep uni (scanstring t5)
                                  end
                              | _ => None
                              end
                            else keep uni (scanstring t5)
                        | _ => keep uni (scanstring t5)
                        end
                      else keep uni (scanstring t5)
                  end
              | _ => None
              end
            else
              match backslash e with
              | Some c' => keep c' (scanstring t1)
              | None => None
              end
        end
      else if (c <? 32)%N then None
      else keep c (scanstring t)
  end.

Definition is_digit (c : N) : bool := ((48 <=? c) && (c <=? 57))%N.

Fixpoint span_digits (s : str) : str * str :=
  match s with
  | c :: t =>
      if is_digit c then let (d, r) := span_digits t in (c :: d, r)
      else ([], s)
  | [] => ([], [])
  end.

(** NUMBER_RE matched at the head of [s]: an optional minus sign and either
    a single 0 or a digit 1-9 followed by any digits (the integer group), an
    optional dot followed by one or more digits (the fraction group), an
    optional e or E, optional sign and one or more digits (the exponent
    group).  Each group function gives the text it matched (empty when the
    optional group is absent) and the text after it. *)
Definition int_group (s : str) : option (str * str) :=
  let (sign, s1) :=
    match s with
    | c :: t => if (c =? 45)%N then ([45%N], t) else ([], s)
    | [] => ([], s)
    end in
  match s1 with
  | c :: t =>
      if (c =? 48)%N then Some (sign ++ [c], t)
      else if is_digit c then
        let (d, r) := span_digits t in Some (sign ++ c :: d, r)
      else None
  | [] => None
  end.

Definition frac_group (s : str) : str * str :=
  match s with
  | c :: t =>
      if (c =? 46)%N then
        match span_digits t with
        | ([], _) => ([], s)
        | (d, r) => (c :: d, r)
        end
      else ([], s)
  | [] => ([], s)
  end.

Definition exp_group (s : str) : str * str :=
  match s with
  | c :: t =>
      if ((c =? 101) || (c =? 69))%N then
        let (sg, t') :=
          match t with
          | g :: t' => if ((g =? 45) || (g =? 43))%N then ([g], t') else ([], t)
          | [] => ([], t)
          end in
        match span_digits t' with
        | ([], _) => ([], s)
        | (d, r) => (c :: sg ++ d, r)
        end
      else ([], s)
  | [] => ([], s)
  end.

Definition match_number (s : str) : option (str * str * str * str) :=
  match int_group s with
  | None => None
  | Some (integer, s2) =>
      let (frac, s3) := frac_group s2 in
      let (exp, s4) := exp_group s3 in
      Some (integer, frac, exp, s4)
  end.

Fixpoint chars_uint (s : str) : Decimal.uint :=
  match s with
  | [] => Decimal.Nil
  | c :: t =>
      let u := chars_uint t in
      (if c =? 48 then Decimal.D0 u else if c =? 49 then Decimal.D1 u
       else if c =? 50 then Decimal.D2 u else if c =? 51 then Decimal.D3 u
       else if c =? 52 then Decimal.D4 u else if c =? 53 then Decimal.D5 u
       else if c =? 54 then Decimal.D6 u else if c =? 55 then Decimal.D7 u
       else if c =? 56 then Decimal.D8 u else Decimal.D9 u)%N
  end.

(** [int(text)] on a match of the first group of NUMBER_RE. *)
Definition parse_int (s : str) : Z :=
  match s with
  | c :: t =>
      if (c =? 45)%N then (- Z.of_N (N.of_uint (chars_uint t)))%Z
      else Z.of_N (N.of_uint (chars_uint s))
  | [] => 0%Z
  end.

(** The outcome of a scanning function: a value and the text after it, a
    JSONDecodeError, or the end of the recursion budget. *)
Inductive scan (A : Type) :=
  | Scanned (a : A) (rest : str)
  | ScanError
  | ScanDepth.
Arguments Scanned {A} a rest.
Arguments ScanError {A}.
Arguments ScanDepth {A}.

(** [scan_once], [JSONArray] and [JSONObject] of json.scanner / json.decoder;
    the two loops are written as recursions that return the items read. *)
Fixpoint scan_once (fuel : nat) (s : str) : scan json :=
  match fuel with
  | O => ScanDepth
  | S f =>
      match s with
      | [] => ScanError
      | c :: t =>
          if (c =? 34)%N then
            match scanstring t with
            | Some (x, rest) => Scanned (JStr x) rest
            | None => ScanError
            end
          else if (c =? 123)%N then
            match skip_ws t with
            | c1 :: t1 =>
                if (c1 =? 125)%N then Scanned (JDict []) t1
                else if (c1 =? 34)%N then
                  match object_loop f t1 with
                  | Scanned pairs rest => Scanned (JDict (dict_of_pairs pairs)) rest
                  | ScanError => ScanError
                  | ScanDepth => ScanDepth
                  end
                else ScanError
            | [] => ScanError
            end
          else if (c =? 91)%N then
            match skip_ws t with
            | c1 :: t1 =>
                if (c1 =? 93)%N then Scanned (JList []) t1
                else
                  match array_loop f (c1 :: t1) with
                  | Scanned items rest => Scanned (JList items) rest
                  | ScanError => ScanError
                  | ScanDepth => ScanDepth
                  end
            | [] => ScanError
            end
          else if starts_with (lit "null") s then Scanned JNull (skipn 4 s)
          else if starts_with (lit "true") s then Scanned (JBool true) (skipn 4 s)
          else if starts_with (lit "false") s then Scanned (JBool false) (skipn 5 s)
          else
            match match_number s with
            | Some (integer, [], [], rest) => Scanned (JInt (parse_int integer)) rest
            | Some (integer, frac, exp, rest) =>
                Scanned (JFloat (integer ++ frac ++ exp)) rest
            | None =>
                if starts_with (lit "NaN") s then Scanned (JFloat (lit "NaN")) (skipn 3 s)
                else if starts_with (lit "Infinity") s
                then Scanned (JFloat (lit "Infinity")) (skipn 8 s)
                else if starts_with (lit "-Infinity") s
                then Scanned (JFloat (lit "-Infinity")) (skipn 9 s)
                else ScanError
            end
      end
  end

with array_loop (fuel : nat) (s : str) : scan (list json) :=
  match fuel with
  | O => ScanDepth
  | S f =>
      match scan_once f s with
      | Scanned v s1 =>
          match skip_ws s1 with
          | c :: t =>
              if (c =? 93)%N then Scanned [v] t
              else if (c =? 44)%N then
                match array_loop f (skip_ws t) with
                | Scanned vs rest => Scanned (v :: vs) rest
                | ScanError => ScanError
                | ScanDepth => ScanDepth
                end
              else ScanError
          | [] => ScanError
          end
      | ScanError => ScanError
      | ScanDepth => ScanDepth
      end
  end

with object_loop (fuel : nat) (s : str) : scan (list (str * json)) :=
  match fuel with
  | O => ScanDepth
  | S f =>
      match scanstring s with
      | None => ScanError
      | Some (key, s1) =>
          match skip_ws s1 with
          | c :: s2 =>
              if (c =? 58)%N then
                match scan_once f (skip_ws s2) with
                | Scanned v s3 =>
                    match skip_ws s3 with
                    | c1 :: t =>
                        if (c1 =? 125)%N then Scanned [(key, v)] t
                        else if (c1 =? 44)%N then
                          match skip_ws t with
                          | c2 :: t2 =>
                              if (c2 =? 34)%N then
                                match object_loop f t2 with
                                | Scanned kvs rest => Scanned ((key, v) :: kvs) rest
                                | ScanError => ScanError
                                | ScanDepth => ScanDepth
                                end
                              else ScanError
                          | [] => ScanError
                          end
                        else ScanError
                    | [] => ScanError
                    end
                | ScanError => ScanError
                | ScanDepth => ScanDepth
                end
              else ScanError
          | [] => ScanError
          end
      end
  end.

(** [json.loads(s)]: [None] is JSONDecodeError.  The recursion budget is one
    no text of this length can use up (see [scan_once_budget]). *)
Definition loads (s : str) : option json :=
  if starts_with [0xFEFF%N] s then None
  else
    match scan_once (2 * length s + 2) (skip_ws s) with
    | Scanned v rest =>
        match skip_ws rest with
        | [] => Some v
        | _ :: _ => None
        end
    | _ => None
    end.

(** *** Reading back what [dumps] wrote: strings *)

Lemma hex_val_digit (n : N) : (n < 16)%N -> hex_val (hex_digit n) = Some n.
Proof.
  intros H. unfold hex_val, hex_digit.
  destruct (N.ltb_spec n 10).
  - destruct (N.leb_spec 48 (48 + n)); [|lia].
    destruct (N.leb_spec (48 + n) 57); [|lia].
    cbn [andb]. f_equal. lia.
  - destruct (N.leb_spec 48 (87 + n)); [|lia].
    destruct (N.leb_spec (87 + n) 57); [lia|].
    destruct (N.leb_spec 97 (87 + n)); [|lia].
    destruct (N.leb_spec (87 + n) 102); [|lia].
    cbn [andb]. f_equal. lia.
Qed.

Lemma hex4_u_escape (c : N) :
  (c < 65536)%N ->
  hex4 (hex_digit (c / 4096)) (hex_digit ((c / 256) mod 16))
       (hex_digit ((c / 16) mod 16)) (hex_digit (c mod 16)) = Some c.
Proof.
  intros H. unfold hex4.
  rewrite !hex_val_digit by lia. f_equal. lia.
Qed.

Lemma scanstring_quote (t : str) : scanstring (34%N :: t) = Some ([], t).
Proof. reflexivity. Qed.

Lemma scanstring_backslash (e : N) (t : str) (c : N) :
  e <> 117%N -> backslash e = Some c ->
  scanstring (92%N :: e :: t) =
  match scanstring t with Some (x, rest) => Some (c :: x, rest) | None => None end.
Proof.
  intros Hu Hb. cbn [scanstring].
  change (92 =? 34)%N with false. change (92 =? 92)%N with true. cbv iota.
  destruct (N.eqb_spec e 117); [contradiction|]. now rewrite Hb.
Qed.

Lemma scanstring_plain_char (c : N) (t : str) :
  c <> 34%N -> c <> 92%N -> (32 <= c)%N ->
  scanstring (c :: t) =
  match scanstring t with Some (x, rest) => Some (c :: x, rest) | None => None end.
Proof.
  intros H1 H2 H3. cbn [scanstring].
  destruct (N.eqb_spec c 34); [contradiction|].
  destruct (N.eqb_spec c 92); [contradiction|].
  destruct (N.ltb_spec c 32); [lia|]. reflexivity.
Qed.

Lemma scanstring_u_escape (c : N) (t : str) :
  (c < 0xD800)%N ->
  scanstring (u_escape c ++ t) =
  match scanstring t with Some (x, rest) => Some (c :: x, rest) | None => None end.
Proof.
  intros H. unfold u_escape. cbn [app scanstring].
  change (92 =? 34)%N with false. change (92 =? 92)%N with true.
  change (117 =? 117)%N with true. cbv iota.
  rewrite hex4_u_escape by lia.
  destruct (N.leb_spec 0xD800 c); [lia|]. reflexivity.
Qed.

Lemma scanstring_escape (s rest : str) :
  scanstring (flat_map (escape_char false) s ++ 34%N :: rest) = Some (s, rest).
Proof.
  induction s as [|c s IH]; [reflexivity|].
  cbn [flat_map]. rewrite <- app_assoc. unfold escape_char at 1.
  destruct (N.eqb_spec c 34) as [->|H34].
  { cbn [app]. rewrite (scanstring_backslash 34 _ 34), IH by (reflexivity || discriminate). reflexivity. }
  destruct (N.eqb_spec c 92) as [->|H92].
  { cbn [app]. rewrite (scanstring_backslash 92 _ 92), IH by (reflexivity || discriminate). reflexivity. }
  destruct (N.eqb_spec c 10) as [->|H10].
  { cbn [app]. rewrite (scanstring_backslash 110 _ 10), IH by (reflexivity || discriminate). reflexivity. }
  destruct (N.eqb_spec c 13) as [->|H13].
  { cbn [app]. rewrite (scanstring_backslash 114 _ 13), IH by (reflexivity || discriminate). reflexivity. }
  destruct (N.eqb_spec c 9) as [->|H9].
  { cbn [app]. rewrite (scanstring_backslash 116 _ 9), IH by (reflexivity || discriminate). reflexivity. }
  destruct (N.eqb_spec c 8) as [->|H8].
  { cbn [app]. rewrite (scanstring_backslash 98 _ 8), IH by (reflexivity || discriminate). reflexivity. }
  destruct (N.eqb_spec c 12) as [->|H12].
  { cbn [app]. rewrite (scanstring_backslash 102 _ 12), IH by (reflexivity || discriminate). reflexivity. }
  destruct (N.ltb_spec c 32).
  { rewrite scanstring_u_escape, IH by lia. reflexivity. }
  cbn [andb app]. rewrite scanstring_plain_char, IH by assumption. reflexivity.
Qed.

Lemma scanstring_dumps_str (s rest : str) :
  scanstring (tl (dumps_str false s) ++ rest) = Some (s, rest).
Proof.
  unfold dumps_str. cbn [app tl]. rewrite <- app_assoc. apply scanstring_escape.
Qed.

(** *** Reading back what [dumps] wrote: integers *)

(** The text after a value that [dumps] wrote: nothing, a comma, or a closing
    bracket or brace. *)
Definition value_end (rest : str) : bool :=
  match rest with
  | [] => true
  | c :: _ => ((c =? 44) || (c =? 93) || (c =? 125))%N
  end.

Lemma value_end_not_digit (rest : str) :
  value_end rest = true ->
  match rest with [] => True | c :: _ => is_digit c = false /\ c <> 46%N /\ c <> 101%N /\ c <> 69%N end.
Proof.
  destruct rest as [|c t]; [trivial|]. unfold value_end, is_digit.
  intros H. apply orb_prop in H as [H|H]; [apply orb_prop in H as [H|H]|];
    apply N.eqb_eq in H; subst c; repeat split; discriminate.
Qed.

Lemma uint_chars_digits (u : Decimal.uint) : Forall (fun c => is_digit c = true) (uint_chars u).
Proof. induction u; simpl; constructor; auto. Qed.

Lemma span_digits_app (d rest : str) :
  Forall (fun c => is_digit c = true) d ->
  match rest with [] => True | c :: _ => is_digit c = false end ->
  span_digits (d ++ rest) = (d, rest).
Proof.
  intros Hd Hr. induction Hd as [|c d Hc _ IH]; cbn [app span_digits].
  - destruct rest as [|c t]; [reflexivity|]. cbn [span_digits]. now rewrite Hr.
  - now rewrite Hc, IH.
Qed.

Lemma chars_uint_chars (u : Decimal.uint) : chars_uint (uint_chars u) = u.
Proof. induction u; simpl; congruence. Qed.

Lemma unorm_fixed (u : Decimal.uint) :
  Decimal.unorm u = u ->
  u = Decimal.D0 Decimal.Nil \/
  exists c t, uint_chars u = c :: t /\ is_digit c = true /\ c <> 48%N.
Proof.
  intros H. destruct u.
  1: { exfalso. revert H. apply DecimalFacts.unorm_nonnil. }
  1: { destruct (Decimal.uint_eq_dec u Decimal.Nil) as [->|Hn]; [now left|].
       exfalso. rewrite DecimalFacts.unorm_D0 in H.
       pose proof (DecimalFacts.nb_digits_unorm u Hn) as Hle.
       rewrite H in Hle. simpl in Hle. lia. }
  all: right; simpl; eexists _, _; repeat split; discriminate.
Qed.

Lemma to_uint_head (n : N) :
  (n = 0%N /\ uint_chars (N.to_uint n) = [48%N]) \/
  (n <> 0%N /\ exists c t, uint_chars (N.to_uint n) = c :: t /\ is_digit c = true /\ c <> 48%N).
Proof.
  destruct (N.eq_dec n 0) as [->|Hn]; [left; split; reflexivity|].
  right; split; [assumption|].
  assert (H : Decimal.unorm (N.to_uint n) = N.to_uint n).
  { rewrite <- (DecimalN.Unsigned.of_to n) at 2. symmetry. apply DecimalN.Unsigned.to_of. }
  destruct (unorm_fixed _ H) as [E|E]; [|exact E].
  exfalso. apply Hn. rewrite <- (DecimalN.Unsigned.of_to n), E. reflexivity.
Qed.

Lemma frac_group_end (rest : str) :
  value_end rest = true -> frac_group rest = ([], rest).
Proof.
  intros H. apply value_end_not_digit in H.
  destruct rest as [|c t]; [reflexivity|]. destruct H as (_ & H46 & _).
  unfold frac_group. now destruct (N.eqb_spec c 46).
Qed.

Lemma exp_group_end (rest : str) :
  value_end rest = true -> exp_group rest = ([], rest).
Proof.
  intros H. apply value_end_not_digit in H.
  destruct rest as [|c t]; [reflexivity|]. destruct H as (_ & _ & H101 & H69).
  unfold exp_group.
  destruct (N.eqb_spec c 101); [contradiction|].
  now destruct (N.eqb_spec c 69).
Qed.

Lemma int_group_repr_int (z : Z) (rest : str) :
  value_end rest = true ->
  int_group (repr_int z ++ rest) = Some (repr_int z, rest).
Proof.
  intros Hend. apply value_end_not_digit in Hend.
  assert (Hnd : match rest with [] => True | c :: _ => is_digit c = false end)
    by (destruct rest; tauto).
  unfold repr_int, int_group.
  destruct (to_uint_head (Z.abs_N z)) as [[Hz Hc]|[Hz (c & t & Hc & Hd & H48)]];
    rewrite Hc.
  - assert (z = 0%Z) by lia. subst z. reflexivity.
  - assert (Hdt : Forall (fun c => is_digit c = true) t).
    { pose proof (uint_chars_digits (N.to_uint (Z.abs_N z))) as F.
      rewrite Hc in F. now inversion F. }
    assert (H45 : (c =? 45)%N = false).
    { apply N.eqb_neq. intros ->. discriminate Hd. }
    destruct (Z.ltb_spec z 0); cbn [app].
    + change (45 =? 45)%N with true. cbv iota.
      destruct (N.eqb_spec c 48); [contradiction|]. rewrite Hd.
      now rewrite span_digits_app by assumption.
    + rewrite H45. destruct (N.eqb_spec c 48); [contradiction|]. rewrite Hd.
      now rewrite span_digits_app by assumption.
Qed.

Lemma match_number_repr_int (z : Z) (rest : str) :
  value_end rest = true ->
  match_number (repr_int z ++ rest) = Some (repr_int z, [], [], rest).
Proof.
  intros Hend. unfold match_number.
  now rewrite int_group_repr_int, frac_group_end, exp_group_end.
Qed.

Lemma parse_int_repr_int (z : Z) : parse_int (repr_int z) = z.
Proof.
  unfold repr_int, parse_int.
  destruct (Z.ltb_spec z 0); cbn [app].
  - change (45 =? 45)%N with true. cbv iota.
    rewrite chars_uint_chars, DecimalN.Unsigned.of_to. lia.
  - destruct (uint_chars (N.to_uint (Z.abs_N z))) as [|c t] eqn:E.
    + destruct (to_uint_head (Z.abs_N z)) as [[_ Hc]|[_ (c & t & Hc & _)]];
        rewrite Hc in E; discriminate.
    + assert (H45 : (c =? 45)%N = false).
      { pose proof (uint_chars_digits (N.to_uint (Z.abs_N z))) as F.
        rewrite E in F. inversion F as [|? ? Hd _]; subst.
        apply N.eqb_neq. intros ->. discriminate Hd. }
      rewrite H45, <- E, chars_uint_chars, DecimalN.Unsigned.of_to. lia.
Qed.

Lemma repr_int_head (z : Z) :
  exists c t, repr_int z = c :: t /\ (c = 45%N \/ is_digit c = true).
Proof.
  unfold repr_int. destruct (Z.ltb_spec z 0); cbn [app].
  - eexists _, _; split; [reflexivity|now left].
  - destruct (to_uint_head (Z.abs_N z)) as [[_ Hc]|[_ (c & t & Hc & Hd & _)]];
      rewrite Hc; eexists _, _; split; try reflexivity; right; auto.
Qed.

(** *** Reading back what [dumps] wrote: values *)

Fixpoint keys_distinct (ks : list str) : bool :=
  match ks with
  | [] => true
  | k :: t => negb (existsb (str_eqb k) t) && keys_distinct t
  end.

(** The values [dumps] and [loads] exchange without loss: built from None,
    bool, int, str, list and dict, with no float inside.  The keys of a
    [dict] are distinct, as they are in every Python dict. *)
Fixpoint plain (v : json) : bool :=
  match v with
  | JFloat _ => false
  | JList l => forallb plain l
  | JDict m =>
      keys_distinct (map fst m)
      && forallb (fun kv => match kv with (_, x) => plain x end) m
  | _ => true
  end.

(** A recursion budget that is enough to read [dumps v] back. *)
Fixpoint fuel_of (v : json) : nat :=
  match v with
  | JList l => S (list_sum (map (fun x => S (fuel_of x)) l))
  | JDict m => S (list_sum (map (fun kv => match kv with (_, x) => S (fuel_of x) end) m))
  | _ => 1
  end.

Lemma dict_set_fresh (m : list (str * json)) (k : str) (v : json) :
  existsb (str_eqb k) (map fst m) = false -> dict_set m k v = m ++ [(k, v)].
Proof.
  induction m as [|[k' v'] m IH]; cbn [map fst existsb dict_set app]; [reflexivity|].
  intros H. apply orb_false_elim in H as [H1 H2].
  rewrite H1, IH by assumption. reflexivity.
Qed.

Lemma existsb_app_false {A} (f : A -> bool) (a b : list A) :
  existsb f (a ++ b) = false <-> existsb f a = false /\ existsb f b = false.
Proof. rewrite existsb_app. apply orb_false_iff. Qed.

Lemma dict_of_pairs_distinct_aux (acc m : list (str * json)) :
  keys_distinct (map fst (acc ++ m)) = true ->
  fold_left (fun a kv => dict_set a (fst kv) (snd kv)) m acc = acc ++ m.
Proof.
  revert acc; induction m as [|[k v] m IH]; intros acc H; cbn [fold_left fst snd].
  - now rewrite List.app_nil_r.
  - rewrite dict_set_fresh.
    + rewrite IH; rewrite <- app_assoc; [reflexivity|exact H].
    + clear IH. induction acc as [|[k' v'] acc IHa]; [reflexivity|].
      cbn [app map fst keys_distinct existsb] in *.
      apply andb_prop in H as [H1 H2].
      rewrite (IHa H2), orb_false_r.
      apply negb_true_iff in H1. rewrite map_app in H1.
      apply existsb_app_false in H1 as [_ H1]. cbn [map fst existsb] in H1.
      apply orb_false_elim in H1 as [H1 _].
      destruct (str_eqb_spec k k') as [->|]; [|reflexivity].
      now rewrite str_eqb_refl in H1.
Qed.

Lemma dict_of_pairs_distinct (m : list (str * json)) :
  keys_distinct (map fst m) = true -> dict_of_pairs m = m.
Proof. intros H. apply (dict_of_pairs_distinct_aux [] m H). Qed.

(** The equations of [scan_once] on the first character. *)
Lemma scan_once_str (f : nat) (t : str) :
  scan_once (S f) (34%N :: t) =
  match scanstring t with
  | Some (x, rest) => Scanned (JStr x) rest
  | None => ScanError
  end.
Proof. reflexivity. Qed.

Lemma scan_once_list (f : nat) (t : str) :
  scan_once (S f) (91%N :: t) =
  match skip_ws t with
  | c1 :: t1 =>
      if (c1 =? 93)%N then Scanned (JList []) t1
      else
        match array_loop f (c1 :: t1) with
        | Scanned items rest => Scanned (JList items) rest
        | ScanError => ScanError
        | ScanDepth => ScanDepth
        end
  | [] => ScanError
  end.
Proof. reflexivity. Qed.

Lemma scan_once_dict (f : nat) (t : str) :
  scan_once (S f) (123%N :: t) =
  match skip_ws t with
  | c1 :: t1 =>
      if (c1 =? 125)%N then Scanned (JDict []) t1
      else if (c1 =? 34)%N then
        match object_loop f t1 with
        | Scanned pairs rest => Scanned (JDict (dict_of_pairs pairs)) rest
        | ScanError => ScanError
        | ScanDepth => ScanDepth
        end
      else ScanError
  | [] => ScanError
  end.
Proof. reflexivity. Qed.

Lemma scan_once_number (f : nat) (c : N) (t : str) :
  c = 45%N \/ is_digit c = true ->
  scan_once (S f) (c :: t) =
  match match_number (c :: t) with
  | Some (integer, [], [], rest) => Scanned (JInt (parse_int integer)) rest
  | Some (integer, frac, exp, rest) => Scanned (JFloat (integer ++ frac ++ exp)) rest
  | None =>
      if starts_with (lit "NaN") (c :: t) then Scanned (JFloat (lit "NaN")) (skipn 3 (c :: t))
      else if starts_with (lit "Infinity") (c :: t)
      then Scanned (JFloat (lit "Infinity")) (skipn 8 (c :: t))
      else if starts_with (lit "-Infinity") (c :: t)
      then Scanned (JFloat (lit "-Infinity")) (skipn 9 (c :: t))
      else ScanError
  end.
Proof.
  intros H.
  assert (Hc : (c =? 34)%N = false /\ (c =? 123)%N = false /\ (c =? 91)%N = false
               /\ (110 =? c)%N = false /\ (116 =? c)%N = false /\ (102 =? c)%N = false).
  { destruct H as [->|H]; [repeat split; reflexivity|].
    unfold is_digit in H. apply andb_prop in H as [H1 H2].
    apply N.leb_le in H1, H2. repeat split; apply N.eqb_neq; lia. }
  destruct Hc as (H1 & H2 & H3 & H4 & H5 & H6).
  cbn [scan_once]. rewrite H1, H2, H3.
  change (starts_with (lit "null") (c :: t)) with ((110 =? c)%N && starts_with (lit "ull") t).
  change (starts_with (lit "true") (c :: t)) with ((116 =? c)%N && starts_with (lit "rue") t).
  change (starts_with (lit "false") (c :: t)) with ((102 =? c)%N && starts_with (lit "alse") t).
  rewrite H4, H5, H6. reflexivity.
Qed.

Section RoundTrip.
Context {R : Runtime}.

(** What [dumps] writes starts with a character that is not white space
    and closes nothing. *)
Lemma dumps_head (v : json) :
  plain v = true ->
  exists c t, dumps false v = c :: t /\ is_ws c = false
              /\ c <> 93%N /\ c <> 125%N.
Proof.
  destruct v as [| [|] | z | l | s | l | m]; cbn [plain]; intros H;
    try discriminate;
    try (cbn; eexists _, _; split; [reflexivity|repeat split; discriminate]).
  destruct (repr_int_head z) as (c & t & E & Hc). cbn [dumps]. rewrite E.
  exists c, t. split; [reflexivity|].
  destruct Hc as [->|Hc]; [repeat split; discriminate|].
  unfold is_digit in Hc. apply andb_prop in Hc as [H1 H2].
  apply N.leb_le in H1, H2. unfold is_ws.
  repeat split; try lia.
  repeat (apply orb_false_intro); apply N.eqb_neq; lia.
Qed.

Lemma skip_ws_dumps (v : json) (rest : str) :
  plain v = true -> skip_ws (dumps false v ++ rest) = dumps false v ++ rest.
Proof.
  intros H. destruct (dumps_head v H) as (c & t & E & Hws & _).
  rewrite E. cbn [app skip_ws]. now rewrite Hws.
Qed.
End RoundTrip.

Section ReadBack.
Context {R : Runtime}.

Lemma array_loop_S (f : nat) (s : str) :
  array_loop (S f) s =
  match scan_once f s with
  | Scanned v s1 =>
      match skip_ws s1 with
      | c :: t =>
          if (c =? 93)%N then Scanned [v] t
          else if (c =? 44)%N then
            match array_loop f (skip_ws t) with
            | Scanned vs rest => Scanned (v :: vs) rest
            | ScanError => ScanError
            | ScanDepth => ScanDepth
            end
          else ScanError
      | [] => ScanError
      end
  | ScanError => ScanError
  | ScanDepth => ScanDepth
  end.
Proof. reflexivity. Qed.

Lemma object_loop_S (f : nat) (s : str) :
  object_loop (S f) s =
  match scanstring s with
  | None => ScanError
  | Some (key, s1) =>
      match skip_ws s1 with
      | c :: s2 =>
          if (c =? 58)%N then
            match scan_once f (skip_ws s2) with
            | Scanned v s3 =>
                match skip_ws s3 with
                | c1 :: t =>
                    if (c1 =? 125)%N then Scanned [(key, v)] t
                    else if (c1 =? 44)%N then
                      match skip_ws t with
                      | c2 :: t2 =>
                          if (c2 =? 34)%N then
                            match object_loop f t2 with
                            | Scanned kvs rest => Scanned ((key, v) :: kvs) rest
                            | ScanError => ScanError
                            | ScanDepth => ScanDepth
                            end
                          else ScanError
                      | [] => ScanError
                      end
                    else ScanError
                | [] => ScanError
                end
            | ScanError => ScanError
            | ScanDepth => ScanDepth
            end
          else ScanError
      | [] => ScanError
      end
  end.
Proof. reflexivity. Qed.

Lemma skip_ws_other (c : N) (t : str) :
  is_ws c = false -> skip_ws (c :: t) = c :: t.
Proof. intros H. cbn [skip_ws]. now rewrite H. Qed.

Lemma skip_ws_space (t : str) : skip_ws (32%N :: t) = skip_ws t.
Proof. reflexivity. Qed.

Definition reads_back (v : json) : Prop :=
  forall f rest, fuel_of v <= f -> value_end rest = true ->
    scan_once f (dumps false v ++ rest) = Scanned v rest.

Lemma array_loop_dumps (l : list json) :
  l <> [] ->
  Forall reads_back l -> forallb plain l = true ->
  forall f rest,
    list_sum (map (fun x => S (fuel_of x)) l) <= f ->
    array_loop f (join (lit ", ") (map (dumps false) l) ++ 93%N :: rest)
    = Scanned l rest.
Proof.
  intros Hne HF. induction HF as [|x l Hx HF IH]; [contradiction|].
  intros Hp f rest Hf. cbn [forallb] in Hp. apply andb_prop in Hp as [Hpx Hpl].
  cbn [map] in Hf. change (list_sum (?a :: ?b)) with (a + list_sum b) in Hf.
  destruct f as [|f]; [lia|]. rewrite array_loop_S.
  destruct l as [|y l].
  - cbn [map join]. rewrite Hx; [reflexivity|lia|reflexivity].
  - change (join (lit ", ") (map (dumps false) (x :: y :: l)))
      with (dumps false x ++ 44%N :: 32%N :: join (lit ", ") (map (dumps false) (y :: l))).
    rewrite <- app_assoc. cbn [app].
    rewrite Hx; [|lia|reflexivity].
    rewrite (skip_ws_other 44) by reflexivity.
    change (44 =? 93)%N with false. change (44 =? 44)%N with true. cbv iota.
    rewrite skip_ws_space.
    assert (E : skip_ws (join (lit ", ") (map (dumps false) (y :: l)) ++ 93%N :: rest)
                = join (lit ", ") (map (dumps false) (y :: l)) ++ 93%N :: rest).
    { cbn [forallb] in Hpl. apply andb_prop in Hpl as [Hpy _].
      destruct l; cbn [map join]; rewrite <- ?app_assoc;
        apply skip_ws_dumps; assumption. }
    rewrite E, IH; [reflexivity|discriminate|assumption|lia].
Qed.

Definition dumps_item (kv : str * json) : str :=
  match kv with
  | (k, x) => dumps_str false k ++ lit ": " ++ dumps false x
  end.

Lemma dumps_item_eq (k : str) (x : json) (rest : str) :
  dumps_item (k, x) ++ rest
  = 34%N :: (tl (dumps_str false k) ++ 58%N :: 32%N :: dumps false x ++ rest).
Proof.
  unfold dumps_item, dumps_str. cbn [app tl lit lit_char].
  rewrite <- !app_assoc. reflexivity.
Qed.

Lemma object_loop_dumps (m : list (str * json)) :
  m <> [] ->
  Forall (fun kv => reads_back (snd kv)) m ->
  forallb (fun kv => match kv with (_, x) => plain x end) m = true ->
  forall f rest,
    list_sum (map (fun kv => match kv with (_, x) => S (fuel_of x) end) m) <= f ->
    object_loop f (tl (join (lit ", ") (map dumps_item m) ++ 125%N :: rest))
    = Scanned m rest.
Proof.
  intros Hne HF. induction HF as [|[k x] m Hx HF IH]; [contradiction|].
  intros Hp f rest Hf. cbn [forallb] in Hp. apply andb_prop in Hp as [Hpx Hpm].
  cbn [map] in Hf. change (list_sum (?a :: ?b)) with (a + list_sum b) in Hf.
  cbn [snd] in Hx.
  destruct f as [|f]; [lia|]. rewrite object_loop_S.
  destruct m as [|[k' y] m].
  - cbn [map join]. rewrite dumps_item_eq. cbn [tl].
    rewrite scanstring_dumps_str.
    rewrite (skip_ws_other 58) by reflexivity.
    change (58 =? 58)%N with true. cbv iota.
    rewrite skip_ws_space, skip_ws_dumps by assumption.
    rewrite Hx; [|lia|reflexivity].
    rewrite (skip_ws_other 125) by reflexivity. reflexivity.
  - change (join (lit ", ") (map dumps_item ((k, x) :: (k', y) :: m)))
      with (dumps_item (k, x) ++ 44%N :: 32%N
              :: join (lit ", ") (map dumps_item ((k', y) :: m))).
    rewrite <- app_assoc, dumps_item_eq. cbn [tl app].
    rewrite scanstring_dumps_str.
    rewrite (skip_ws_other 58) by reflexivity.
    change (58 =? 58)%N with true. cbv iota.
    rewrite skip_ws_space, skip_ws_dumps by assumption.
    rewrite Hx; [|lia|reflexivity].
    rewrite (skip_ws_other 44) by reflexivity.
    change (44 =? 125)%N with false. change (44 =? 44)%N with true. cbv iota.
    rewrite skip_ws_space.
    assert (E : exists t, join (lit ", ") (map dumps_item ((k', y) :: m)) ++ 125%N :: rest
                          = 34%N :: t).
    { destruct m as [|kv m]; cbn [map join]; rewrite <- ?app_assoc;
        rewrite dumps_item_eq; eexists; reflexivity. }
    destruct E as (t & E).
    specialize (IH ltac:(discriminate) Hpm f rest ltac:(lia)).
    rewrite E in IH |- *. cbn [tl] in IH.
    rewrite (skip_ws_other 34) by reflexivity.
    change (34 =? 34)%N with true. cbv iota.
    rewrite IH. reflexivity.
Qed.

Lemma Forall_forallb {A} (P : A -> Prop) (p : A -> bool) (l : list A) :
  Forall (fun x => p x = true -> P x) l -> forallb p l = true -> Forall P l.
Proof.
  induction 1 as [|x l H _ IH]; cbn [forallb]; intros Hp; constructor;
    apply andb_prop in Hp as [H1 H2]; auto.
Qed.

(** [scan_once] reads back the value that [dumps] wrote, whatever text of
    the enclosing value comes after it. *)
Lemma scan_once_dumps (v : json) : plain v = true -> reads_back v.
Proof.
  induction v as [| b | z | l | s | l IH | m IH] using json_ind';
    cbn [plain]; intros Hp f rest Hf Hend; try discriminate;
    (destruct f as [|f]; [cbn in Hf; lia|]).
  - reflexivity.
  - destruct b; reflexivity.
  - cbn [dumps]. destruct (repr_int_head z) as (c & t & E & Hc).
    rewrite E. cbn [app]. rewrite scan_once_number by assumption.
    change (c :: t ++ rest) with ((c :: t) ++ rest). rewrite <- E.
    rewrite match_number_repr_int by assumption.
    now rewrite parse_int_repr_int.
  - cbn [dumps]. change (dumps_str false s ++ rest)
      with (34%N :: (tl (dumps_str false s) ++ rest)).
    now rewrite scan_once_str, scanstring_dumps_str.
  - assert (HF : Forall reads_back l) by (eapply Forall_forallb; eauto).
    cbn [dumps app]. rewrite scan_once_list.
    cbn [fuel_of] in Hf.
    destruct l as [|x l].
    + reflexivity.
    + rewrite <- app_assoc. cbn [app].
      assert (E : exists c t,
                 join (lit ", ") (map (dumps false) (x :: l)) ++ 93%N :: rest = c :: t
                 /\ is_ws c = false /\ c <> 93%N).
      { cbn [forallb] in Hp. apply andb_prop in Hp as [Hpx _].
        destruct (dumps_head x Hpx) as (c & t & E & Hws & H93 & _).
        destruct l; cbn [map join]; rewrite <- ?app_assoc, E;
          eexists _, _; (split; [reflexivity|split; assumption]). }
      destruct E as (c & t & E & Hws & H93).
      pose proof (array_loop_dumps (x :: l) ltac:(discriminate) HF Hp f rest ltac:(lia)) as A.
      rewrite E in A |- *. rewrite skip_ws_other by assumption.
      destruct (N.eqb_spec c 93); [contradiction|]. now rewrite A.
  - apply andb_prop in Hp as [Hk Hp].
    assert (HF : Forall (fun kv => reads_back (snd kv)) m).
    { apply (Forall_forallb _ (fun kv => match kv with (_, x) => plain x end));
        [|assumption].
      eapply Forall_impl; [|exact IH]. intros [k x]; auto. }
    cbn [dumps app]. rewrite scan_once_dict.
    cbn [fuel_of] in Hf.
    destruct m as [|kv m].
    + reflexivity.
    + rewrite <- app_assoc. cbn [app].
      change (map (fun kv0 : str * json =>
                     let (k, x) := kv0 in dumps_str false k ++ lit ": " ++ dumps false x))
        with (map dumps_item).
      assert (E : exists t, join (lit ", ") (map dumps_item (kv :: m)) ++ 125%N :: rest
                            = 34%N :: t).
      { destruct kv as [k x].
        destruct m as [|kv' m]; cbn [map join]; rewrite <- ?app_assoc;
          rewrite dumps_item_eq; eexists; reflexivity. }
      destruct E as (t & E).
      pose proof (object_loop_dumps (kv :: m) ltac:(discriminate) HF Hp f rest ltac:(lia)) as A.
      rewrite E in A |- *. cbn [tl] in A.
      rewrite (skip_ws_other 34) by reflexivity.
      change (34 =? 125)%N with false. change (34 =? 34)%N with true. cbv iota.
      rewrite A, dict_of_pairs_distinct by assumption. reflexivity.
Qed.
End ReadBack.

Section LoadsDumps.
Context {R : Runtime}.

Lemma dumps_nonempty (v : json) :
  plain v = true -> 1 <= length (dumps false v).
Proof.
  intros H. destruct (dumps_head v H) as (c & t & E & _). rewrite E. cbn. lia.
Qed.

Lemma dumps_not_bom (v : json) :
  plain v = true -> starts_with [0xFEFF%N] (dumps false v) = false.
Proof.
  destruct v as [| [|] | z | l | s | l | m]; cbn [plain]; intros H;
    try discriminate; try reflexivity.
  destruct (repr_int_head z) as (c & t & E & Hc). cbn [dumps]. rewrite E.
  cbn [starts_with]. rewrite andb_true_r. apply N.eqb_neq.
  destruct Hc as [->|Hc]; [discriminate|].
  unfold is_digit in Hc. apply andb_prop in Hc as [H1 H2].
  apply N.leb_le in H1, H2. lia.
Qed.

Lemma fuel_of_join (sep : str) (l : list json) (d : json -> str) :
  1 <= length sep ->
  Forall (fun x => fuel_of x <= 2 * length (d x)) l ->
  list_sum (map (fun x => S (fuel_of x)) l) <= 2 * length (join sep (map d l)) + 1.
Proof.
  intros Hsep. induction 1 as [|x l Hx _ IH]; [cbn; lia|].
  cbn [map]. change (list_sum (?a :: ?b)) with (a + list_sum b).
  destruct l as [|y l]; [cbn in *; lia|].
  change (join sep (d x :: map d (y :: l))) with (d x ++ sep ++ join sep (map d (y :: l))).
  rewrite !length_app. lia.
Qed.

Lemma fuel_of_dumps (v : json) :
  plain v = true -> fuel_of v <= 2 * length (dumps false v).
Proof.
  induction v as [| b | z | l | s | l IH | m IH] using json_ind';
    intros Hp; try discriminate;
    try (pose proof (dumps_nonempty _ Hp); cbn [fuel_of]; lia).
  - cbn [plain] in Hp. cbn [fuel_of dumps].
    assert (HF : Forall (fun x => fuel_of x <= 2 * length (dumps false x)) l)
      by (eapply Forall_forallb; eauto).
    pose proof (fuel_of_join (lit ", ") l (dumps false) ltac:(cbn; lia) HF).
    rewrite !length_app. cbn [length]. lia.
  - cbn [plain] in Hp. apply andb_prop in Hp as [_ Hp].
    cbn [fuel_of dumps].
    assert (HF : Forall (fun kv : str * json =>
                           fuel_of (snd kv) <= 2 * length (dumps_item kv)) m).
    { assert (HF : Forall (fun kv : str * json =>
                             fuel_of (snd kv) <= 2 * length (dumps false (snd kv))) m).
      { apply (Forall_forallb _ (fun kv => match kv with (_, x) => plain x end));
          [|assumption].
        eapply Forall_impl; [|exact IH]. intros [k x]; auto. }
      eapply Forall_impl; [|exact HF]. intros [k x]. unfold dumps_item.
      rewrite !length_app. cbn [snd]. lia. }
    assert (HS : list_sum (map (fun kv : str * json => let (_, x) := kv in S (fuel_of x)) m)
                 <= 2 * length (join (lit ", ") (map dumps_item m)) + 1).
    { clear -HF. induction HF as [|[k x] m Hx _ IH]; [cbn; lia|].
      cbn [map snd] in *. change (list_sum (?a :: ?b)) with (a + list_sum b).
      destruct m as [|y m]; [cbn [map join]; change (list_sum []) with 0; lia|].
      change (join (lit ", ") (dumps_item (k, x) :: map dumps_item (y :: m)))
        with (dumps_item (k, x) ++ lit ", " ++ join (lit ", ") (map dumps_item (y :: m))).
      rewrite !length_app. change (length (lit ", ")) with 2. cbn [map] in *. lia. }
    change (map (fun kv : str * json =>
                   let (k, x) := kv in dumps_str false k ++ lit ": " ++ dumps false x))
      with (map dumps_item).
    rewrite !length_app. cbn [length]. lia.
Qed.

(** [json.loads(json.dumps(v, ensure_ascii=False)) == v]. *)
Lemma loads_dumps (v : json) :
  plain v = true -> loads (dumps false v) = Some v.
Proof.
  intros Hp. unfold loads. rewrite dumps_not_bom by assumption.
  pose proof (fuel_of_dumps v Hp) as Hf.
  rewrite <- (List.app_nil_r (dumps false v)).
  rewrite skip_ws_dumps by assumption.
  rewrite (scan_once_dumps v Hp); [reflexivity| |reflexivity].
  rewrite List.app_nil_r. lia.
Qed.
End LoadsDumps.

(** *** The recursion budget of [loads] is never used up *)

Lemma skip_ws_length (s : str) : length (skip_ws s) <= length s.
Proof.
  induction s as [|c t IH]; cbn [skip_ws]; [lia|].
  destruct (is_ws c); cbn [length]; lia.
Qed.

Lemma skip_ws_cons_length (s : str) (c : N) (t : str) :
  skip_ws s = c :: t -> length t < length s.
Proof.
  intros E. pose proof (skip_ws_length s) as H. rewrite E in H. cbn [length] in H. lia.
Qed.

Lemma scanstring_length (n : nat) :
  forall s x rest, length s <= n -> scanstring s = Some (x, rest) -> length rest < length s.
Proof.
  induction n as [|n IH]; intros s x rest Hn H.
  - destruct s; [discriminate H|cbn [length] in Hn; lia].
  - assert (K : forall t c r, length t <= n ->
               match scanstring t with
               | Some (x0, rest0) => Some (c :: x0, rest0)
               | None => None
               end = Some (x, r) -> length r < length t).
    { intros t c r Ht E. destruct (scanstring t) as [[x0 r0]|] eqn:Es; [|discriminate].
      injection E as _ <-. eapply IH; eauto. }
    destruct s as [|c t]; [discriminate H|]. cbn [length] in Hn.
    cbn [scanstring] in H.
    destruct (c =? 34)%N; [injection H as _ <-; cbn [length]; lia|].
    destruct (c =? 92)%N.
    2:{ destruct (c <? 32)%N; [discriminate H|].
        apply K in H; cbn [length]; lia. }
    destruct t as [|e t1]; [discriminate H|]. cbn [length] in Hn.
    destruct (e =? 117)%N.
    2:{ destruct (backslash e); [|discriminate H].
        apply K in H; cbn [length]; lia. }
    destruct t1 as [|h1 [|h2 [|h3 [|h4 t5]]]]; try discriminate H.
    cbn [length] in Hn.
    destruct (hex4 h1 h2 h3 h4) as [uni|]; [|discriminate H].
    assert (K5 : forall c r,
               match scanstring t5 with
               | Some (x0, rest0) => Some (c :: x0, rest0)
               | None => None
               end = Some (x, r) -> length r < length t5).
    { intros c0 r E. apply K in E; lia. }
    destruct ((55296 <=? uni) && (uni <=? 56319))%N; [|apply K5 in H; cbn [length] in *; lia].
    destruct t5 as [|b [|u t7]]; try (apply K5 in H; cbn [length] in *; lia).
    destruct ((b =? 92) && (u =? 117))%N; [|apply K5 in H; cbn [length] in *; lia].
    destruct t7 as [|g1 [|g2 [|g3 [|g4 t11]]]]; try discriminate H.
    destruct (hex4 g1 g2 g3 g4) as [uni2|]; [|discriminate H].
    destruct ((56320 <=? uni2) && (uni2 <=? 57343))%N; [|apply K5 in H; cbn [length] in *; lia].
    cbn [length] in *. apply K in H; lia.
Qed.

Lemma span_digits_length (s : str) :
  length (snd (span_digits s)) <= length s.
Proof.
  induction s as [|c t IH]; cbn [span_digits]; [cbn; lia|].
  destruct (is_digit c); [|cbn; lia].
  destruct (span_digits t) as [d r]. cbn [snd length] in *. lia.
Qed.

Lemma int_group_length (s i r : str) :
  int_group s = Some (i, r) -> length r < length s.
Proof.
  unfold int_group. intros H.
  destruct s as [|c t]; [discriminate H|].
  assert (K : forall sign s1, length s1 <= length (c :: t) ->
            match s1 with
            | c :: t =>
                if (c =? 48)%N then Some (sign ++ [c], t)
                else if is_digit c then
                  let (d, r) := span_digits t in Some (sign ++ c :: d, r)
                else None
            | [] => None
            end = Some (i, r) -> length r < length (c :: t)).
  { intros sign [|c1 t1] L E; [discriminate E|]. cbn [length] in *.
    destruct (c1 =? 48)%N; [injection E as _ <-; lia|].
    destruct (is_digit c1); [|discriminate E].
    pose proof (span_digits_length t1) as L1.
    destruct (span_digits t1) as [d r1]. injection E as _ <-.
    cbn [snd] in L1. lia. }
  destruct (c =? 45)%N;
    [apply (K [45%N] t) in H|apply (K [] (c :: t)) in H]; cbn [length] in *; lia.
Qed.

Lemma frac_group_length (s : str) : length (snd (frac_group s)) <= length s.
Proof.
  unfold frac_group. destruct s as [|c t]; [cbn; lia|].
  destruct (c =? 46)%N; [|cbn; lia].
  pose proof (span_digits_length t) as L.
  destruct (span_digits t) as [[|d0 d] r]; cbn [snd length] in *; lia.
Qed.

Lemma exp_group_length (s : str) : length (snd (exp_group s)) <= length s.
Proof.
  unfold exp_group. destruct s as [|c t]; [cbn; lia|].
  destruct ((c =? 101) || (c =? 69))%N; [|cbn; lia].
  destruct t as [|g t'].
  - cbn. lia.
  - destruct ((g =? 45) || (g =? 43))%N.
    + pose proof (span_digits_length t') as L.
      destruct (span_digits t') as [[|d0 d] r]; cbn [snd length] in *; lia.
    + pose proof (span_digits_length (g :: t')) as L.
      destruct (span_digits (g :: t')) as [[|d0 d] r]; cbn [snd length] in *; lia.
Qed.

Lemma match_number_length (s i fr ex rest : str) :
  match_number s = Some (i, fr, ex, rest) -> length rest < length s.
Proof.
  unfold match_number. intros H.
  destruct (int_group s) as [[i0 s2]|] eqn:Ei; [|discriminate H].
  apply int_group_length in Ei.
  pose proof (frac_group_length s2) as Lf.
  destruct (frac_group s2) as [f0 s3].
  pose proof (exp_group_length s3) as Le.
  destruct (exp_group s3) as [e0 s4].
  injection H as _ _ _ <-. cbn [snd] in *. lia.
Qed.

(** What remains after a scan is shorter than what was scanned, and a
    budget of twice the length of the text (and two) is never used up. *)
Definition scan_within {A} (r : scan A) (s : str) : Prop :=
  match r with
  | Scanned _ rest => length rest < length s
  | ScanError => True
  | ScanDepth => False
  end.

Lemma scan_budget (f : nat) :
  (forall s, 2 * length s + 1 <= f -> scan_within (scan_once f s) s)
  /\ (forall s, 2 * length s + 2 <= f -> scan_within (array_loop f s) s)
  /\ (forall s, 2 * length s + 2 <= f -> scan_within (object_loop f s) s).
Proof.
  induction f as [|f (IHs & IHa & IHo)].
  { repeat split; intros s H; lia. }
  split; [|split]; intros s Hf.
  - destruct s as [|c t]; [exact I|]. cbn [length] in Hf. cbn [scan_once].
    destruct (c =? 34)%N.
    { destruct (scanstring t) as [[x rest]|] eqn:E; [|exact I].
      apply (scanstring_length (length t)) in E; [|lia]. cbn [scan_within length]. lia. }
    destruct (c =? 123)%N.
    { destruct (skip_ws t) as [|c1 t1] eqn:E; [exact I|].
      apply skip_ws_cons_length in E.
      destruct (c1 =? 125)%N; [cbn [scan_within length]; lia|].
      destruct (c1 =? 34)%N; [|exact I].
      specialize (IHo t1 ltac:(lia)).
      destruct (object_loop f t1); cbn [scan_within length] in *; (lia || exact I || contradiction). }
    destruct (c =? 91)%N.
    { destruct (skip_ws t) as [|c1 t1] eqn:E; [exact I|].
      pose proof (skip_ws_length t) as L. rewrite E in L.
      destruct (c1 =? 93)%N; [cbn [scan_within length] in *; lia|].
      specialize (IHa (c1 :: t1) ltac:(lia)).
      destruct (array_loop f (c1 :: t1)); cbn [scan_within length] in *; (lia || exact I || contradiction). }
    destruct (starts_with (lit "null") (c :: t));
      [cbn [scan_within]; rewrite length_skipn; cbn [length]; lia|].
    destruct (starts_with (lit "true") (c :: t));
      [cbn [scan_within]; rewrite length_skipn; cbn [length]; lia|].
    destruct (starts_with (lit "false") (c :: t));
      [cbn [scan_within]; rewrite length_skipn; cbn [length]; lia|].
    destruct (match_number (c :: t)) as [[[[i fr] ex] rest]|] eqn:E.
    { apply match_number_length in E.
      destruct fr; [destruct ex|]; exact E. }
    destruct (starts_with (lit "NaN") (c :: t));
      [cbn [scan_within]; rewrite length_skipn; cbn [length]; lia|].
    destruct (starts_with (lit "Infinity") (c :: t));
      [cbn [scan_within]; rewrite length_skipn; cbn [length]; lia|].
    destruct (starts_with (lit "-Infinity") (c :: t));
      [cbn [scan_within]; rewrite length_skipn; cbn [length]; lia|].
    exact I.
  - cbn [array_loop]. specialize (IHs s ltac:(lia)).
    destruct (scan_once f s) as [v s1| |]; [|exact I|contradiction].
    cbn [scan_within] in IHs.
    destruct (skip_ws s1) as [|c t] eqn:E; [exact I|].
    apply skip_ws_cons_length in E.
    destruct (c =? 93)%N; [cbn [scan_within]; lia|].
    destruct (c =? 44)%N; [|exact I].
    pose proof (skip_ws_length t) as L.
    specialize (IHa (skip_ws t) ltac:(lia)).
    destruct (array_loop f (skip_ws t)); cbn [scan_within] in *; (lia || exact I || contradiction).
  - cbn [object_loop].
    destruct (scanstring s) as [[key s1]|] eqn:Ek; [|exact I].
    apply (scanstring_length (length s)) in Ek; [|lia].
    destruct (skip_ws s1) as [|c s2] eqn:E; [exact I|].
    apply skip_ws_cons_length in E.
    destruct (c =? 58)%N; [|exact I].
    pose proof (skip_ws_length s2) as L2.
    specialize (IHs (skip_ws s2) ltac:(lia)).
    destruct (scan_once f (skip_ws s2)) as [v s3| |]; [|exact I|contradiction].
    cbn [scan_within] in IHs.
    destruct (skip_ws s3) as [|c1 t] eqn:E3; [exact I|].
    apply skip_ws_cons_length in E3.
    destruct (c1 =? 125)%N; [cbn [scan_within]; lia|].
    destruct (c1 =? 44)%N; [|exact I].
    destruct (skip_ws t) as [|c2 t2] eqn:E4; [exact I|].
    apply skip_ws_cons_length in E4.
    destruct (c2 =? 34)%N; [|exact I].
    specialize (IHo t2 ltac:(lia)).
    destruct (object_loop f t2); cbn [scan_within] in *; (lia || exact I || contradiction).
Qed.

(** [loads] never stops for want of budget: what it rejects, the scanner
    rejected. *)
Lemma scan_once_budget (s : str) :
  scan_once (2 * length s + 2) (skip_ws s) <> ScanDepth.
Proof.
  pose proof (skip_ws_length s) as L.
  destruct (scan_budget (2 * length s + 2)) as (H & _).
  specialize (H (skip_ws s) ltac:(lia)).
  intros E. rewrite E in H. exact H.
Qed.

End Json.

Import Json.

(* ================================================================== *)
(** ** class Message *)
(* ================================================================== *)

Module Msg.

(** The result of a call: a value, or the exception it raised. *)
Inductive result (A : Type) :=
  | Ok (a : A)
  | Raise (e : exn).
Arguments Ok {A} a.
Arguments Raise {A} e.

(** A message body: a decoded JSON value or raw bytes.  Python's [None] is
    [CJson JNull]. *)
Inductive content :=
  | CJson (j : json)
  | CBytes (b : bytes).

Definition is_None (c : content) : bool :=
  match c with
  | CJson JNull => true
  | _ => false
  end.

(** [self.request]: the dict with the keys "content", "type", "encoding". *)
Record Request := {
  req_content : content;
  req_type : str;
  req_encoding : str
}.

(** selectors.EVENT_READ and selectors.EVENT_WRITE. *)
Definition EVENT_READ : Z := 1.
Definition EVENT_WRITE : Z := 2.

(** One connection: the fields of the object, and with them the two things
    it shares with the event loop, the registration of its socket with the
    selector and the socket itself. *)
Record Message := {
  sel_events : option Z;       (* the events the selector watches the socket for;
                                  None: the socket is not registered *)
  sock_closed : bool;          (* close() was called on the socket *)
  sock_sent : bytes;           (* what the socket has accepted from send() *)
  sock : bool;                 (* self.sock; false: None *)
  request : Request;
  _recv_buffer : bytes;
  _send_buffer : bytes;
  _request_queued : bool;
  _jsonheader_len : option Z;
  jsonheader : json;           (* JNull: None *)
  response : content           (* CJson JNull: None *)
}.

(** [Message(selector, sock, addr, request)], its socket registered for
    [events]. *)
Definition init (events : Z) (request : Request) : Message := {|
  sel_events := Some events;
  sock_closed := false;
  sock_sent := [];
  sock := true;
  request := request;
  _recv_buffer := [];
  _send_buffer := [];
  _request_queued := false;
  _jsonheader_len := None;
  jsonheader := JNull;
  response := CJson JNull
|}.

Definition set_sel_events (v : option Z) (m : Message) : Message :=
  {| sel_events := v; sock_closed := sock_closed m; sock_sent := sock_sent m;
     sock := sock m; request := request m; _recv_buffer := _recv_buffer m;
     _send_buffer := _send_buffer m; _request_queued := _request_queued m;
     _jsonheader_len := _jsonheader_len m; jsonheader := jsonheader m;
     response := response m |}.

Definition set_sock_closed (v : bool) (m : Message) : Message :=
  {| sel_events := sel_events m; sock_closed := v; sock_sent := sock_sent m;
     sock := sock m; request := request m; _recv_buffer := _recv_buffer m;
     _send_buffer := _send_buffer m; _request_queued := _request_queued m;
     _jsonheader_len := _jsonheader_len m; jsonheader := jsonheader m;
     response := response m |}.

Definition set_sock_sent (v : bytes) (m : Message) : Message :=
  {| sel_events := sel_events m; sock_closed := sock_closed m; sock_sent := v;
     sock := sock m; request := request m; _recv_buffer := _recv_buffer m;
     _send_buffer := _send_buffer m; _request_queued := _request_queued m;
     _jsonheader_len := _jsonheader_len m; jsonheader := jsonheader m;
     response := response m |}.

Definition set_sock (v : bool) (m : Message) : Message :=
  {| sel_events := sel_events m; sock_closed := sock_closed m; sock_sent := sock_sent m;
     sock := v; request := request m; _recv_buffer := _recv_buffer m;
     _send_buffer := _send_buffer m; _request_queued := _request_queued m;
     _jsonheader_len := _jsonheader_len m; jsonheader := jsonheader m;
     response := response m |}.

Definition set_recv_buffer (v : bytes) (m : Message) : Message :=
  {| sel_events := sel_events m; sock_closed := sock_closed m; sock_sent := sock_sent m;
     sock := sock m; request := request m; _recv_buffer := v;
     _send_buffer := _send_buffer m; _request_queued := _request_queued m;
     _jsonheader_len := _jsonheader_len m; jsonheader := jsonheader m;
     response := response m |}.

Definition set_send_buffer (v : bytes) (m : Message) : Message :=
  {| sel_events := sel_events m; sock_closed := sock_closed m; sock_sent := sock_sent m;
     sock := sock m; request := request m; _recv_buffer := _recv_buffer m;
     _send_buffer := v; _request_queued := _request_queued m;
     _jsonheader_len := _jsonheader_len m; jsonheader := jsonheader m;
     response := response m |}.

Definition set_request_queued (v : bool) (m : Message) : Message :=
  {| sel_events := sel_events m; sock_closed := sock_closed m; sock_sent := sock_sent m;
     sock := sock m; request := request m; _recv_buffer := _recv_buffer m;
     _send_buffer := _send_buffer m; _request_queued := v;
     _jsonheader_len := _jsonheader_len m; jsonheader := jsonheader m;
     response := response m |}.

Definition set_jsonheader_len (v : option Z) (m : Message) : Message :=
  {| sel_events := sel_events m; sock_closed := sock_closed m; sock_sent := sock_sent m;
     sock := sock m; request := request m; _recv_buffer := _recv_buffer m;
     _send_buffer := _send_buffer m; _request_queued := _request_queued m;
     _jsonheader_len := v; jsonheader := jsonheader m;
     response := response m |}.

Definition set_jsonheader (v : json) (m : Message) : Message :=
  {| sel_events := sel_events m; sock_closed := sock_closed m; sock_sent := sock_sent m;
     sock := sock m; request := request m; _recv_buffer := _recv_buffer m;
     _send_buffer := _send_buffer m; _request_queued := _request_queued m;
     _jsonheader_len := _jsonheader_len m; jsonheader := v;
     response := response m |}.

Definition set_response (v : content) (m : Message) : Message :=
  {| sel_events := sel_events m; sock_closed := sock_closed m; sock_sent := sock_sent m;
     sock := sock m; request := request m; _recv_buffer := _recv_buffer m;
     _send_buffer := _send_buffer m; _request_queued := _request_queued m;
     _jsonheader_len := _jsonheader_len m; jsonheader := jsonheader m;
     response := v |}.

(** *** Methods as state transformers that may raise *)

Definition M (A : Type) : Type := Message -> Message * result A.

Definition ret {A} (a : A) : M A := fun m => (m, Ok a).

Definition raise {A} (e : exn) : M A := fun m => (m, Raise e).

Definition bind {A B} (c : M A) (k : A -> M B) : M B :=
  fun m =>
    match c m with
    | (m', Ok a) => k a m'
    | (m', Raise e) => (m', Raise e)
    end.

Definition lift {A} (r : result A) : M A := fun m => (m, r).

Definition get {A} (f : Message -> A) : M A := fun m => (m, Ok (f m)).

Definition update (f : Message -> Message) : M unit := fun m => (f m, Ok tt).

Notation "x <- c ;; k" := (bind c (fun x => k))
  (at level 61, c at next level, right associativity).
Notation "c ;; k" := (bind c (fun _ => k))
  (at level 61, right associativity).

Definition error {A} (c : exn_class) (msg : string) : M A := raise (Exc c (raw msg)).

(** *** Helpers that touch no field *)

Section Pure.
Context {R : Runtime}.

(** [codecs.lookup]: utf-8 under its canonical name is built in, every other
    name is the runtime's. *)
Definition lookup (name : str) : option Codec :=
  if str_eqb name (lit "utf-8") then Some utf8 else codecs_lookup name.

Definition encode_with (encoding : str) (s : str) : result bytes :=
  match lookup encoding with
  | None => Raise (Exc LookupError (raw "unknown encoding: " ++ encoding))
  | Some c =>
      match codec_encode c s with
      | Some b => Ok b
      | None => Raise (Exc UnicodeEncodeError (raw "codec can't encode character"))
      end
  end.

(** [json.dumps(obj, ensure_ascii=False).encode(encoding)] *)
Definition _json_encode (obj : content) (encoding : str) : result bytes :=
  match obj with
  | CBytes _ =>
      Raise (Exc TypeError (raw "Object of type bytes is not JSON serializable"))
  | CJson j => encode_with encoding (dumps false j)
  end.

(** [io.TextIOWrapper(io.BytesIO(json_bytes), encoding=encoding, newline="")]
    and [json.load] on it.  The encoding comes from a header and may be any
    JSON value: only a str names a codec ([None], the locale's encoding, is
    taken to be utf-8). *)
Definition _json_decode (json_bytes : bytes) (encoding : json) : result json :=
  let decode_as name :=
    match lookup name with
    | None => Raise (Exc LookupError (raw "unknown encoding: " ++ name))
    | Some c =>
        match codec_decode c json_bytes with
        | None => Raise (Exc UnicodeDecodeError (raw "codec can't decode bytes"))
        | Some text =>
            match loads text with
            | Some obj => Ok obj
            | None => Raise (Exc JSONDecodeError (raw "Expecting value"))
            end
        end
    end in
  match encoding with
  | JStr name => decode_as name
  | JNull => decode_as (lit "utf-8")
  | _ => Raise (Exc TypeError (raw "TextIOWrapper() argument 'encoding' must be str or None"))
  end.

(** [struct.pack(">H", n)] *)
Definition pack_H (n : nat) : result bytes :=
  if (N.of_nat n <=? 65535)%N
  then Ok [Utf8.byte_of_N (N.of_nat n / 256); Utf8.byte_of_N (N.of_nat n mod 256)]
  else Raise (Exc StructError (raw "'H' format requires 0 <= number <= 65535")).

(** [struct.unpack(">H", b)[0]] on two bytes. *)
Definition unpack_H (b0 b1 : byte) : Z :=
  Z.of_N (Byte.to_N b0 * 256 + Byte.to_N b1).

(** [len(x)] of a message body. *)
Definition content_len (c : content) : result nat :=
  match c with
  | CBytes b => Ok (length b)
  | CJson (JStr s) => Ok (length s)
  | CJson (JList l) => Ok (length l)
  | CJson (JDict m) => Ok (length m)
  | CJson _ => Raise (Exc TypeError (raw "object has no len()"))
  end.

Definition or_raise {A B} (r : result A) (k : A -> result B) : result B :=
  match r with
  | Ok a => k a
  | Raise e => Raise e
  end.

Definition _create_message (content_bytes : content)
    (content_type content_encoding : str) : result bytes :=
  or_raise (content_len content_bytes) (fun n =>
  let jsonheader :=
    JDict [(lit "byteorder", JStr (byteorder_name sys_byteorder));
           (lit "content-type", JStr content_type);
           (lit "content-encoding", JStr content_encoding);
           (lit "content-length", JInt (Z.of_nat n))] in
  or_raise (_json_encode (CJson jsonheader) (lit "utf-8")) (fun jsonheader_bytes =>
  or_raise (pack_H (length jsonheader_bytes)) (fun message_hdr =>
  match content_bytes with
  | CBytes b => Ok (message_hdr ++ jsonheader_bytes ++ b)
  | CJson _ => Raise (Exc TypeError (raw "can't concat to bytes"))
  end))).

(** [key in obj] *)
Definition py_in (key : str) (obj : json) : result bool :=
  match obj with
  | JDict m => Ok (match dict_get m key with Some _ => true | None => false end)
  | JList l =>
      Ok (existsb (fun x => match x with JStr s => str_eqb s key | _ => false end) l)
  | JStr s => Ok (str_contains key s)
  | _ => Raise (Exc TypeError (raw "argument is not iterable"))
  end.

(** [obj[key]] for a str key. *)
Definition py_getitem (obj : json) (key : str) : result json :=
  match obj with
  | JDict m =>
      match dict_get m key with
      | Some v => Ok v
      | None => Raise (Exc KeyError key)
      end
  | JList _ => Raise (Exc TypeError (raw "list indices must be integers or slices, not str"))
  | JStr _ => Raise (Exc TypeError (raw "string indices must be integers, not 'str'"))
  | _ => Raise (Exc TypeError (raw "object is not subscriptable"))
  end.

(** [bool(obj)] *)
Definition truthy (obj : json) : bool :=
  match obj with
  | JNull => false
  | JBool b => b
  | JInt z => negb (z =? 0)%Z
  | JFloat l => float_bool l
  | JStr s => negb (match s with [] => true | _ => false end)
  | JList l => negb (match l with [] => true | _ => false end)
  | JDict m => negb (match m with [] => true | _ => false end)
  end.

(** [n >= x] for an int [n]. *)
Definition int_ge (n : Z) (x : json) : result bool :=
  match x with
  | JInt z => Ok (z <=? n)%Z
  | JBool b => Ok ((if b then 1 else 0) <=? n)%Z
  | JFloat l => Ok (int_ge_float n l)
  | _ => Raise (Exc TypeError (raw "'>=' not supported between instances"))
  end.

(** The integer a slice bound stands for. *)
Definition py_index (x : json) : result Z :=
  match x with
  | JInt z => Ok z
  | JBool b => Ok (if b then 1 else 0)%Z
  | _ => Raise (Exc TypeError (raw "slice indices must be integers or None"))
  end.

(** [x == s] for a str [s]. *)
Definition eq_str (x : json) (s : str) : bool :=
  match x with
  | JStr t => str_eqb t s
  | _ => false
  end.
End Pure.

(** *** The methods *)

Section Methods.
Context {R : Runtime}.

(** [self.selector.modify(self.sock, events, data=self)] *)
Definition selector_modify (events : Z) : M unit :=
  fun m =>
    if negb (sock m) then (m, Raise (Exc ValueError (raw "Invalid file object: None")))
    else
      match sel_events m with
      | None => (m, Raise (Exc KeyError (raw "socket is not registered")))
      | Some _ => (set_sel_events (Some events) m, Ok tt)
      end.

Definition _set_selector_events_mask (mode : str) : M unit :=
  events <- (if str_eqb mode (lit "r") then ret EVENT_READ
             else if str_eqb mode (lit "w") then ret EVENT_WRITE
             else if str_eqb mode (lit "rw") then ret (Z.lor EVENT_READ EVENT_WRITE)
             else raise (Exc ValueError
                           (raw "Invalid events mask mode '" ++ mode ++ raw "'."))) ;;
  selector_modify events.

(** [_read]; [recv] is what [self.sock.recv(4096)] does at this call. *)
Definition _read (recv : result bytes) : M unit :=
  s <- get sock ;;
  if negb s then error AttributeError "'NoneType' object has no attribute 'recv'"
  else
    match recv with
    | Raise e =>
        match exn_class_of e with
        | BlockingIOError => ret tt
        | _ => raise e
        end
    | Ok data =>
        match data with
        | [] => error RuntimeError "Peer closed."
        | _ :: _ => update (fun m => set_recv_buffer (_recv_buffer m ++ data) m)
        end
    end.

(** [_write]; [send] is what [self.sock.send(self._send_buffer)] does at
    this call: the number of bytes the socket took, or an exception. *)
Definition _write (send : result nat) : M unit :=
  buf <- get _send_buffer ;;
  match buf with
  | [] => ret tt
  | _ :: _ =>
      s <- get sock ;;
      if negb s then error AttributeError "'NoneType' object has no attribute 'send'"
      else
        match send with
        | Raise e =>
            match exn_class_of e with
            | BlockingIOError => ret tt
            | _ => raise e
            end
        | Ok sent =>
            update (fun m => set_sock_sent (sock_sent m ++ firstn sent buf) m) ;;
            update (set_send_buffer (skipn sent buf))
        end
  end.

Definition _process_response_json_content : M unit :=
  content <- get response ;;
  match content with
  | CJson (JDict _) => ret tt
  | _ => error AttributeError "object has no attribute 'get'"
  end.

Definition _process_response_binary_content : M unit := ret tt.

Definition close : M unit :=
  s <- get sock ;;
  (* try: self.selector.unregister(self.sock) / except Exception: print *)
  update (fun m => if sock m then set_sel_events None m else m) ;;
  (* try: self.sock.close() / except OSError: print / finally: self.sock = None *)
  if s then
    update (set_sock_closed true) ;;
    update (set_sock false)
  else
    update (set_sock false) ;;
    error AttributeError "'NoneType' object has no attribute 'close'".

Definition queue_request : M unit :=
  req <- get request ;;
  let content := req_content req in
  let content_type := req_type req in
  let content_encoding := req_encoding req in
  content_bytes <-
    (if str_eqb content_type (lit "text/json")
     then b <- lift (_json_encode content content_encoding) ;; ret (CBytes b)
     else ret content) ;;
  message <- lift (_create_message content_bytes content_type content_encoding) ;;
  update (fun m => set_send_buffer (_send_buffer m ++ message) m) ;;
  update (set_request_queued true).

Definition process_protoheader : M unit :=
  buf <- get _recv_buffer ;;
  match buf with
  | b0 :: b1 :: rest =>
      update (set_jsonheader_len (Some (unpack_H b0 b1))) ;;
      update (set_recv_buffer rest)
  | _ => ret tt
  end.

Definition required_headers : list str :=
  [lit "byteorder"; lit "content-length"; lit "content-type"; lit "content-encoding"].

Fixpoint check_headers (names : list str) : M unit :=
  match names with
  | [] => ret tt
  | reqhdr :: rest =>
      hdr <- get jsonheader ;;
      present <- lift (py_in reqhdr hdr) ;;
      if present then check_headers rest
      else raise (Exc ValueError (lit "Missing required header '" ++ reqhdr ++ lit "'."))
  end.

Definition process_jsonheader : M unit :=
  len <- get _jsonheader_len ;;
  match len with
  | None => error TypeError "'>=' not supported between instances of 'int' and 'NoneType'"
  | Some hdrlen =>
      buf <- get _recv_buffer ;;
      if (hdrlen <=? Z.of_nat (length buf))%Z then
        hdr <- lift (_json_decode (slice_to buf hdrlen) (JStr (lit "utf-8"))) ;;
        update (set_jsonheader hdr) ;;
        update (set_recv_buffer (slice_from buf hdrlen)) ;;
        check_headers required_headers
      else ret tt
  end.

Definition process_response : M unit :=
  hdr <- get jsonheader ;;
  content_len <- lift (py_getitem hdr (lit "content-length")) ;;
  buf <- get _recv_buffer ;;
  enough <- lift (int_ge (Z.of_nat (length buf)) content_len) ;;
  if negb enough then ret tt
  else
    n <- lift (py_index content_len) ;;
    let data := slice_to buf n in
    update (set_recv_buffer (slice_from buf n)) ;;
    content_type <- lift (py_getitem hdr (lit "content-type")) ;;
    (if eq_str content_type (lit "text/json") then
       encoding <- lift (py_getitem hdr (lit "content-encoding")) ;;
       obj <- lift (_json_decode data encoding) ;;
       update (set_response (CJson obj)) ;;
       _process_response_json_content
     else
       update (set_response (CBytes data)) ;;
       _process_response_binary_content) ;;
    (* Close when response has been processed *)
    close.

(** The three steps [read] tries after [_read], each behind its own test. *)
Definition protoheader_step : M unit :=
  len <- get _jsonheader_len ;;
  match len with
  | None => process_protoheader
  | Some _ => ret tt
  end.

Definition jsonheader_step : M unit :=
  len <- get _jsonheader_len ;;
  match len with
  | Some _ =>
      hdr <- get jsonheader ;;
      match hdr with
      | JNull => process_jsonheader
      | _ => ret tt
      end
  | None => ret tt
  end.

Definition response_step : M unit :=
  hdr <- get jsonheader ;;
  if truthy hdr then
    resp <- get response ;;
    if is_None resp then process_response else ret tt
  else ret tt.

Definition read (recv : result bytes) : M unit :=
  _read recv ;;
  protoheader_step ;;
  jsonheader_step ;;
  response_step.

Definition write (send : result nat) : M unit :=
  queued <- get _request_queued ;;
  (if negb queued then queue_request else ret tt) ;;
  _write send ;;
  queued <- get _request_queued ;;
  if queued then
    buf <- get _send_buffer ;;
    match buf with
    | [] =>
        (* Set selector to listen for read events, we're done writing. *)
        _set_selector_events_mask (lit "r")
    | _ :: _ => ret tt
    end
  else ret tt.

Definition process_events (mask : Z) (recv : result bytes) (send : result nat) : M unit :=
  (if negb (Z.land mask EVENT_READ =? 0)%Z then read recv else ret tt) ;;
  (if negb (Z.land mask EVENT_WRITE =? 0)%Z then write send else ret tt).

(** The read events of a connection, one [recv] result each; the first
    exception ends the run, as it ends the caller's loop. *)
Fixpoint reads (recvs : list (result bytes)) : M unit :=
  match recvs with
  | [] => ret tt
  | r :: rest => read r ;; reads rest
  end.

(** The frame a fresh connection queues for [request]: what [queue_request]
    leaves in the send buffer. *)
Definition encode_frame (request : Request) : result bytes :=
  match queue_request (init EVENT_WRITE request) with
  | (m, Ok _) => Ok (_send_buffer m)
  | (_, Raise e) => Raise e
  end.

(** The three decoding steps in order, on a receive buffer that holds
    [frame]. *)
Definition decode_frame (frame : bytes) : M unit :=
  update (set_recv_buffer frame) ;;
  process_protoheader ;;
  process_jsonheader ;;
  process_response.
End Methods.

(** *** What a frame is made of *)

Section FrameFacts.
Context {R : Runtime}.

Lemma lookup_utf8 : lookup (lit "utf-8") = Some utf8.
Proof. reflexivity. Qed.

Lemma unpack_pack_H (n : nat) (b : bytes) :
  pack_H n = Ok b ->
  exists b0 b1, b = [b0; b1] /\ unpack_H b0 b1 = Z.of_nat n.
Proof.
  unfold pack_H. destruct (N.leb_spec (N.of_nat n) 65535); [|discriminate].
  intros E. injection E as <-. eexists _, _. split; [reflexivity|].
  unfold unpack_H. rewrite !Utf8.to_N_byte_of_N by lia. lia.
Qed.

(** Bytes written by [_json_encode] are read back by [_json_decode] under
    the same encoding, when its codec gives back what it wrote. *)
Lemma json_decode_encode (v : json) (encoding : str) (c : Codec) (b : bytes) :
  plain v = true -> lookup encoding = Some c -> lossless c ->
  _json_encode (CJson v) encoding = Ok b ->
  _json_decode b (JStr encoding) = Ok v.
Proof.
  intros Hp Hl Hc. unfold _json_encode, encode_with, _json_decode. rewrite Hl.
  destruct (codec_encode c (dumps false v)) as [b'|] eqn:E; [|discriminate].
  intros H. injection H as <-.
  now rewrite (Hc _ _ E), loads_dumps.
Qed.

(** The metadata header [_create_message] writes. *)
Definition header_of (content_type content_encoding : str) (n : nat) : json :=
  JDict [(lit "byteorder", JStr (byteorder_name sys_byteorder));
         (lit "content-type", JStr content_type);
         (lit "content-encoding", JStr content_encoding);
         (lit "content-length", JInt (Z.of_nat n))].

Lemma header_of_plain (ct ce : str) (n : nat) : plain (header_of ct ce n) = true.
Proof. reflexivity. Qed.

(** What a frame is made of. *)
Lemma create_message_inv (body : content) (ct ce : str) (frame : bytes) :
  _create_message body ct ce = Ok frame ->
  exists b0 b1 hb cb,
    body = CBytes cb /\
    frame = b0 :: b1 :: hb ++ cb /\
    unpack_H b0 b1 = Z.of_nat (length hb) /\
    _json_decode hb (JStr (lit "utf-8")) = Ok (header_of ct ce (length cb)).
Proof.
  unfold _create_message, or_raise.
  destruct (content_len body) as [n|] eqn:En; [|discriminate].
  fold (header_of ct ce n).
  destruct (_json_encode (CJson (header_of ct ce n)) (lit "utf-8")) as [hb|] eqn:Eh;
    [|discriminate].
  destruct (pack_H (length hb)) as [hdr|] eqn:Ep; [|discriminate].
  destruct body as [j|cb]; [discriminate|].
  intros H. injection H as <-. cbn in En. injection En as <-.
  destruct (unpack_pack_H _ _ Ep) as (b0 & b1 & -> & Hu).
  exists b0, b1, hb, cb. repeat split; try assumption.
  eapply json_decode_encode; eauto using header_of_plain, lookup_utf8, utf8_lossless.
Qed.

Lemma encode_frame_inv (req : Request) (frame : bytes) :
  encode_frame req = Ok frame ->
  exists body, _create_message body (req_type req) (req_encoding req) = Ok frame
    /\ (if str_eqb (req_type req) (lit "text/json")
        then exists b, body = CBytes b /\ _json_encode (req_content req) (req_encoding req) = Ok b
        else body = req_content req).
Proof.
  unfold encode_frame, queue_request, bind, get, lift, ret, update. cbn [request init].
  destruct (str_eqb (req_type req) (lit "text/json")).
  - destruct (_json_encode (req_content req) (req_encoding req)) as [b|] eqn:Eb; [|discriminate].
    destruct (_create_message (CBytes b) (req_type req) (req_encoding req)) as [f|] eqn:Ef;
      [|discriminate].
    cbn. intros H. injection H as <-. exists (CBytes b). split; [assumption|].
    now exists b.
  - destruct (_create_message (req_content req) (req_type req) (req_encoding req)) as [f|] eqn:Ef;
      [|discriminate].
    cbn. intros H. injection H as <-. eexists. split; [eassumption|reflexivity].
Qed.
End FrameFacts.

(** *** A frame that arrives in pieces *)

(** Unfolding of the monad and of the field accessors. *)
Ltac run :=
  cbv beta iota zeta delta
    [bind ret raise lift get update error
     set_sel_events set_sock_closed set_sock_sent set_sock set_recv_buffer
     set_send_buffer set_request_queued set_jsonheader_len set_jsonheader
     set_response
     sel_events sock_closed sock_sent sock request _recv_buffer _send_buffer
     _request_queued _jsonheader_len jsonheader response].

Section Delivery.
Context {R : Runtime}.
Variables (ev : Z) (req : Request).
Variables (b0 b1 : byte) (hb cb : bytes) (ct ce : str).

Let hdr : json := header_of ct ce (length cb).
Let n : Z := Z.of_nat (length hb).

Hypothesis Hlen : unpack_H b0 b1 = n.
Hypothesis Hhdr : _json_decode hb (JStr (lit "utf-8")) = Ok hdr.

(** A connection that has not finished reading: the length prefix and the
    header it has parsed so far, and its receive buffer. *)
Definition reading (len : option Z) (h : json) (buf : bytes) : Message := {|
  sel_events := Some ev;
  sock_closed := false;
  sock_sent := [];
  sock := true;
  request := req;
  _recv_buffer := buf;
  _send_buffer := [];
  _request_queued := false;
  _jsonheader_len := len;
  jsonheader := h;
  response := CJson JNull
|}.

Definition steps : M unit := protoheader_step ;; jsonheader_step ;; response_step.

Lemma read_reading (c : bytes) (len : option Z) (h : json) (buf : bytes) :
  c <> [] ->
  read (Ok c) (reading len h buf) = steps (reading len h (buf ++ c)).
Proof.
  intros Hc. destruct c as [|x c]; [contradiction|]. reflexivity.
Qed.

Lemma steps_short (q : bytes) :
  length q < 2 -> steps (reading None JNull q) = (reading None JNull q, Ok tt).
Proof.
  intros H. destruct q as [|x [|y q]]; [reflexivity|reflexivity|cbn in H; lia].
Qed.

Lemma steps_proto (q : bytes) :
  steps (reading None JNull (b0 :: b1 :: q)) = steps (reading (Some n) JNull q).
Proof. unfold steps, protoheader_step, process_protoheader, reading. run. now rewrite Hlen. Qed.

Lemma steps_wait_header (q : bytes) :
  length q < length hb ->
  steps (reading (Some n) JNull q) = (reading (Some n) JNull q, Ok tt).
Proof.
  intros H. unfold steps, protoheader_step, jsonheader_step, process_jsonheader,
    response_step, reading. run.
  destruct (Z.leb_spec n (Z.of_nat (length q))); [subst n; lia|]. reflexivity.
Qed.

Lemma check_headers_hdr (m : Message) :
  jsonheader m = hdr -> check_headers required_headers m = (m, Ok tt).
Proof.
  intros H. unfold required_headers, check_headers, bind, get, lift, ret.
  repeat (rewrite H;
          match goal with
          | |- context [py_in ?k hdr] => change (py_in k hdr) with (@Ok bool true)
          end; cbv beta iota).
  reflexivity.
Qed.

Lemma steps_header (q : bytes) :
  steps (reading (Some n) JNull (hb ++ q)) = steps (reading (Some n) hdr q).
Proof.
  unfold steps, protoheader_step, jsonheader_step, process_jsonheader, reading. run.
  destruct (Z.leb_spec n (Z.of_nat (length (hb ++ q))));
    [|rewrite length_app in *; subst n; lia].
  subst n. rewrite slice_to_app, slice_from_app, Hhdr.
  rewrite check_headers_hdr by reflexivity. reflexivity.
Qed.

Lemma steps_wait_payload (q : bytes) :
  length q < length cb ->
  steps (reading (Some n) hdr q) = (reading (Some n) hdr q, Ok tt).
Proof.
  intros H. unfold steps, protoheader_step, jsonheader_step, response_step,
    process_response, reading, hdr, header_of. run.
  cbv beta iota delta [truthy negb is_None].
  match goal with
  | |- context [py_getitem ?h ?k] =>
      change (py_getitem h k) with (@Ok json (JInt (Z.of_nat (length cb))))
  end.
  cbv iota beta. unfold int_ge.
  destruct (Z.leb_spec (Z.of_nat (length cb)) (Z.of_nat (length q))); [lia|]. reflexivity.
Qed.

(** The frame and the state a connection is in after a proper prefix of it
    has arrived. *)
Definition the_frame : bytes := b0 :: b1 :: hb ++ cb.

Definition after (p : bytes) : Message :=
  if length p <? 2 then reading None JNull p
  else if length p <? 2 + length hb then reading (Some n) JNull (skipn 2 p)
  else reading (Some n) hdr (skipn (2 + length hb) p).

(** Delivering [p] at once to a fresh connection. *)
Lemma steps_prefix (p rest : bytes) :
  p ++ rest = the_frame -> rest <> [] ->
  steps (reading None JNull p) = (after p, Ok tt).
Proof.
  intros E Hr. unfold after.
  assert (L : length p < length the_frame).
  { rewrite <- E, length_app. destruct rest; [contradiction|cbn [length]; lia]. }
  unfold the_frame in *. cbn [length] in L. rewrite length_app in L.
  destruct (Nat.ltb_spec (length p) 2) as [H2|H2]; [now apply steps_short|].
  destruct p as [|x [|y p]]; try (cbn [length] in H2; lia).
  cbn [app] in E. injection E as -> -> E. cbn [length skipn].
  rewrite steps_proto.
  destruct (Nat.ltb_spec (S (S (length p))) (2 + length hb)) as [H3|H3].
  { apply steps_wait_header. lia. }
  assert (Ep : p = hb ++ skipn (length hb) p).
  { rewrite <- (firstn_skipn (length hb) p) at 1. f_equal.
    apply (f_equal (firstn (length hb))) in E.
    rewrite firstn_app, firstn_app in E.
    rewrite firstn_all, Nat.sub_diag in E. cbn [firstn] in E.
    rewrite List.app_nil_r in E.
    replace (length hb - length p) with 0 in E by lia. cbn [firstn] in E.
    now rewrite List.app_nil_r in E. }
  rewrite Ep at 1. rewrite steps_header.
  apply steps_wait_payload.
  apply (f_equal (@length _)) in E. rewrite !length_app in E.
  rewrite length_skipn. destruct rest; [contradiction|cbn [length] in E; lia].
Qed.

(** A chunk that arrives after [p] leaves the connection where delivering
    [p] and the chunk at once would. *)
Lemma steps_after (p rest c : bytes) :
  p ++ rest = the_frame -> rest <> [] ->
  steps (reading (_jsonheader_len (after p)) (jsonheader (after p))
                 (_recv_buffer (after p) ++ c))
  = steps (reading None JNull (p ++ c)).
Proof.
  intros E Hr. unfold after.
  assert (L : length p < length the_frame).
  { rewrite <- E, length_app. destruct rest; [contradiction|cbn [length]; lia]. }
  unfold the_frame in *. cbn [length] in L. rewrite length_app in L.
  destruct (Nat.ltb_spec (length p) 2) as [H2|H2]; [reflexivity|].
  destruct p as [|x [|y p]]; try (cbn [length] in H2; lia).
  cbn [app] in E. injection E as -> -> E. cbn [length skipn app].
  rewrite steps_proto.
  destruct (Nat.ltb_spec (S (S (length p))) (2 + length hb)) as [H3|H3]; [reflexivity|].
  assert (Ep : p = hb ++ skipn (length hb) p).
  { rewrite <- (firstn_skipn (length hb) p) at 1. f_equal.
    apply (f_equal (firstn (length hb))) in E.
    rewrite firstn_app, firstn_app in E.
    rewrite firstn_all, Nat.sub_diag in E. cbn [firstn] in E.
    rewrite List.app_nil_r in E.
    replace (length hb - length p) with 0 in E by lia. cbn [firstn] in E.
    now rewrite List.app_nil_r in E. }
  cbn [_jsonheader_len jsonheader _recv_buffer reading].
  rewrite Ep at 2. rewrite <- app_assoc, steps_header. reflexivity.
Qed.

Lemma after_reading (p : bytes) :
  after p = reading (_jsonheader_len (after p)) (jsonheader (after p))
                    (_recv_buffer (after p)).
Proof.
  unfold after. destruct (length p <? 2); [reflexivity|].
  destruct (length p <? 2 + length hb); reflexivity.
Qed.

Lemma bind_ret_tt (c : M unit) (m : Message) : (c ;; ret tt) m = c m.
Proof. unfold bind, ret. destruct (c m) as [m' [[]|e]]; reflexivity. Qed.

(** Chunks that complete the frame after [p] end where the whole frame,
    delivered at once, ends. *)
Lemma reads_after (chunks : list bytes) :
  forall p, p ++ concat chunks = the_frame ->
  Forall (fun c => c <> []) chunks -> concat chunks <> [] ->
  reads (map Ok chunks) (after p) = steps (reading None JNull the_frame).
Proof.
  induction chunks as [|c cs IH]; intros p E Hall Hrest; [now contradiction Hrest|].
  inversion Hall as [|? ? Hc Hcs]; subst.
  cbn [map reads]. cbn [concat] in E.
  unfold bind at 1. rewrite after_reading, read_reading by assumption.
  rewrite (steps_after p (c ++ concat cs) c E Hrest).
  destruct cs as [|c' cs].
  - cbn [concat] in E. rewrite List.app_nil_r in E. rewrite E.
    destruct (steps (reading None JNull the_frame)) as [m' [[]|e]]; reflexivity.
  - assert (Hr : concat (c' :: cs) <> []).
    { inversion Hcs as [|? ? Hc' _]; subst. cbn [concat].
      destruct c'; [contradiction|discriminate]. }
    rewrite (steps_prefix (p ++ c) (concat (c' :: cs)));
      [|now rewrite <- app_assoc|assumption].
    apply IH; try assumption. now rewrite <- app_assoc.
Qed.

(** Any split of the frame into non-empty chunks, fed to a fresh connection
    one read event each, ends where one read of the whole frame ends. *)
Lemma reads_chunks (chunks : list bytes) :
  concat chunks = the_frame -> Forall (fun c => c <> []) chunks ->
  reads (map Ok chunks) (init ev req) = read (Ok the_frame) (init ev req).
Proof.
  intros E Hall.
  change (init ev req) with (after []).
  rewrite (reads_after chunks [] E Hall) by (rewrite E; discriminate).
  change (after []) with (reading None JNull []).
  rewrite read_reading by discriminate. reflexivity.
Qed.
End Delivery.

(** *** Facts about single steps *)

Section StepFacts.
Context {R : Runtime}.

(** The loop over the required keys stops at the first one [obj] lacks. *)
Lemma check_headers_missing (names : list str) (m : Message) (key : str) :
  In key names -> py_in key (jsonheader m) <> Ok true ->
  exists e, check_headers names m = (m, Raise e)
            /\ (exn_class_of e = ValueError \/ exn_class_of e = TypeError).
Proof.
  induction names as [|k names IH]; intros Hin Hk; [contradiction|].
  cbn [check_headers]. unfold bind, get, lift.
  destruct (py_in k (jsonheader m)) as [[|]|e] eqn:E.
  - destruct Hin as [->|Hin]; [contradiction|]. now apply IH.
  - eexists. split; [reflexivity|now left].
  - exists e. split; [reflexivity|].
    destruct (jsonheader m); cbn in E; try discriminate; injection E as <-; now right.
Qed.

Lemma check_headers_missing_dict (names : list str) (m : Message)
    (hm : list (str * json)) (key : str) :
  jsonheader m = JDict hm -> In key names -> dict_get hm key = None ->
  exists k, In k names /\ dict_get hm k = None /\
    check_headers names m
    = (m, Raise (Exc ValueError (lit "Missing required header '" ++ k ++ lit "'."))).
Proof.
  intros Hj. induction names as [|k names IH]; intros Hin Hk; [contradiction|].
  cbn [check_headers]. unfold bind, get, lift. rewrite Hj. cbn [py_in].
  destruct (dict_get hm k) as [v|] eqn:E.
  - destruct Hin as [->|Hin]; [congruence|].
    destruct (IH Hin Hk) as (k' & Hin' & Hk' & Hc).
    exists k'. repeat split; [now right|assumption|assumption].
  - exists k. repeat split; [now left|assumption].
Qed.

(** The socket and its registration across [queue_request]. *)
Lemma queue_request_keeps (m : Message) :
  let (m', res) := queue_request m in
  sock_closed m' = sock_closed m /\ sock m' = sock m /\ sel_events m' = sel_events m
  /\ sock_sent m' = sock_sent m.
Proof.
  unfold queue_request, bind, get, lift, ret, update.
  destruct (str_eqb (req_type (request m)) (lit "text/json")).
  - destruct (_json_encode _ _); [|repeat split].
    destruct (_create_message _ _ _); destruct m; repeat split.
  - destruct (_create_message _ _ _); destruct m; repeat split.
Qed.

Lemma write_queued (m : Message) (send : result nat) :
  _request_queued m = true ->
  write send m =
  (_write send ;;
   buf <- get _send_buffer ;;
   match buf with
   | [] => _set_selector_events_mask (lit "r")
   | _ :: _ => ret tt
   end) m.
Proof.
  intros Hq. unfold write, bind at 1, get at 1. rewrite Hq. cbn [negb].
  unfold bind at 1, ret at 1. unfold bind.
  destruct (_write send m) as [m1 [[]|e]] eqn:E; [|reflexivity].
  assert (Hq1 : _request_queued m1 = true).
  { revert E. unfold _write, bind, get, update, error, raise, ret.
    destruct (_send_buffer m); [now intros [= <-]|].
    destruct (sock m); cbn [negb]; [|discriminate].
    destruct send as [k|e]; [destruct m; intros [= <-]; assumption|].
    destruct (exn_class_of e); try discriminate; now intros [= <-]. }
  unfold get at 1. now rewrite Hq1.
Qed.

Lemma _write_keeps (m : Message) (send : result nat) :
  let (m', res) := _write send m in
  sock_closed m' = sock_closed m /\ sock m' = sock m /\ sel_events m' = sel_events m.
Proof.
  unfold _write, bind, get, update, error, raise, ret.
  destruct (_send_buffer m); [repeat split|].
  destruct (negb (sock m)); [repeat split|].
  destruct send as [k|e]; [destruct m; repeat split|].
  destruct (exn_class_of e); repeat split.
Qed.

Lemma set_mask_r (m : Message) :
  let (m', res) := _set_selector_events_mask (lit "r") m in
  sock_closed m' = sock_closed m /\ sock m' = sock m /\
  (sel_events m' = sel_events m
   \/ (sel_events m <> None /\ sel_events m' = Some EVENT_READ)).
Proof.
  unfold _set_selector_events_mask, selector_modify, bind, ret.
  change (str_eqb (lit "r") (lit "r")) with true. cbv beta iota.
  destruct (negb (sock m)); [split; [|split; [|left]]; reflexivity|].
  destruct (sel_events m) eqn:Ee.
  - destruct m; cbn in *. split; [|split]; try reflexivity.
    right. split; [discriminate|reflexivity].
  - split; [|split]; try reflexivity. now left.
Qed.
End StepFacts.

End Msg.

Import Msg.

(* ================================================================== *)
(** ** class SchedulerAPI *)
(* ================================================================== *)

Module Api.

(** class RequestType(Enum) *)
Module RequestType.
Inductive t := create_task_schedule | ping | cancel_task_schedule.

(** [request_type.name] *)
Definition name (request_type : t) : str :=
  match request_type with
  | create_task_schedule => lit "create_task_schedule"
  | ping => lit "ping"
  | cancel_task_schedule => lit "cancel_task_schedule"
  end.
End RequestType.

(** What [_send_message_to_scheduler_socket] can return. *)
Inductive value :=
  | VNone
  | VBytes (b : bytes)
  | VStr (s : str).

(** The calls the client makes on its socket, in the order it makes them
    (output written with [print] is not part of the model). *)
Inductive event :=
  | EvSocket                      (* socket.socket(AF_UNIX, SOCK_STREAM) *)
  | EvSetTimeout (seconds : Z)    (* scheduler_socket.settimeout(5) *)
  | EvConnect (path : str)        (* scheduler_socket.connect(path) *)
  | EvSend (data : bytes)         (* scheduler_socket.send(data) *)
  | EvSleep                       (* time.sleep(0.5) *)
  | EvRecv (bufsize : Z)          (* scheduler_socket.recv(2048) *)
  | EvClose.                      (* scheduler_socket.close() *)

(** What the client finds around it: the configured path, the file system,
    and what each socket call does.  An exception of these calls is a
    subclass of [Exception]. *)
Record World := {
  config_path : option str;       (* frappe.db.get_single_value(...) *)
  path_exists : str -> bool;      (* pathlib.Path(p).exists() *)
  path_absolute : str -> str;     (* str(pathlib.Path(p).absolute()) *)
  socket_new : option exn;        (* None: the socket is created *)
  connect : str -> option exn;    (* None: connected *)
  send : bytes -> result nat;     (* the number of bytes the socket took *)
  recv : Z -> result bytes
}.

Definition connecting_failed (ex : exn) : value :=
  VStr (raw "Exception while connecting to BTU Scheduler socket: " ++ exn_str ex).

(** [_send_message_to_scheduler_socket(message)]: the socket calls made and
    the value returned or the exception raised.  [message] is a str, so the
    isinstance test of the source passes. *)
Definition _send_message_to_scheduler_socket (w : World) (message : str)
    : list event * result value :=
  match config_path w with
  | None | Some [] =>
      ([], Raise (Exc ValueError
                    (raw "BTU Configuration is missing a path to the Unix Domain Socket for the scheduler daemon.")))
  | Some socket_str =>
      if negb (path_exists w socket_str) then
        ([], Raise (Exc FileNotFoundError
                      (raw "Path to socket file does not exists: '"
                       ++ path_absolute w socket_str ++ raw "'")))
      else
        (* try: socket(), settimeout(5), connect() / except Exception: return *)
        match socket_new w with
        | Some ex => ([], Ok (connecting_failed ex))
        | None =>
            let connecting :=
              [EvSocket; EvSetTimeout 5; EvConnect (path_absolute w socket_str)] in
            match connect w (path_absolute w socket_str) with
            | Some ex => (connecting, Ok (connecting_failed ex))
            | None =>
                match Utf8.encode message with
                | None =>
                    (connecting,
                     Raise (Exc UnicodeEncodeError (raw "'utf-8' codec can't encode character")))
                | Some message_bytes =>
                    (* try: send, sleep, recv / except Exception: print /
                       finally: close *)
                    let (talking, uds_response) :=
                      match send w message_bytes with
                      | Raise _ => ([EvSend message_bytes], VNone)
                      | Ok _ =>
                          match recv w 2048 with
                          | Raise _ => ([EvSend message_bytes; EvSleep; EvRecv 2048], VNone)
                          | Ok data =>
                              ([EvSend message_bytes; EvSleep; EvRecv 2048], VBytes data)
                          end
                      end in
                    let calls := connecting ++ talking ++ [EvClose] in
                    (* if uds_response: uds_response = uds_response.decode('utf-8') *)
                    match uds_response with
                    | VBytes (x :: data) =>
                        match Utf8.decode (x :: data) with
                        | Some text => (calls, Ok (VStr text))
                        | None =>
                            (calls,
                             Raise (Exc UnicodeDecodeError
                                      (raw "'utf-8' codec can't decode byte")))
                        end
                    | other => (calls, Ok other)
                    end
                end
            end
        end
  end.

Section Client.
Context {R : Runtime}.

(** [json.dumps(new_message)] in [send_message]: the default
    [ensure_ascii=True]. *)
Definition message_as_string (request_type : RequestType.t) (content : json) : str :=
  dumps true (JDict [(lit "request_type", JStr (RequestType.name request_type));
                     (lit "request_content", content)]).

Definition send_message (w : World) (request_type : RequestType.t) (content : json)
    : list event * result value :=
  _send_message_to_scheduler_socket w (message_as_string request_type content).

Definition send_ping (w : World) : list event * result value :=
  send_message w RequestType.ping JNull.

Definition reload_task_schedule (w : World) (task_schedule_id : json)
    : list event * result value :=
  send_message w RequestType.create_task_schedule task_schedule_id.

Definition cancel_task_schedule (w : World) (task_schedule_id : json)
    : list event * result value :=
  send_message w RequestType.cancel_task_schedule task_schedule_id.
End Client.

(** Reading a list of calls. *)
Definition is_close (e : event) : bool :=
  match e with EvClose => true | _ => false end.

Definition is_socket (e : event) : bool :=
  match e with EvSocket => true | _ => false end.

Definition sends (calls : list event) : list bytes :=
  flat_map (fun e => match e with EvSend d => [d] | _ => [] end) calls.

Definition connects (calls : list event) : list str :=
  flat_map (fun e => match e with EvConnect p => [p] | _ => [] end) calls.

Definition recvs (calls : list event) : list Z :=
  flat_map (fun e => match e with EvRecv n => [n] | _ => [] end) calls.

(** The socket was opened / was closed. *)
Definition opened (calls : list event) : bool := existsb is_socket calls.
Definition closed (calls : list event) : bool := existsb is_close calls.

End Api.

(* ================================================================== *)
(** * The specification's statements, checked against the model *)

Import Py Rt Json Msg.

Import Api.

(* ================================================================== *)
(** ** The properties of the specification *)
(* ================================================================== *)

(** *** Examples to state them on *)

Definition socket_file : str := raw "/run/btu_scheduler.sock".

(** A daemon that takes every byte and answers [reply]. *)
Definition answering (reply : bytes) : World := {|
  config_path := Some socket_file;
  path_exists := fun _ => true;
  path_absolute := fun p => p;
  socket_new := None;
  connect := fun _ => None;
  send := fun data => Ok (length data);
  recv := fun _ => Ok reply
|}.

(** The configured socket file is not there. *)
Definition no_socket_file : World := {|
  config_path := Some socket_file;
  path_exists := fun _ => false;
  path_absolute := fun p => p;
  socket_new := None;
  connect := fun _ => None;
  send := fun data => Ok (length data);
  recv := fun _ => Ok []
|}.

(** Nobody listens on the socket file. *)
Definition refusing : World := {|
  config_path := Some socket_file;
  path_exists := fun _ => true;
  path_absolute := fun p => p;
  socket_new := None;
  connect := fun _ => Some (Exc OSError (raw "[Errno 111] Connection refused"));
  send := fun data => Ok (length data);
  recv := fun _ => Ok []
|}.

(** The daemon goes away between connect and send. *)
Definition breaking : World := {|
  config_path := Some socket_file;
  path_exists := fun _ => true;
  path_absolute := fun p => p;
  socket_new := None;
  connect := fun _ => None;
  send := fun _ => Raise (Exc OSError (raw "[Errno 32] Broken pipe"));
  recv := fun _ => Ok []
|}.

(** A request and the connection that will send it. *)
Definition status_request : Request := {|
  req_content := CJson (JDict [(lit "action", JStr (lit "status"))]);
  req_type := lit "text/json";
  req_encoding := lit "utf-8"
|}.

(** The text as bytes, for text below U+0080. *)
Definition ascii_bytes (s : str) : bytes := map Utf8.byte_of_N s.

(* ------------------------------------------------------------------ *)
(** *** C1: failures of the blocking client *)

(** A socket call of the run failed. *)
Definition io_failure (w : World) (calls : list event) : Prop :=
  (exists p e, In p (connects calls) /\ connect w p = Some e)
  \/ (exists d e, In d (sends calls) /\ send w d = Raise e)
  \/ (exists n e, In n (recvs calls) /\ recv w n = Raise e).

(** The claim as the specification words it: whenever connect, send or
    receive fails, the caller gets a descriptive error value, and the socket
    that was opened is closed. *)
Definition failures_become_error_values : Prop :=
  forall (w : World) (message : str),
    io_failure w (fst (_send_message_to_scheduler_socket w message)) ->
    (exists description,
        snd (_send_message_to_scheduler_socket w message) = Ok (VStr description))
    /\ (opened (fst (_send_message_to_scheduler_socket w message)) = true ->
        closed (fst (_send_message_to_scheduler_socket w message)) = true).

(** Against C1 as stated: when send fails the caller gets [None], not a
    description of the failure. *)
Lemma send_failure_returns_None : ~ failures_become_error_values.
Proof.
  intros H. specialize (H breaking (lit "{}")).
  destruct H as [[description Hd] _].
  - right. left. eexists _, _. split; [left; reflexivity|reflexivity].
  - discriminate Hd.
Qed.

(** A refused connection is reported as a string, and the socket created for
    it is not closed by the client. *)
Example refused_connection_leaves_socket :
  _send_message_to_scheduler_socket refusing (lit "{}")
  = ([EvSocket; EvSetTimeout 5; EvConnect socket_file],
     Ok (VStr (raw "Exception while connecting to BTU Scheduler socket: [Errno 111] Connection refused"))).
Proof. reflexivity. Qed.

(** C1, amended: a failure of creating the socket or of connect is caught
    and returned as a descriptive string; a failure of send or of receive is
    caught and the client returns None; and once send has been called, the
    socket is closed on every path out of the function. *)
Theorem failures_caught (w : World) (message : str) :
  (forall p e, config_path w = Some p -> p <> [] -> path_exists w p = true ->
     socket_new w = Some e ->
     _send_message_to_scheduler_socket w message = ([], Ok (connecting_failed e)))
  /\ (forall p e, In p (connects (fst (_send_message_to_scheduler_socket w message))) ->
        connect w p = Some e ->
        snd (_send_message_to_scheduler_socket w message) = Ok (connecting_failed e))
  /\ (forall d e, In d (sends (fst (_send_message_to_scheduler_socket w message))) ->
        send w d = Raise e ->
        snd (_send_message_to_scheduler_socket w message) = Ok VNone)
  /\ (forall n e, In n (recvs (fst (_send_message_to_scheduler_socket w message))) ->
        recv w n = Raise e ->
        snd (_send_message_to_scheduler_socket w message) = Ok VNone)
  /\ (sends (fst (_send_message_to_scheduler_socket w message)) <> [] ->
      closed (fst (_send_message_to_scheduler_socket w message)) = true).
Proof.
  split.
  { intros p e Hc Hp He Hs. unfold _send_message_to_scheduler_socket.
    rewrite Hc. destruct p as [|c0 p]; [contradiction|]. now rewrite He, Hs. }
  unfold _send_message_to_scheduler_socket.
  destruct (config_path w) as [[|c0 socket_str]|];
    try (cbn; repeat split; intros; tauto).
  destruct (path_exists w (c0 :: socket_str)); cbn [negb];
    [|cbn; repeat split; intros; tauto].
  destruct (socket_new w) as [ex|]; [cbn; repeat split; intros; tauto|].
  destruct (connect w (path_absolute w (c0 :: socket_str))) as [ex|] eqn:Ec.
  { cbn. repeat split; intros; try tauto.
    destruct H as [<-|[]]. congruence. }
  destruct (Utf8.encode message) as [message_bytes|];
    [|cbn; repeat split; intros; try tauto; destruct H as [<-|[]]; congruence].
  destruct (send w message_bytes) as [sent|ex] eqn:Es.
  - destruct (recv w 2048) as [[|x data]|ex] eqn:Er.
    + cbn. repeat split; intros; try tauto;
        repeat match goal with H : _ \/ _ |- _ => destruct H | H : False |- _ => destruct H end;
        subst; congruence.
    + destruct (Utf8.decode (x :: data)); cbn; repeat split; intros; try tauto;
        repeat match goal with H : _ \/ _ |- _ => destruct H | H : False |- _ => destruct H end;
        subst; congruence.
    + cbn. repeat split; intros; try tauto;
        repeat match goal with H : _ \/ _ |- _ => destruct H | H : False |- _ => destruct H end;
        subst; congruence.
  - cbn. repeat split; intros; try tauto;
      repeat match goal with H : _ \/ _ |- _ => destruct H | H : False |- _ => destruct H end;
      subst; congruence.
Qed.

(* ------------------------------------------------------------------ *)
(** *** C2: the bytes the blocking client sends *)

(** The claim as the specification words it: what the client hands to the
    socket is a frame with content type text/json, and all of it is
    written. *)
Definition request_is_framed : Prop :=
  forall (R : Runtime) (w : World) (t : RequestType.t) (content : json) (data : bytes),
    In data (sends (fst (send_message w t content))) ->
    (exists payload,
        _create_message (CBytes payload) (lit "text/json") (lit "utf-8") = Ok data)
    /\ send w data = Ok (length data).

(** A frame is longer than the header length its first two bytes declare. *)
Lemma frame_length {R : Runtime} (body : content) (ct ce : str) (frame : bytes) :
  _create_message body ct ce = Ok frame ->
  exists b0 b1 rest,
    frame = b0 :: b1 :: rest /\ (unpack_H b0 b1 <= Z.of_nat (length rest))%Z.
Proof.
  intros H. destruct (create_message_inv _ _ _ _ H) as (b0 & b1 & hb & cb & _ & -> & Hl & _).
  exists b0, b1, (hb ++ cb). split; [reflexivity|]. rewrite Hl, length_app. lia.
Qed.

(** Against C2 as stated: the ping request goes out as bare JSON text, whose
    first two bytes would declare a header of 31522 bytes. *)
Lemma ping_is_not_framed : ~ request_is_framed.
Proof.
  intros H.
  destruct (H cpython (answering []) RequestType.ping JNull
              (ascii_bytes (lit "{'request_type': 'ping', 'request_content': null}")))
    as [[payload Hf] _].
  - left. reflexivity.
  - destruct (frame_length _ _ _ _ Hf) as (b0 & b1 & rest & E & Hl).
    injection E as <- <- <-. vm_compute in Hl. apply Hl. reflexivity.
Qed.

(** C2, amended: the client hands the UTF-8 encoding of the JSON request
    text itself to one send call, with no length prefix and no metadata
    header before it; it makes no second call for bytes the socket did not
    take. *)
Theorem request_is_sent_unframed {R : Runtime} (w : World) (t : RequestType.t)
    (content : json) (p : str) (message_bytes : bytes) :
  config_path w = Some p -> p <> [] -> path_exists w p = true ->
  socket_new w = None -> connect w (path_absolute w p) = None ->
  Utf8.encode (message_as_string t content) = Some message_bytes ->
  sends (fst (send_message w t content)) = [message_bytes]
  /\ forall body ct ce, _create_message body ct ce <> Ok message_bytes.
Proof.
  intros Hc Hp He Hs Hn Hb. split.
  - unfold send_message, _send_message_to_scheduler_socket.
    rewrite Hc. destruct p as [|c0 p]; [contradiction|].
    rewrite He, Hs, Hn, Hb. cbn [negb].
    destruct (send w message_bytes); [destruct (recv w 2048) as [[|x d]|]|];
      try destruct (Utf8.decode (x :: d)); reflexivity.
  - intros body ct ce Hf.
    destruct (create_message_inv _ _ _ _ Hf) as (b0 & b1 & hb & cb & _ & E & Hl & Hd).
    revert Hb. unfold message_as_string. cbn [dumps map join app].
    change (dumps_str true (lit "request_type"))
      with (34%N :: 114%N :: tl (tl (dumps_str true (lit "request_type")))).
    cbn [app Utf8.encode].
    change (Utf8.encode_char 123) with (Some [Utf8.byte_of_N 123]).
    change (Utf8.encode_char 34) with (Some [Utf8.byte_of_N 34]).
    change (Utf8.encode_char 114) with (Some [Utf8.byte_of_N 114]).
    destruct (Utf8.encode _) as [tail|]; [|discriminate].
    intros Hb. injection Hb as Hb. rewrite <- Hb in E. cbn [app] in E.
    injection E as <- <- E.
    destruct hb as [|h0 hb]; [vm_compute in Hl; discriminate Hl|].
    cbn [app] in E. injection E as <- E.
    revert Hd. unfold _json_decode. change (lookup (lit "utf-8")) with (Some utf8).
    cbn [codec_decode utf8 Utf8.decode]. rewrite Utf8.to_N_byte_of_N by lia.
    change (114 <? 128)%N with true. cbv iota.
    destruct (Utf8.decode hb) as [text|]; cbn [option_map]; [|discriminate].
    unfold loads. cbn [starts_with]. change (65279 =? 114)%N with false.
    cbn [andb skip_ws]. change (is_ws 114) with false. cbv iota.
    cbn [length Nat.mul Nat.add]. discriminate.
Qed.

Lemma request_is_sent_unframed_witness :
  sends (fst (send_message (R := cpython) (answering []) RequestType.ping JNull))
  = [ascii_bytes (lit "{'request_type': 'ping', 'request_content': null}")]
  /\ forall body ct ce,
       _create_message (R := cpython) body ct ce
       <> Ok (ascii_bytes (lit "{'request_type': 'ping', 'request_content': null}")).
Proof.
  apply (request_is_sent_unframed (R := cpython) (answering []) RequestType.ping JNull
           socket_file
           (ascii_bytes (lit "{'request_type': 'ping', 'request_content': null}")));
    try reflexivity; discriminate.
Defined.

(* ------------------------------------------------------------------ *)
(** *** C7: the ping request *)

(** The claim as the specification words it: the serialized ping request is
    the JSON object with the keys requestType and requestContent. *)
Definition ping_payload_as_specified : Prop :=
  forall R : Runtime,
    loads (message_as_string RequestType.ping JNull)
    = Some (JDict [(lit "requestType", JStr (lit "ping"));
                   (lit "requestContent", JNull)]).

(** Against C7 as stated: the keys the client writes are request_type and
    request_content. *)
Lemma ping_keys_differ : ~ ping_payload_as_specified.
Proof. intros H. specialize (H cpython). vm_compute in H. discriminate H. Qed.

(** C7, amended: [send_ping] serializes the mapping whose key request_type
    holds the name "ping" and whose key request_content holds null, as the
    text [{"request_type": "ping", "request_content": null}], and hands
    that text to the socket function. *)
Theorem ping_payload {R : Runtime} :
  message_as_string RequestType.ping JNull
  = lit "{'request_type': 'ping', 'request_content': null}"
  /\ loads (message_as_string RequestType.ping JNull)
     = Some (JDict [(lit "request_type", JStr (lit "ping"));
                    (lit "request_content", JNull)])
  /\ forall w, send_ping w
               = _send_message_to_scheduler_socket w
                   (lit "{'request_type': 'ping', 'request_content': null}").
Proof. repeat split. Qed.

(* ------------------------------------------------------------------ *)
(** *** C8: the socket file is missing *)

(** The claim as the specification words it: with no socket file on disk
    the client returns a value to its caller and opens no socket. *)
Definition missing_file_is_returned : Prop :=
  forall (w : World) (message : str) (p : str),
    config_path w = Some p -> p <> [] -> path_exists w p = false ->
    (exists v, snd (_send_message_to_scheduler_socket w message) = Ok v)
    /\ fst (_send_message_to_scheduler_socket w message) = [].

(** Against C8 as stated: FileNotFoundError is raised, nothing is
    returned. *)
Lemma missing_file_is_raised : ~ missing_file_is_returned.
Proof.
  intros H.
  destruct (H no_socket_file (lit "{}") socket_file) as [[v Hv] _];
    try reflexivity; discriminate.
Qed.

(** C8, amended: when the configured socket path does not exist on disk the
    client raises FileNotFoundError, whose message names the path, and it
    does so before any socket call: no socket is opened and no connection is
    attempted. *)
Theorem missing_file_raises (w : World) (message : str) (p : str) :
  config_path w = Some p -> p <> [] -> path_exists w p = false ->
  _send_message_to_scheduler_socket w message
  = ([], Raise (Exc FileNotFoundError
                  (raw "Path to socket file does not exists: '"
                   ++ path_absolute w p ++ raw "'"))).
Proof.
  intros Hc Hp He. unfold _send_message_to_scheduler_socket.
  rewrite Hc. destruct p as [|c0 p]; [contradiction|]. now rewrite He.
Qed.

Lemma missing_file_raises_witness :
  _send_message_to_scheduler_socket no_socket_file (lit "{}")
  = ([], Raise (Exc FileNotFoundError
                  (raw "Path to socket file does not exists: '"
                   ++ path_absolute no_socket_file socket_file ++ raw "'"))).
Proof.
  apply (missing_file_raises no_socket_file (lit "{}") socket_file);
    [reflexivity|discriminate|reflexivity].
Defined.

(* ------------------------------------------------------------------ *)
(** *** C10: the daemon answers nothing *)

(** C10: after a successful connect and send, a receive that yields no byte
    makes the client return the empty bytes object, neither None nor a str;
    the reply is decoded as UTF-8 exactly when it has at least one byte. *)
Theorem empty_reply_is_returned_as_bytes (w : World) (message : str) (p : str)
    (message_bytes : bytes) (sent : nat) (reply : bytes) :
  config_path w = Some p -> p <> [] -> path_exists w p = true ->
  socket_new w = None -> connect w (path_absolute w p) = None ->
  Utf8.encode message = Some message_bytes ->
  send w message_bytes = Ok sent -> recv w 2048 = Ok reply ->
  snd (_send_message_to_scheduler_socket w message)
  = match reply with
    | [] => Ok (VBytes [])
    | _ :: _ =>
        match Utf8.decode reply with
        | Some text => Ok (VStr text)
        | None => Raise (Exc UnicodeDecodeError (raw "'utf-8' codec can't decode byte"))
        end
    end.
Proof.
  intros Hc Hp He Hs Hn Hb Hsend Hrecv. unfold _send_message_to_scheduler_socket.
  rewrite Hc. destruct p as [|c0 p]; [contradiction|].
  rewrite He, Hs, Hn, Hb, Hsend, Hrecv. cbn [negb].
  destruct reply as [|x reply]; [reflexivity|].
  destruct (Utf8.decode (x :: reply)); reflexivity.
Qed.

Lemma empty_reply_is_returned_as_bytes_witness :
  snd (_send_message_to_scheduler_socket (answering []) (lit "{}")) = Ok (VBytes []).
Proof.
  apply (empty_reply_is_returned_as_bytes (answering []) (lit "{}") socket_file
           (ascii_bytes (lit "{}")) 2 []);
    try reflexivity; discriminate.
Defined.


(* ------------------------------------------------------------------ *)
(** *** Numbers as JSON text *)

(** [int.__repr__] raises ValueError beyond this many digits
    (sys.int_info.default_max_str_digits), and so does [int(text)]. *)
Definition int_max_str_digits : Z := 4300.

Definition int_to_str_ok (z : Z) : bool := (Z.abs z <? 10 ^ int_max_str_digits)%Z.

(** A text that NUMBER_RE matches whole, with a fraction or an exponent:
    what [float.__repr__] writes for a finite float. *)
Definition float_literal (l : str) : bool :=
  match match_number l with
  | Some (_, [], [], _) => false
  | Some (_, _, _, []) => true
  | _ => false
  end.

Definition nondigit_head (rest : str) : Prop :=
  match rest with [] => True | c :: _ => is_digit c = false end.

Lemma value_end_nondigit (rest : str) : value_end rest = true -> nondigit_head rest.
Proof.
  intros H. apply value_end_not_digit in H. destruct rest; [exact I|]. apply H.
Qed.

Lemma span_digits_ext (s rest d r : str) :
  span_digits s = (d, r) -> nondigit_head rest ->
  span_digits (s ++ rest) = (d, r ++ rest).
Proof.
  revert d r. induction s as [|c s IH]; intros d r H Hr.
  - cbn in H. injection H as <- <-. cbn [app].
    destruct rest as [|c t]; [reflexivity|]. cbn [span_digits]. cbn in Hr. now rewrite Hr.
  - cbn [app span_digits] in *. destruct (is_digit c).
    + destruct (span_digits s) as [d' r'] eqn:E. injection H as <- <-.
      now rewrite (IH d' r' eq_refl Hr).
    + injection H as <- <-. reflexivity.
Qed.

Lemma span_digits_parts (s d r : str) : span_digits s = (d, r) -> s = d ++ r.
Proof.
  revert d r. induction s as [|c s IH]; intros d r H.
  - cbn in H. now injection H as <- <-.
  - cbn [span_digits] in H. destruct (is_digit c).
    + destruct (span_digits s) as [d' r'] eqn:E. injection H as <- <-.
      cbn [app]. f_equal. now apply IH.
    + now injection H as <- <-.
Qed.

Lemma int_group_ext (s rest i r : str) :
  int_group s = Some (i, r) -> nondigit_head rest ->
  int_group (s ++ rest) = Some (i, r ++ rest).
Proof.
  intros H Hr. unfold int_group in *.
  assert (K : forall sign s1,
            match s1 with
            | c :: t =>
                if (c =? 48)%N then Some (sign ++ [c], t)
                else if is_digit c then
                  let (d, r0) := span_digits t in Some (sign ++ c :: d, r0)
                else None
            | [] => None
            end = Some (i, r) ->
            match s1 ++ rest with
            | c :: t =>
                if (c =? 48)%N then Some (sign ++ [c], t)
                else if is_digit c then
                  let (d, r0) := span_digits t in Some (sign ++ c :: d, r0)
                else None
            | [] => None
            end = Some (i, r ++ rest)).
  { intros sign [|c t] E; [discriminate|]. cbn [app].
    destruct (c =? 48)%N; [now injection E as <- <-|].
    destruct (is_digit c); [|discriminate].
    destruct (span_digits t) as [d r0] eqn:Es. injection E as <- <-.
    now rewrite (span_digits_ext t rest d r0 Es Hr). }
  destruct s as [|c t]; [discriminate|]. cbn [app].
  destruct (c =? 45)%N; [apply (K [45%N] t)|apply (K [] (c :: t))]; exact H.
Qed.

Lemma int_group_parts (s i r : str) : int_group s = Some (i, r) -> s = i ++ r.
Proof.
  unfold int_group.
  assert (K : forall sign s1,
            match s1 with
            | c :: t =>
                if (c =? 48)%N then Some (sign ++ [c], t)
                else if is_digit c then
                  let (d, r0) := span_digits t in Some (sign ++ c :: d, r0)
                else None
            | [] => None
            end = Some (i, r) -> sign ++ s1 = i ++ r).
  { intros sign [|c t] E; [discriminate|].
    destruct (c =? 48)%N; [injection E as <- <-; now rewrite <- app_assoc|].
    destruct (is_digit c); [|discriminate].
    destruct (span_digits t) as [d r0] eqn:Es. injection E as <- <-.
    rewrite (span_digits_parts t d r0 Es), <- app_assoc. reflexivity. }
  destruct s as [|c t]; [discriminate|].
  destruct (N.eqb_spec c 45) as [->|Hc]; intros H;
    [apply (K [45%N] t) in H|apply (K [] (c :: t)) in H]; exact H.
Qed.

Lemma frac_group_ext (s rest f r : str) :
  frac_group s = (f, r) -> value_end rest = true ->
  frac_group (s ++ rest) = (f, r ++ rest).
Proof.
  intros H Hv. destruct s as [|c t].
  - cbn in H. injection H as <- <-. cbn [app]. now apply frac_group_end.
  - unfold frac_group in *. cbn [app]. destruct (c =? 46)%N.
    + destruct (span_digits t) as [d r0] eqn:Es.
      rewrite (span_digits_ext t rest d r0 Es (value_end_nondigit rest Hv)).
      destruct d; now injection H as <- <-.
    + now injection H as <- <-.
Qed.

Lemma frac_group_parts (s f r : str) : frac_group s = (f, r) -> s = f ++ r.
Proof.
  destruct s as [|c t]; [cbn; now intros [= <- <-]|].
  unfold frac_group. destruct (c =? 46)%N; [|now intros [= <- <-]].
  destruct (span_digits t) as [d r0] eqn:Es.
  destruct d; intros [= <- <-]; [reflexivity|].
  cbn [app]. f_equal. exact (span_digits_parts _ _ _ Es).
Qed.

Lemma value_end_head (rest : str) :
  value_end rest = true ->
  match rest with [] => True | x :: _ => x = 44%N \/ x = 93%N \/ x = 125%N end.
Proof.
  destruct rest as [|x t]; [trivial|]. unfold value_end. intros H.
  apply orb_prop in H as [H|H]; [apply orb_prop in H as [H|H]|];
    apply N.eqb_eq in H; auto.
Qed.

Lemma exp_group_ext (s rest e r : str) :
  exp_group s = (e, r) -> value_end rest = true ->
  exp_group (s ++ rest) = (e, r ++ rest).
Proof.
  intros H Hv. pose proof (value_end_nondigit rest Hv) as Hn.
  destruct s as [|c t].
  - cbn in H. injection H as <- <-. cbn [app]. now apply exp_group_end.
  - unfold exp_group in *. cbn [app]. destruct ((c =? 101) || (c =? 69))%N.
    + destruct t as [|g t'].
      * cbn [app span_digits] in *. injection H as <- <-.
        destruct rest as [|x rest']; [reflexivity|].
        apply value_end_head in Hv. destruct Hv as [ -> | [ -> | -> ] ]; reflexivity.
      * cbn [app]. destruct ((g =? 45) || (g =? 43))%N.
        -- destruct (span_digits t') as [d r0] eqn:Es.
           rewrite (span_digits_ext t' rest d r0 Es Hn).
           destruct d; now injection H as <- <-.
        -- destruct (span_digits (g :: t')) as [d r0] eqn:Es.
           change (g :: t' ++ rest) with ((g :: t') ++ rest).
           rewrite (span_digits_ext (g :: t') rest d r0 Es Hn).
           destruct d; now injection H as <- <-.
    + now injection H as <- <-.
Qed.

Lemma exp_group_parts (s e r : str) : exp_group s = (e, r) -> s = e ++ r.
Proof.
  destruct s as [|c t]; [cbn; now intros [= <- <-]|].
  unfold exp_group. destruct ((c =? 101) || (c =? 69))%N; [|now intros [= <- <-]].
  destruct t as [|g t'].
  - cbn. now intros [= <- <-].
  - destruct ((g =? 45) || (g =? 43))%N.
    + destruct (span_digits t') as [d r0] eqn:Es.
      destruct d; intros [= <- <-]; [reflexivity|].
      cbn [app]. do 2 f_equal. exact (span_digits_parts _ _ _ Es).
    + destruct (span_digits (g :: t')) as [d r0] eqn:Es.
      destruct d; intros [= <- <-]; [reflexivity|].
      cbn [app]. f_equal. exact (span_digits_parts _ _ _ Es).
Qed.

Lemma match_number_ext (s rest i f e r : str) :
  match_number s = Some (i, f, e, r) -> value_end rest = true ->
  match_number (s ++ rest) = Some (i, f, e, r ++ rest).
Proof.
  unfold match_number. intros H Hv.
  destruct (int_group s) as [[i0 s2]|] eqn:Ei; [|discriminate].
  destruct (frac_group s2) as [f0 s3] eqn:Ef.
  destruct (exp_group s3) as [e0 s4] eqn:Ee.
  injection H as <- <- <- <-.
  rewrite (int_group_ext s rest i0 s2 Ei (value_end_nondigit rest Hv)).
  rewrite (frac_group_ext s2 rest f0 s3 Ef Hv).
  now rewrite (exp_group_ext s3 rest e0 s4 Ee Hv).
Qed.

Lemma match_number_parts (s i f e r : str) :
  match_number s = Some (i, f, e, r) -> s = i ++ f ++ e ++ r.
Proof.
  unfold match_number. intros H.
  destruct (int_group s) as [[i0 s2]|] eqn:Ei; [|discriminate].
  destruct (frac_group s2) as [f0 s3] eqn:Ef.
  destruct (exp_group s3) as [e0 s4] eqn:Ee.
  injection H as <- <- <- <-.
  rewrite (int_group_parts s i0 s2 Ei), (frac_group_parts s2 f0 s3 Ef),
    (exp_group_parts s3 e0 s4 Ee). reflexivity.
Qed.

Lemma int_group_head (s i r : str) :
  int_group s = Some (i, r) ->
  exists c t, s = c :: t /\ (c = 45%N \/ is_digit c = true).
Proof.
  unfold int_group. destruct s as [|c t]; [discriminate|]. intros H.
  exists c, t. split; [reflexivity|].
  destruct (N.eqb_spec c 45) as [->|Hc]; [now left|]. right.
  destruct (N.eqb_spec c 48) as [->|H0]; [reflexivity|].
  destruct (is_digit c); [reflexivity|discriminate].
Qed.

(** What a float literal reads back as, whatever text of the enclosing
    value comes after it. *)
Lemma scan_once_float_literal (l rest : str) (fuel : nat) :
  float_literal l = true -> value_end rest = true ->
  scan_once (S fuel) (l ++ rest) = Scanned (JFloat l) rest
  /\ exists c t, l = c :: t /\ (c = 45%N \/ is_digit c = true).
Proof.
  unfold float_literal. intros H Hv.
  destruct (match_number l) as [[[[i f] e] r]|] eqn:Em; [|discriminate].
  assert (Hr : r = [] /\ (f <> [] \/ e <> [])).
  { destruct f; [destruct e; [discriminate|]|]; (destruct r; [|discriminate]);
      split; auto; right + left; discriminate. }
  destruct Hr as [-> Hfe].
  pose proof (match_number_parts l i f e [] Em) as Hl. rewrite !List.app_nil_r in Hl.
  assert (Hh : exists c t, l = c :: t /\ (c = 45%N \/ is_digit c = true)).
  { unfold match_number in Em. destruct (int_group l) as [[i0 s2]|] eqn:Ei; [|discriminate].
    now apply int_group_head in Ei. }
  split; [|exact Hh]. destruct Hh as (c & t & El & Hc).
  pose proof (match_number_ext l rest i f e [] Em Hv) as Hx. cbn [app] in Hx.
  rewrite El in Hx |- *. cbn [app]. rewrite scan_once_number by assumption.
  change (c :: t ++ rest) with ((c :: t) ++ rest). rewrite Hx.
  rewrite <- El, Hl.
  destruct f; [destruct e; [destruct Hfe as [Hf|He]; contradiction|]|]; reflexivity.
Qed.

(* ------------------------------------------------------------------ *)
(** *** Values that JSON text gives back *)

Lemma number_head (c : N) :
  c = 45%N \/ is_digit c = true ->
  is_ws c = false /\ c <> 93%N /\ c <> 125%N /\ c <> 0xFEFF%N.
Proof.
  intros [->|Hc]; [repeat split; discriminate|].
  unfold is_digit in Hc. apply andb_prop in Hc as [H1 H2].
  apply N.leb_le in H1, H2. unfold is_ws.
  repeat split; try lia.
  repeat (apply orb_false_intro); apply N.eqb_neq; lia.
Qed.

Section ReadBackNumbers.
Context {R : Runtime}.

(** The values that [json.dumps] writes and [json.load] gives back as they
    were: built from None, bool, int, float, str, list and dict with str
    keys, where an int is within the limit of the conversion to text and
    a float is finite and carried by the literal that [float.__repr__]
    writes for it. *)
Fixpoint exchanged (v : json) : bool :=
  match v with
  | JInt z => int_to_str_ok z
  | JFloat l => float_literal l && str_eqb (float_repr l) l
  | JList l => forallb exchanged l
  | JDict m =>
      keys_distinct (map fst m)
      && forallb (fun kv => match kv with (_, x) => exchanged x end) m
  | _ => true
  end.

Lemma dumps_head_num (v : json) :
  exchanged v = true ->
  exists c t, dumps false v = c :: t /\ is_ws c = false
              /\ c <> 93%N /\ c <> 125%N /\ c <> 0xFEFF%N.
Proof.
  destruct v as [| [|] | z | l | s | l | m]; cbn [exchanged]; intros H;
    try (cbn; eexists _, _; split; [reflexivity|repeat split; discriminate]).
  - destruct (repr_int_head z) as (c & t & E & Hc). cbn [dumps]. rewrite E.
    exists c, t. split; [reflexivity|now apply number_head].
  - apply andb_prop in H as [Hl Hr]. apply str_eqb_eq in Hr.
    destruct (scan_once_float_literal l [] 0 Hl eq_refl) as (_ & c & t & E & Hc).
    cbn [dumps]. rewrite Hr, E.
    exists c, t. split; [reflexivity|now apply number_head].
Qed.

Lemma skip_ws_dumps_num (v : json) (rest : str) :
  exchanged v = true -> skip_ws (dumps false v ++ rest) = dumps false v ++ rest.
Proof.
  intros H. destruct (dumps_head_num v H) as (c & t & E & Hws & _).
  rewrite E. cbn [app skip_ws]. now rewrite Hws.
Qed.

Definition reads_back_num (v : json) : Prop :=
  forall f rest, fuel_of v <= f -> value_end rest = true ->
    scan_once f (dumps false v ++ rest) = Scanned v rest.

Lemma array_loop_dumps_num (l : list json) :
  l <> [] ->
  Forall reads_back_num l -> forallb exchanged l = true ->
  forall f rest,
    list_sum (map (fun x => S (fuel_of x)) l) <= f ->
    array_loop f (join (lit ", ") (map (dumps false) l) ++ 93%N :: rest)
    = Scanned l rest.
Proof.
  intros Hne HF. induction HF as [|x l Hx HF IH]; [contradiction|].
  intros Hp f rest Hf. cbn [forallb] in Hp. apply andb_prop in Hp as [Hpx Hpl].
  cbn [map] in Hf. change (list_sum (?a :: ?b)) with (a + list_sum b) in Hf.
  destruct f as [|f]; [lia|]. rewrite array_loop_S.
  destruct l as [|y l].
  - cbn [map join]. rewrite Hx; [reflexivity|lia|reflexivity].
  - change (join (lit ", ") (map (dumps false) (x :: y :: l)))
      with (dumps false x ++ 44%N :: 32%N :: join (lit ", ") (map (dumps false) (y :: l))).
    rewrite <- app_assoc. cbn [app].
    rewrite Hx; [|lia|reflexivity].
    rewrite (skip_ws_other 44) by reflexivity.
    change (44 =? 93)%N with false. change (44 =? 44)%N with true. cbv iota.
    rewrite skip_ws_space.
    assert (E : skip_ws (join (lit ", ") (map (dumps false) (y :: l)) ++ 93%N :: rest)
                = join (lit ", ") (map (dumps false) (y :: l)) ++ 93%N :: rest).
    { cbn [forallb] in Hpl. apply andb_prop in Hpl as [Hpy _].
      destruct l; cbn [map join]; rewrite <- ?app_assoc;
        apply skip_ws_dumps_num; assumption. }
    rewrite E, IH; [reflexivity|discriminate|assumption|lia].
Qed.

Lemma object_loop_dumps_num (m : list (str * json)) :
  m <> [] ->
  Forall (fun kv => reads_back_num (snd kv)) m ->
  forallb (fun kv => match kv with (_, x) => exchanged x end) m = true ->
  forall f rest,
    list_sum (map (fun kv => match kv with (_, x) => S (fuel_of x) end) m) <= f ->
    object_loop f (tl (join (lit ", ") (map dumps_item m) ++ 125%N :: rest))
    = Scanned m rest.
Proof.
  intros Hne HF. induction HF as [|[k x] m Hx HF IH]; [contradiction|].
  intros Hp f rest Hf. cbn [forallb] in Hp. apply andb_prop in Hp as [Hpx Hpm].
  cbn [map] in Hf. change (list_sum (?a :: ?b)) with (a + list_sum b) in Hf.
  cbn [snd] in Hx.
  destruct f as [|f]; [lia|]. rewrite object_loop_S.
  destruct m as [|[k' y] m].
  - cbn [map join]. rewrite dumps_item_eq. cbn [tl].
    rewrite scanstring_dumps_str.
    rewrite (skip_ws_other 58) by reflexivity.
    change (58 =? 58)%N with true. cbv iota.
    rewrite skip_ws_space, skip_ws_dumps_num by assumption.
    rewrite Hx; [|lia|reflexivity].
    rewrite (skip_ws_other 125) by reflexivity. reflexivity.
  - change (join (lit ", ") (map dumps_item ((k, x) :: (k', y) :: m)))
      with (dumps_item (k, x) ++ 44%N :: 32%N
              :: join (lit ", ") (map dumps_item ((k', y) :: m))).
    rewrite <- app_assoc, dumps_item_eq. cbn [tl app].
    rewrite scanstring_dumps_str.
    rewrite (skip_ws_other 58) by reflexivity.
    change (58 =? 58)%N with true. cbv iota.
    rewrite skip_ws_space, skip_ws_dumps_num by assumption.
    rewrite Hx; [|lia|reflexivity].
    rewrite (skip_ws_other 44) by reflexivity.
    change (44 =? 125)%N with false. change (44 =? 44)%N with true. cbv iota.
    rewrite skip_ws_space.
    assert (E : exists t, join (lit ", ") (map dumps_item ((k', y) :: m)) ++ 125%N :: rest
                          = 34%N :: t).
    { destruct m as [|kv m]; cbn [map join]; rewrite <- ?app_assoc;
        rewrite dumps_item_eq; eexists; reflexivity. }
    destruct E as (t & E).
    specialize (IH ltac:(discriminate) Hpm f rest ltac:(lia)).
    rewrite E in IH |- *. cbn [tl] in IH.
    rewrite (skip_ws_other 34) by reflexivity.
    change (34 =? 34)%N with true. cbv iota.
    rewrite IH. reflexivity.
Qed.

Lemma scan_once_dumps_num (v : json) : exchanged v = true -> reads_back_num v.
Proof.
  induction v as [| b | z | l | s | l IH | m IH] using json_ind';
    cbn [exchanged]; intros Hp f rest Hf Hend; try discriminate;
    (destruct f as [|f]; [cbn in Hf; lia|]).
  - reflexivity.
  - destruct b; reflexivity.
  - cbn [dumps]. destruct (repr_int_head z) as (c & t & E & Hc).
    rewrite E. cbn [app]. rewrite scan_once_number by assumption.
    change (c :: t ++ rest) with ((c :: t) ++ rest). rewrite <- E.
    rewrite match_number_repr_int by assumption.
    now rewrite parse_int_repr_int.
  - apply andb_prop in Hp as [Hl Hr]. apply str_eqb_eq in Hr.
    cbn [dumps]. rewrite Hr.
    exact (proj1 (scan_once_float_literal l rest f Hl Hend)).
  - cbn [dumps]. change (dumps_str false s ++ rest)
      with (34%N :: (tl (dumps_str false s) ++ rest)).
    now rewrite scan_once_str, scanstring_dumps_str.
  - assert (HF : Forall reads_back_num l) by (eapply Forall_forallb; eauto).
    cbn [dumps app]. rewrite scan_once_list.
    cbn [fuel_of] in Hf.
    destruct l as [|x l].
    + reflexivity.
    + rewrite <- app_assoc. cbn [app].
      assert (E : exists c t,
                 join (lit ", ") (map (dumps false) (x :: l)) ++ 93%N :: rest = c :: t
                 /\ is_ws c = false /\ c <> 93%N).
      { cbn [forallb] in Hp. apply andb_prop in Hp as [Hpx _].
        destruct (dumps_head_num x Hpx) as (c & t & E & Hws & H93 & _).
        destruct l; cbn [map join]; rewrite <- ?app_assoc, E;
          eexists _, _; (split; [reflexivity|split; assumption]). }
      destruct E as (c & t & E & Hws & H93).
      pose proof (array_loop_dumps_num (x :: l) ltac:(discriminate) HF Hp f rest ltac:(lia)) as A.
      rewrite E in A |- *. rewrite skip_ws_other by assumption.
      destruct (N.eqb_spec c 93); [contradiction|]. now rewrite A.
  - apply andb_prop in Hp as [Hk Hp].
    assert (HF : Forall (fun kv => reads_back_num (snd kv)) m).
    { apply (Forall_forallb _ (fun kv => match kv with (_, x) => exchanged x end));
        [|assumption].
      eapply Forall_impl; [|exact IH]. intros [k x]; auto. }
    cbn [dumps app]. rewrite scan_once_dict.
    cbn [fuel_of] in Hf.
    destruct m as [|kv m].
    + reflexivity.
    + rewrite <- app_assoc. cbn [app].
      change (map (fun kv0 : str * json =>
                     let (k, x) := kv0 in dumps_str false k ++ lit ": " ++ dumps false x))
        with (map dumps_item).
      assert (E : exists t, join (lit ", ") (map dumps_item (kv :: m)) ++ 125%N :: rest
                            = 34%N :: t).
      { destruct kv as [k x].
        destruct m as [|kv' m]; cbn [map join]; rewrite <- ?app_assoc;
          rewrite dumps_item_eq; eexists; reflexivity. }
      destruct E as (t & E).
      pose proof (object_loop_dumps_num (kv :: m) ltac:(discriminate) HF Hp f rest ltac:(lia)) as A.
      rewrite E in A |- *. cbn [tl] in A.
      rewrite (skip_ws_other 34) by reflexivity.
      change (34 =? 125)%N with false. change (34 =? 34)%N with true. cbv iota.
      rewrite A, dict_of_pairs_distinct by assumption. reflexivity.
Qed.

Lemma dumps_nonempty_num (v : json) :
  exchanged v = true -> 1 <= length (dumps false v).
Proof.
  intros H. destruct (dumps_head_num v H) as (c & t & E & _). rewrite E. cbn. lia.
Qed.

Lemma dumps_not_bom_num (v : json) :
  exchanged v = true -> starts_with [0xFEFF%N] (dumps false v) = false.
Proof.
  intros H. destruct (dumps_head_num v H) as (c & t & E & _ & _ & _ & Hc).
  rewrite E. cbn [starts_with]. rewrite andb_true_r. now apply N.eqb_neq.
Qed.

Lemma fuel_of_dumps_num (v : json) :
  exchanged v = true -> fuel_of v <= 2 * length (dumps false v).
Proof.
  induction v as [| b | z | l | s | l IH | m IH] using json_ind';
    intros Hp; try discriminate;
    try (pose proof (dumps_nonempty_num _ Hp); cbn [fuel_of]; lia).
  - cbn [exchanged] in Hp. cbn [fuel_of dumps].
    assert (HF : Forall (fun x => fuel_of x <= 2 * length (dumps false x)) l)
      by (eapply Forall_forallb; eauto).
    pose proof (fuel_of_join (lit ", ") l (dumps false) ltac:(cbn; lia) HF).
    rewrite !length_app. cbn [length]. lia.
  - cbn [exchanged] in Hp. apply andb_prop in Hp as [_ Hp].
    cbn [fuel_of dumps].
    assert (HF : Forall (fun kv : str * json =>
                           fuel_of (snd kv) <= 2 * length (dumps_item kv)) m).
    { assert (HF : Forall (fun kv : str * json =>
                             fuel_of (snd kv) <= 2 * length (dumps false (snd kv))) m).
      { apply (Forall_forallb _ (fun kv => match kv with (_, x) => exchanged x end));
          [|assumption].
        eapply Forall_impl; [|exact IH]. intros [k x]; auto. }
      eapply Forall_impl; [|exact HF]. intros [k x]. unfold dumps_item.
      rewrite !length_app. cbn [snd]. lia. }
    assert (HS : list_sum (map (fun kv : str * json => let (_, x) := kv in S (fuel_of x)) m)
                 <= 2 * length (join (lit ", ") (map dumps_item m)) + 1).
    { clear -HF. induction HF as [|[k x] m Hx _ IH]; [cbn; lia|].
      cbn [map snd] in *. change (list_sum (?a :: ?b)) with (a + list_sum b).
      destruct m as [|y m]; [cbn [map join]; change (list_sum []) with 0; lia|].
      change (join (lit ", ") (dumps_item (k, x) :: map dumps_item (y :: m)))
        with (dumps_item (k, x) ++ lit ", " ++ join (lit ", ") (map dumps_item (y :: m))).
      rewrite !length_app. change (length (lit ", ")) with 2. cbn [map] in *. lia. }
    change (map (fun kv : str * json =>
                   let (k, x) := kv in dumps_str false k ++ lit ": " ++ dumps false x))
      with (map dumps_item).
    rewrite !length_app. cbn [length]. lia.
Qed.

Lemma loads_dumps_num (v : json) :
  exchanged v = true -> loads (dumps false v) = Some v.
Proof.
  intros Hp. unfold loads. rewrite dumps_not_bom_num by assumption.
  pose proof (fuel_of_dumps_num v Hp) as Hf.
  rewrite <- (List.app_nil_r (dumps false v)).
  rewrite skip_ws_dumps_num by assumption.
  rewrite (scan_once_dumps_num v Hp); [reflexivity| |reflexivity].
  rewrite List.app_nil_r. lia.
Qed.

End ReadBackNumbers.
(* ------------------------------------------------------------------ *)
(** *** C3: a frame is read back *)

(** The values [json.dumps] takes: beside the values of the JSON data
    model, a tuple, and a dict whose keys are str, int, float, bool or
    None. *)
Inductive pykey :=
  | KStr (s : str)
  | KInt (z : Z)
  | KFloat (l : str)
  | KBool (b : bool)
  | KNone.

Inductive pyvalue :=
  | PNone
  | PBool (b : bool)
  | PInt (z : Z)
  | PFloat (l : str)
  | PStr (s : str)
  | PList (l : list pyvalue)
  | PTuple (l : list pyvalue)
  | PDict (m : list (pykey * pyvalue)).

Section PythonValues.
Context {R : Runtime}.

(** The str that the encoder makes of a key before it writes it. *)
Definition key_text (k : pykey) : str :=
  match k with
  | KStr s => s
  | KInt z => repr_int z
  | KFloat l => float_repr l
  | KBool true => lit "true"
  | KBool false => lit "false"
  | KNone => lit "null"
  end.

(** The JSON form of a value: what the encoder writes is the text of this
    form, a tuple as an array and every key as a str. *)
Fixpoint to_json (v : pyvalue) : json :=
  match v with
  | PNone => JNull
  | PBool b => JBool b
  | PInt z => JInt z
  | PFloat l => JFloat l
  | PStr s => JStr s
  | PList l => JList (map to_json l)
  | PTuple l => JList (map to_json l)
  | PDict m => JDict (map (fun kv => match kv with (k, x) => (key_text k, to_json x) end) m)
  end.
End PythonValues.

(** A value that [json.load] returned, among the values of Python. *)
Fixpoint of_json (j : json) : pyvalue :=
  match j with
  | JNull => PNone
  | JBool b => PBool b
  | JInt z => PInt z
  | JFloat l => PFloat l
  | JStr s => PStr s
  | JList l => PList (map of_json l)
  | JDict m => PDict (map (fun kv => match kv with (k, x) => (KStr k, of_json x) end) m)
  end.

(** The frame of a text/json request whose content is [r]: [queue_request]
    hands the content to [json.dumps]. *)
Definition frame_of {R : Runtime} (r : pyvalue) (encoding : str) : result bytes :=
  encode_frame {| req_content := CJson (to_json r); req_type := lit "text/json";
                  req_encoding := encoding |}.

(** The claim as the specification words it: whatever value the frame
    encoder takes as text/json content, the decoding steps give it back. *)
Definition content_comes_back_exactly : Prop :=
  forall (R : Runtime) (r : pyvalue) (frame : bytes) (ev : Z) (own : Request),
    frame_of r (lit "utf-8") = Ok frame ->
    exists j,
      response (fst (decode_frame frame (init ev own))) = CJson j /\ of_json j = r.

(** A mapping with an int for a key, and its frame. *)
Definition numbered : pyvalue := PDict [(KInt 1, PStr (lit "a"))].

Definition numbered_frame : bytes :=
  match frame_of (R := cpython) numbered (lit "utf-8") with
  | Ok frame => frame
  | Raise _ => []
  end.

(** Against C3 as stated: the key 1 comes back as the str "1". *)
Lemma int_key_comes_back_as_str : ~ content_comes_back_exactly.
Proof.
  intros H.
  destruct (H cpython numbered numbered_frame EVENT_READ status_request)
    as (j & Hj & Ho); [vm_compute; reflexivity|].
  vm_compute in Hj. injection Hj as <-. discriminate Ho.
Qed.

Example int_key_read_back :
  response (fst (decode_frame (R := cpython) numbered_frame
                   (init EVENT_READ status_request)))
  = CJson (JDict [(lit "1", JStr (lit "a"))]).
Proof. vm_compute. reflexivity. Qed.

(** Bytes written by [_json_encode] are read back by [_json_decode] under
    the same encoding, when its codec gives back what it wrote. *)
Lemma json_decode_encode_num {R : Runtime} (v : json) (encoding : str) (c : Codec)
    (b : bytes) :
  exchanged v = true -> lookup encoding = Some c -> lossless c ->
  _json_encode (CJson v) encoding = Ok b ->
  _json_decode b (JStr encoding) = Ok v.
Proof.
  intros Hp Hl Hc. unfold _json_encode, encode_with, _json_decode. rewrite Hl.
  destruct (codec_encode c (dumps false v)) as [b'|] eqn:E; [|discriminate].
  intros H. injection H as <-.
  now rewrite (Hc _ _ E), loads_dumps_num.
Qed.

(** C3, amended: a value built from None, bool, int, float, str, list and
    dict with str keys (an int within the limit of the conversion to text, a
    float finite) that [queue_request] encodes as text/json, under an
    encoding whose codec decodes what it encodes, is what the three
    decoding steps, run on the bytes of the frame, store as the response;
    the receive buffer is then empty.  When the value is a mapping the
    steps return and the connection is closed; for any other value the
    value is stored and the method then raises AttributeError where it
    reports the result. *)
Theorem frame_round_trip {R : Runtime} (r : json) (encoding : str) (c : Codec)
    (frame : bytes) (ev : Z) (own : Request) :
  exchanged r = true -> lookup encoding = Some c -> lossless c ->
  encode_frame {| req_content := CJson r; req_type := lit "text/json";
                  req_encoding := encoding |} = Ok frame ->
  response (fst (decode_frame frame (init ev own))) = CJson r
  /\ _recv_buffer (fst (decode_frame frame (init ev own))) = []
  /\ match r with
     | JDict _ =>
         snd (decode_frame frame (init ev own)) = Ok tt
         /\ sock_closed (fst (decode_frame frame (init ev own))) = true
         /\ sel_events (fst (decode_frame frame (init ev own))) = None
     | _ =>
         exists e, snd (decode_frame frame (init ev own)) = Raise e
                   /\ exn_class_of e = AttributeError
     end.
Proof.
  intros Hp Hl Hc He.
  destruct (encode_frame_inv _ _ He) as (body & Hm & Hb). cbn [req_type req_encoding req_content] in *.
  change (str_eqb (lit "text/json") (lit "text/json")) with true in Hb.
  destruct Hb as (b & -> & Hb).
  destruct (create_message_inv _ _ _ _ Hm) as (b0 & b1 & hb & cb & E & -> & Hlen & Hhdr).
  injection E as <-.
  pose proof (json_decode_encode_num r encoding c b Hp Hl Hc Hb) as Hd.
  unfold decode_frame, process_protoheader, process_jsonheader, init. run.
  rewrite Hlen.
  destruct (Z.leb_spec (Z.of_nat (length hb)) (Z.of_nat (length (hb ++ b))));
    [|rewrite length_app in *; lia].
  rewrite slice_to_app, slice_from_app, Hhdr.
  rewrite (check_headers_hdr b (lit "text/json") encoding) by reflexivity.
  unfold process_response, header_of. run.
  match goal with
  | |- context [py_getitem ?h (lit "content-length")] =>
      change (py_getitem h (lit "content-length")) with (@Ok json (JInt (Z.of_nat (length b))))
  end.
  cbv iota beta. unfold int_ge, py_index.
  destruct (Z.leb_spec (Z.of_nat (length b)) (Z.of_nat (length b))); [|lia].
  cbv iota beta delta [negb].
  match goal with
  | |- context [py_getitem ?h (lit "content-type")] =>
      change (py_getitem h (lit "content-type")) with (@Ok json (JStr (lit "text/json")))
  end.
  cbv iota beta.
  change (eq_str (JStr (lit "text/json")) (lit "text/json")) with true. cbv iota.
  match goal with
  | |- context [py_getitem ?h (lit "content-encoding")] =>
      change (py_getitem h (lit "content-encoding")) with (@Ok json (JStr encoding))
  end.
  cbv iota beta.
  rewrite slice_to_all, slice_from_all, Hd.
  unfold _process_response_json_content, close. run.
  destruct r; cbv iota beta; cbn [fst snd]; repeat split; try reflexivity;
    eexists; split; reflexivity.
Qed.

(** The frame of the example request, and its value. *)
Definition status_value : json := JDict [(lit "action", JStr (lit "status"))].

Definition status_frame : bytes :=
  match encode_frame (R := cpython) status_request with
  | Ok frame => frame
  | Raise _ => []
  end.

(** A mapping that holds a str, an int and a float, and its frame. *)
Definition load_value : json :=
  JDict [(lit "action", JStr (lit "status")); (lit "jobs", JInt 12);
         (lit "load", JFloat (lit "0.5"))].

Definition load_frame : bytes :=
  match encode_frame (R := cpython)
          {| req_content := CJson load_value; req_type := lit "text/json";
             req_encoding := lit "utf-8" |} with
  | Ok frame => frame
  | Raise _ => []
  end.

Lemma frame_round_trip_witness :
  response (fst (decode_frame (R := cpython) load_frame (init EVENT_READ status_request)))
  = CJson load_value
  /\ _recv_buffer (fst (decode_frame (R := cpython) load_frame
                          (init EVENT_READ status_request))) = []
  /\ snd (decode_frame (R := cpython) load_frame (init EVENT_READ status_request)) = Ok tt
  /\ sock_closed (fst (decode_frame (R := cpython) load_frame
                         (init EVENT_READ status_request))) = true
  /\ sel_events (fst (decode_frame (R := cpython) load_frame
                        (init EVENT_READ status_request))) = None.
Proof.
  apply (frame_round_trip (R := cpython) load_value (lit "utf-8") utf8 load_frame
           EVENT_READ status_request);
    [vm_compute; reflexivity|reflexivity|exact utf8_lossless|vm_compute; reflexivity].
Defined.
(* ------------------------------------------------------------------ *)
(** *** C4: a frame that arrives in pieces *)

(** C4: however the bytes of an encoded frame are split into non-empty
    chunks, reading the chunks one read event each leaves a fresh connection
    in the state, and with the result, of one read of all the bytes; the
    decoded response is a field of that state. *)
Theorem partial_delivery_invariance {R : Runtime} (request : Request) (frame : bytes)
    (chunks : list bytes) (ev : Z) (own : Request) :
  encode_frame request = Ok frame ->
  concat chunks = frame ->
  Forall (fun c => c <> []) chunks ->
  reads (map Ok chunks) (init ev own) = read (Ok frame) (init ev own).
Proof.
  intros He Hc Hall.
  destruct (encode_frame_inv _ _ He) as (body & Hm & _).
  destruct (create_message_inv _ _ _ _ Hm) as (b0 & b1 & hb & cb & _ & -> & Hlen & Hhdr).
  now apply (reads_chunks ev own b0 b1 hb cb _ _ Hlen Hhdr).
Qed.

Lemma partial_delivery_invariance_witness :
  reads (R := cpython)
    (map Ok [firstn 1 status_frame; firstn 40 (skipn 1 status_frame);
             skipn 41 status_frame])
    (init EVENT_READ status_request)
  = read (R := cpython) (Ok status_frame) (init EVENT_READ status_request).
Proof.
  apply (partial_delivery_invariance (R := cpython) status_request status_frame
           [firstn 1 status_frame; firstn 40 (skipn 1 status_frame);
            skipn 41 status_frame] EVENT_READ status_request);
    [vm_compute; reflexivity|vm_compute; reflexivity|].
  repeat constructor; vm_compute; discriminate.
Defined.

(* ------------------------------------------------------------------ *)
(** *** C5: the declared content length *)

(** The claim as the specification words it: with fewer bytes buffered than
    the header declares the payload step leaves the buffer alone, and what
    it takes as the payload of a frame has exactly the declared length. *)
Definition declared_length_is_exact : Prop :=
  forall (R : Runtime) (m : Message) (n : Z),
    py_getitem (jsonheader m) (lit "content-length") = Ok (JInt n) ->
    ((Z.of_nat (length (_recv_buffer m)) < n)%Z ->
     _recv_buffer (fst (process_response m)) = _recv_buffer m)
    /\ (forall payload,
          response m = CJson JNull ->
          response (fst (process_response m)) = CBytes payload ->
          Z.of_nat (length payload) = n).

(** A connection whose header declares [n] bytes of an opaque content type
    and whose buffer holds [buf]. *)
Definition awaiting_payload (n : Z) (buf : bytes) : Message :=
  set_recv_buffer buf
    (set_jsonheader
       (JDict [(lit "byteorder", JStr (lit "little"));
               (lit "content-type", JStr (lit "application/octet-stream"));
               (lit "content-encoding", JStr (lit "binary"));
               (lit "content-length", JInt n)])
       (set_jsonheader_len (Some 115%Z) (init EVENT_READ status_request))).

(** Against C5 as stated: a header that declares -1 bytes is taken as
    complete at once, with all but the last buffered byte as payload. *)
Lemma negative_length_is_accepted : ~ declared_length_is_exact.
Proof.
  intros H.
  destruct (H cpython (awaiting_payload (-1) (ascii_bytes (lit "hello"))) (-1)%Z
              eq_refl) as [_ H2].
  specialize (H2 (ascii_bytes (lit "hell")) eq_refl eq_refl).
  discriminate H2.
Qed.

(** What taking the first [n] buffered bytes as the payload comes to: they
    leave the buffer; under the content type text/json they, and nothing
    else, are decoded with the content encoding of the header, and the value
    read is stored as the response (an exception of the decoder is raised,
    and no response stored); under any other content type they are stored
    as the response themselves, and the connection is closed. *)
Definition payload_taken {R : Runtime} (m : Message) (n : Z) : Prop :=
  let payload := firstn (Z.to_nat n) (_recv_buffer m) in
  let taken := set_recv_buffer (skipn (Z.to_nat n) (_recv_buffer m)) m in
  Z.of_nat (length payload) = n
  /\ _recv_buffer (fst (process_response m)) = skipn (Z.to_nat n) (_recv_buffer m)
  /\ (forall e, py_getitem (jsonheader m) (lit "content-type") = Raise e ->
      process_response m = (taken, Raise e))
  /\ (forall ctype,
        py_getitem (jsonheader m) (lit "content-type") = Ok ctype ->
        eq_str ctype (lit "text/json") = false ->
        process_response m = close (set_response (CBytes payload) taken))
  /\ (forall ctype e,
        py_getitem (jsonheader m) (lit "content-type") = Ok ctype ->
        eq_str ctype (lit "text/json") = true ->
        py_getitem (jsonheader m) (lit "content-encoding") = Raise e ->
        process_response m = (taken, Raise e))
  /\ (forall ctype encoding,
        py_getitem (jsonheader m) (lit "content-type") = Ok ctype ->
        eq_str ctype (lit "text/json") = true ->
        py_getitem (jsonheader m) (lit "content-encoding") = Ok encoding ->
        match _json_decode payload encoding with
        | Raise e => process_response m = (taken, Raise e)
        | Ok obj =>
            process_response m
            = (_process_response_json_content ;; close) (set_response (CJson obj) taken)
        end).

(** C5, amended: for a header that declares a non-negative integer n, the
    payload step leaves the whole connection state unchanged while the
    buffer holds fewer than n bytes; once it holds n bytes or more the step
    takes exactly the first n bytes as the payload: it removes them from the
    buffer, where the bytes beyond them stay, and it is those n bytes that
    it decodes (content type text/json) or stores (any other content
    type). *)
Theorem length_authority {R : Runtime} (m : Message) (cl : json) (n : Z) :
  py_getitem (jsonheader m) (lit "content-length") = Ok cl ->
  py_index cl = Ok n -> (0 <= n)%Z ->
  if (Z.of_nat (length (_recv_buffer m)) <? n)%Z
  then process_response m = (m, Ok tt)
  else payload_taken m n.
Proof.
  intros Hcl Hn H0.
  assert (Hge : int_ge (Z.of_nat (length (_recv_buffer m))) cl
                = Ok (n <=? Z.of_nat (length (_recv_buffer m)))%Z).
  { destruct cl; cbn in Hn; try discriminate; injection Hn as <-; reflexivity. }
  assert (P : if (Z.of_nat (length (_recv_buffer m)) <? n)%Z
              then process_response m = (m, Ok tt)
              else process_response m
                   = ((update (set_recv_buffer (skipn (Z.to_nat n) (_recv_buffer m))) ;;
                       content_type <- lift (py_getitem (jsonheader m) (lit "content-type")) ;;
                       (if eq_str content_type (lit "text/json") then
                          encoding <- lift (py_getitem (jsonheader m) (lit "content-encoding")) ;;
                          obj <- lift (_json_decode (firstn (Z.to_nat n) (_recv_buffer m))
                                         encoding) ;;
                          update (set_response (CJson obj)) ;;
                          _process_response_json_content
                        else
                          update (set_response (CBytes (firstn (Z.to_nat n) (_recv_buffer m)))) ;;
                          _process_response_binary_content) ;;
                       close) m)).
  { assert (St : slice_to (_recv_buffer m) n = firstn (Z.to_nat n) (_recv_buffer m)).
    { unfold slice_to. now destruct (Z.leb_spec 0 n); [|lia]. }
    assert (Sf : slice_from (_recv_buffer m) n = skipn (Z.to_nat n) (_recv_buffer m)).
    { unfold slice_from. now destruct (Z.leb_spec 0 n); [|lia]. }
    unfold process_response, bind, get, lift, update.
    rewrite Hcl, Hge, Hn, St, Sf.
    destruct (Z.ltb_spec (Z.of_nat (length (_recv_buffer m))) n) as [Hlt|Hle].
    - destruct (Z.leb_spec n (Z.of_nat (length (_recv_buffer m)))); [lia|]. reflexivity.
    - destruct (Z.leb_spec n (Z.of_nat (length (_recv_buffer m)))); [|lia].
      reflexivity. }
  destruct (Z.ltb_spec (Z.of_nat (length (_recv_buffer m))) n) as [Hlt|Hle]; [exact P|].
  unfold payload_taken. cbv zeta. rewrite P. clear P.
  split; [rewrite length_firstn; lia|].
  unfold bind, update, lift, _process_response_binary_content, ret.
  split.
  { destruct (py_getitem (jsonheader m) (lit "content-type")) as [ctype|e]; [|reflexivity].
    destruct (eq_str ctype (lit "text/json")).
    - destruct (py_getitem (jsonheader m) (lit "content-encoding")) as [enc|e]; [|reflexivity].
      destruct (_json_decode _ enc) as [obj|e]; [|reflexivity].
      unfold _process_response_json_content, close, bind, get, update, error, raise, ret.
      destruct m as [se sc ss sk rq rb sb qd jl jh rs].
      destruct obj; destruct sk; reflexivity.
    - unfold close, bind, get, update, error, raise, ret.
      destruct m as [se sc ss sk rq rb sb qd jl jh rs]. destruct sk; reflexivity. }
  split; [intros e ->; reflexivity|].
  split.
  { intros ctype -> ->. destruct (close _) as [m' [[]|e]]; reflexivity. }
  split; [intros ctype e -> -> ->; reflexivity|].
  intros ctype encoding -> -> ->.
  destruct (_json_decode _ encoding) as [obj|e]; [|reflexivity].
  unfold bind.
  destruct (_process_response_json_content _) as [m1 [[]|e1]]; [|reflexivity].
  destruct (close m1) as [m' [[]|e]]; reflexivity.
Qed.

(** Seven bytes behind a header that declares five bytes of an opaque
    content type. *)
Definition two_bytes_over : Message := awaiting_payload 5 (ascii_bytes (lit "hello, ")).

Lemma length_authority_witness :
  process_response (R := cpython) (awaiting_payload 5 (ascii_bytes (lit "hel")))
  = (awaiting_payload 5 (ascii_bytes (lit "hel")), Ok tt)
  /\ payload_taken (R := cpython) two_bytes_over 5.
Proof.
  split.
  - apply (length_authority (R := cpython) (awaiting_payload 5 (ascii_bytes (lit "hel")))
             (JInt 5) 5); [reflexivity|reflexivity|lia].
  - apply (length_authority (R := cpython) two_bytes_over (JInt 5) 5);
      [reflexivity|reflexivity|lia].
Defined.

(** What the step leaves of those seven bytes. *)
Example two_bytes_stay :
  process_response (R := cpython) two_bytes_over
  = (set_sock false
       (set_sock_closed true
          (set_sel_events None
             (set_response (CBytes (ascii_bytes (lit "hello")))
                (set_recv_buffer (ascii_bytes (lit ", ")) two_bytes_over)))),
     Ok tt).
Proof. reflexivity. Qed.
(* ------------------------------------------------------------------ *)
(** *** C6: a header that lacks a required key *)

(** The header is a mapping that holds the key. *)
Definition holds_key (hdr : json) (key : str) : bool :=
  match hdr with
  | JDict hm => match dict_get hm key with Some _ => true | None => false end
  | _ => false
  end.

(** The claim as the specification words it, the four keys read as the
    code spells them: a header that is valid JSON and does not hold one of
    the four keys makes the header step fail. *)
Definition missing_key_is_refused : Prop :=
  forall (R : Runtime) (m : Message) (hdrlen : Z) (hdr : json) (key : str),
    _jsonheader_len m = Some hdrlen ->
    (hdrlen <= Z.of_nat (length (_recv_buffer m)))%Z ->
    _json_decode (slice_to (_recv_buffer m) hdrlen) (JStr (lit "utf-8")) = Ok hdr ->
    In key required_headers -> holds_key hdr key = false ->
    exists e, snd (process_jsonheader m) = Raise e.

(** A header that is a JSON array of the names the code looks for. *)
Definition listing_header : bytes :=
  ascii_bytes (lit "['byteorder', 'content-length', 'content-type', 'content-encoding']").

Definition awaiting_listing : Message :=
  set_recv_buffer listing_header
    (set_jsonheader_len (Some (Z.of_nat (length listing_header)))
       (init EVENT_READ status_request)).

(** Against C6 as stated: the array is valid JSON and holds no key at all,
    and the header step accepts it. *)
Lemma array_header_is_accepted : ~ missing_key_is_refused.
Proof.
  intros H.
  destruct (H cpython awaiting_listing (Z.of_nat (length listing_header))
              (JList [JStr (lit "byteorder"); JStr (lit "content-length");
                      JStr (lit "content-type"); JStr (lit "content-encoding")])
              (lit "byteorder")) as [e He];
    [reflexivity|vm_compute; discriminate|vm_compute; reflexivity
    |left; reflexivity|reflexivity|].
  vm_compute in He. discriminate He.
Qed.

(** The specification writes the keys byteOrder, contentType,
    contentEncoding and contentLength; the header that [_create_message]
    writes holds none of them under these spellings, and is accepted. *)
Example own_header_is_accepted :
  holds_key (header_of (R := cpython) (lit "text/json") (lit "utf-8") 0) (lit "byteOrder")
  = false
  /\ check_headers required_headers
       (set_jsonheader (header_of (R := cpython) (lit "text/json") (lit "utf-8") 0)
          (init EVENT_READ status_request))
     = (set_jsonheader (header_of (R := cpython) (lit "text/json") (lit "utf-8") 0)
          (init EVENT_READ status_request), Ok tt).
Proof. split; reflexivity. Qed.

(** The loop over the required keys raises at the first one a mapping
    lacks. *)
Lemma check_headers_first_missing {R : Runtime} (names : list str) (m : Message)
    (hm : list (str * json)) (key : str) :
  jsonheader m = JDict hm -> In key names -> dict_get hm key = None ->
  exists present k absent,
    names = present ++ k :: absent
    /\ (forall k', In k' present -> dict_get hm k' <> None)
    /\ dict_get hm k = None
    /\ check_headers names m
       = (m, Raise (Exc ValueError (lit "Missing required header '" ++ k ++ lit "'."))).
Proof.
  intros Hj. induction names as [|k0 names IH]; intros Hin Hk; [contradiction|].
  cbn [check_headers]. unfold bind, get, lift, raise. rewrite Hj. cbn [py_in].
  destruct (dict_get hm k0) as [v|] eqn:E0.
  - destruct Hin as [->|Hin]; [congruence|].
    destruct (IH Hin Hk) as (present & k & absent & -> & Hp & Hn & Hc).
    exists (k0 :: present), k, absent. split; [reflexivity|].
    split; [|split; assumption].
    intros k' [<-|Hk']; [congruence|now apply Hp].
  - exists [], k0, names. split; [reflexivity|]. split; [intros k' []|].
    split; [assumption|reflexivity].
Qed.

(** C6, amended: when the bytes of the header are there and decode to a
    JSON object that lacks one of byteorder, content-length, content-type
    and content-encoding, [process_jsonheader] raises ValueError naming the
    first of these keys, in that order, that the object lacks.  The state
    it raises in is the one the decoding left: the object stored as the
    header, its bytes taken from the receive buffer, nothing else
    changed. *)
Theorem missing_header_key_rejected {R : Runtime} (m : Message) (hdrlen : Z)
    (hm : list (str * json)) (key : str) :
  _jsonheader_len m = Some hdrlen ->
  (hdrlen <= Z.of_nat (length (_recv_buffer m)))%Z ->
  _json_decode (slice_to (_recv_buffer m) hdrlen) (JStr (lit "utf-8")) = Ok (JDict hm) ->
  In key [lit "byteorder"; lit "content-length"; lit "content-type"; lit "content-encoding"] ->
  dict_get hm key = None ->
  exists present k absent,
    [lit "byteorder"; lit "content-length"; lit "content-type"; lit "content-encoding"]
    = present ++ k :: absent
    /\ (forall k', In k' present -> dict_get hm k' <> None)
    /\ dict_get hm k = None
    /\ process_jsonheader m
       = (set_recv_buffer (slice_from (_recv_buffer m) hdrlen) (set_jsonheader (JDict hm) m),
          Raise (Exc ValueError (lit "Missing required header '" ++ k ++ lit "'."))).
Proof.
  intros Hl Hb Hd Hin Hk. unfold process_jsonheader, bind, get, lift, update.
  rewrite Hl. destruct (Z.leb_spec hdrlen (Z.of_nat (length (_recv_buffer m)))); [|lia].
  rewrite Hd.
  match goal with
  | |- context [check_headers required_headers ?m'] =>
      destruct (check_headers_first_missing required_headers m' hm key)
        as (present & k & absent & E & Hp & Hn & ->)
  end; [destruct m; reflexivity|assumption|assumption|].
  exists present, k, absent. repeat split; assumption.
Qed.

(** The same for any JSON value the header bytes decode to: unless every
    required key is [in] it, the step raises (TypeError when the value is
    no container at all). *)
Lemma header_without_key_raises {R : Runtime} (m : Message) (hdrlen : Z) (hdr : json) (key : str) :
  _jsonheader_len m = Some hdrlen ->
  (hdrlen <= Z.of_nat (length (_recv_buffer m)))%Z ->
  _json_decode (slice_to (_recv_buffer m) hdrlen) (JStr (lit "utf-8")) = Ok hdr ->
  In key required_headers ->
  py_in key hdr <> Ok true ->
  exists e, snd (process_jsonheader m) = Raise e
            /\ (exn_class_of e = ValueError \/ exn_class_of e = TypeError).
Proof.
  intros Hl Hb Hd Hin Hk. unfold process_jsonheader, bind, get, lift, update.
  rewrite Hl. destruct (Z.leb_spec hdrlen (Z.of_nat (length (_recv_buffer m)))); [|lia].
  rewrite Hd.
  match goal with
  | |- context [check_headers required_headers ?m'] =>
      destruct (check_headers_missing required_headers m' key Hin) as (e & -> & He)
  end; [destruct m; exact Hk|].
  exists e. split; [reflexivity|assumption].
Qed.

(** A header without content-length, buffered whole. *)
Definition short_header : bytes :=
  ascii_bytes (lit "{'byteorder': 'little', 'content-type': 'text/json', 'content-encoding': 'utf-8'}").

Definition short_header_map : list (str * json) :=
  [(lit "byteorder", JStr (lit "little"));
   (lit "content-type", JStr (lit "text/json"));
   (lit "content-encoding", JStr (lit "utf-8"))].

Definition awaiting_header : Message :=
  set_recv_buffer short_header
    (set_jsonheader_len (Some (Z.of_nat (length short_header)))
       (init EVENT_READ status_request)).

Lemma missing_header_key_rejected_witness :
  exists present k absent,
    [lit "byteorder"; lit "content-length"; lit "content-type"; lit "content-encoding"]
    = present ++ k :: absent
    /\ (forall k', In k' present -> dict_get short_header_map k' <> None)
    /\ dict_get short_header_map k = None
    /\ process_jsonheader (R := cpython) awaiting_header
       = (set_recv_buffer (slice_from (_recv_buffer awaiting_header)
                             (Z.of_nat (length short_header)))
            (set_jsonheader (JDict short_header_map) awaiting_header),
          Raise (Exc ValueError (lit "Missing required header '" ++ k ++ lit "'."))).
Proof.
  apply (missing_header_key_rejected (R := cpython) awaiting_header
           (Z.of_nat (length short_header)) short_header_map (lit "content-length"));
    [reflexivity|vm_compute; discriminate|vm_compute; reflexivity| |reflexivity].
  right. left. reflexivity.
Defined.
(* ------------------------------------------------------------------ *)
(** *** C9: the write step *)

(** The write step, with its result named. *)
Lemma write_let {R : Runtime} (m : Message) (send : result nat) :
  (let (m', res) := write send m in
   sock_closed m' = sock_closed m /\ sock m' = sock m /\
   (sel_events m' = sel_events m
    \/ (sel_events m <> None /\ sel_events m' = Some EVENT_READ)))
  /\ (forall k buf,
        _request_queued m = true -> sock m = true -> sel_events m <> None ->
        _send_buffer m = buf -> buf <> [] -> send = Ok k ->
        let (m', res) := write send m in
        res = Ok tt
        /\ sock_sent m' = sock_sent m ++ firstn k buf
        /\ _send_buffer m' = skipn k buf
        /\ sel_events m' = match skipn k buf with
                           | [] => Some EVENT_READ
                           | _ :: _ => sel_events m
                           end).
Proof.
  split.
  - unfold write, bind, get, ret.
    assert (K : forall m1 : Message,
              sock_closed m1 = sock_closed m /\ sock m1 = sock m
              /\ sel_events m1 = sel_events m ->
              let (m', res) :=
                (let (m2, r) := _write send m1 in
                 match r with
                 | Ok _ =>
                     (if _request_queued m2
                      then fun m3 =>
                             match _send_buffer m3 with
                             | [] => _set_selector_events_mask (lit "r")
                             | _ :: _ => fun m4 => (m4, Ok tt)
                             end m3
                      else fun m3 => (m3, Ok tt)) m2
                 | Raise e => (m2, Raise e)
                 end) in
              sock_closed m' = sock_closed m /\ sock m' = sock m /\
              (sel_events m' = sel_events m
               \/ (sel_events m <> None /\ sel_events m' = Some EVENT_READ))).
    { intros m1 (H1 & H2 & H3).
      pose proof (_write_keeps m1 send) as W.
      destruct (_write send m1) as [m2 [[]|e]]; destruct W as (W1 & W2 & W3);
        [|repeat split; try congruence; left; congruence].
      destruct (_request_queued m2); [|repeat split; try congruence; left; congruence].
      destruct (_send_buffer m2); [|repeat split; try congruence; left; congruence].
      pose proof (set_mask_r m2) as Sm.
      destruct (_set_selector_events_mask (lit "r") m2) as [m3 r3].
      destruct Sm as (S1 & S2 & S3). split; [congruence|split; [congruence|]].
      destruct S3 as [S3|[S3 S4]]; [left; congruence|right; split; congruence]. }
    destruct (_request_queued m); cbn [negb].
    + apply K. repeat split.
    + pose proof (queue_request_keeps m) as Q.
      destruct (queue_request m) as [m1 [[]|e]]; destruct Q as (Q1 & Q2 & Q3 & _).
      * apply K. repeat split; assumption.
      * repeat split; try assumption. now left.
  - intros k buf Hq Hs He Hb Hne ->. rewrite write_queued by assumption.
    unfold _write, _set_selector_events_mask, selector_modify, bind, get, update, ret.
    rewrite Hb. destruct buf as [|x buf]; [contradiction|].
    rewrite Hs. cbn [negb].
    change (str_eqb (lit "r") (lit "r")) with true. cbv iota.
    destruct m as [se sc ss sk rq rb sb qd jl jh rs].
    cbn [Msg.sock Msg.sel_events Msg._send_buffer Msg.sock_sent set_sock_sent
         set_send_buffer set_sel_events sock_closed request _recv_buffer _request_queued
         _jsonheader_len jsonheader response] in *.
    subst sk.
    destruct (skipn k (x :: buf)) eqn:Ek; cbn [negb].
    + destruct se; [|contradiction]. repeat split.
    + repeat split.
Qed.

(** [queue_request] appends the frame of the request to the send buffer, or
    raises and changes nothing. *)
Lemma queue_request_frame {R : Runtime} (m : Message) :
  queue_request m =
  match encode_frame (request m) with
  | Ok f => (set_request_queued true (set_send_buffer (_send_buffer m ++ f) m), Ok tt)
  | Raise e => (m, Raise e)
  end.
Proof.
  unfold encode_frame, queue_request, bind, get, lift, ret, update. cbn [request init].
  destruct (str_eqb (req_type (request m)) (lit "text/json")).
  - destruct (_json_encode (req_content (request m)) (req_encoding (request m)));
      [|reflexivity].
    destruct (_create_message _ _ _); reflexivity.
  - destruct (_create_message _ _ _); reflexivity.
Qed.

(** The first write event of a connection queues the request. *)
Lemma first_write {R : Runtime} (m : Message) (send : result nat) (f : bytes) :
  _request_queued m = false -> encode_frame (request m) = Ok f ->
  write send m
  = write send (set_request_queued true (set_send_buffer (_send_buffer m ++ f) m)).
Proof.
  intros Hq Hf. unfold write at 1. unfold bind at 1 2. unfold get at 1. rewrite Hq.
  cbn [negb]. rewrite queue_request_frame, Hf.
  unfold write, bind, get. reflexivity.
Qed.

Lemma first_write_fails {R : Runtime} (m : Message) (send : result nat) (e : exn) :
  _request_queued m = false -> encode_frame (request m) = Raise e ->
  write send m = (m, Raise e).
Proof.
  intros Hq Hf. unfold write, bind, get. rewrite Hq. cbn [negb].
  now rewrite queue_request_frame, Hf.
Qed.

(** The bytes a write event has to hand to the socket: the send buffer,
    behind which the frame of the request is queued first when it has not
    been queued yet. *)
Definition pending {R : Runtime} (m : Message) : result bytes :=
  if _request_queued m then Ok (_send_buffer m)
  else
    match encode_frame (request m) with
    | Ok frame => Ok (_send_buffer m ++ frame)
    | Raise e => Raise e
    end.

(** A send that would block leaves a queued connection as it is. *)
Lemma write_blocked {R : Runtime} (m : Message) (e : exn) :
  _request_queued m = true -> _send_buffer m <> [] -> sock m = true ->
  exn_class_of e = BlockingIOError ->
  write (Raise e) m = (m, Ok tt).
Proof.
  intros Hq Hb Hs He. destruct m as [se sc ss sk rq rb sb qd jl jh rs].
  cbn [_request_queued _send_buffer sock] in *. subst qd sk.
  destruct sb as [|x buf]; [contradiction|].
  unfold write, _write. run. cbn [negb]. rewrite He. reflexivity.
Qed.

(** A send that fails otherwise raises, and leaves a queued connection as
    it is. *)
Lemma write_fails {R : Runtime} (m : Message) (e : exn) :
  _request_queued m = true -> _send_buffer m <> [] -> sock m = true ->
  exn_class_of e <> BlockingIOError ->
  write (Raise e) m = (m, Raise e).
Proof.
  intros Hq Hb Hs He. destruct m as [se sc ss sk rq rb sb qd jl jh rs].
  cbn [_request_queued _send_buffer sock] in *. subst qd sk.
  destruct sb as [|x buf]; [contradiction|].
  unfold write, _write. run. cbn [negb].
  destruct (exn_class_of e); try reflexivity. now contradiction He.
Qed.

(** With nothing left to send, nothing is sent. *)
Lemma write_drained {R : Runtime} (m : Message) (send : result nat) :
  _request_queued m = true -> _send_buffer m = [] -> sock m = true ->
  sel_events m <> None ->
  write send m = (set_sel_events (Some EVENT_READ) m, Ok tt).
Proof.
  intros Hq Hb Hs He. destruct m as [se sc ss sk rq rb sb qd jl jh rs].
  cbn [_request_queued _send_buffer sock sel_events] in *. subst qd sk sb.
  destruct se as [ev|]; [reflexivity|contradiction].
Qed.

(** A send that takes [k] bytes of a queued connection. *)
Lemma write_sends {R : Runtime} (m : Message) (k : nat) :
  _request_queued m = true -> _send_buffer m <> [] -> sock m = true ->
  sel_events m <> None ->
  write (Ok k) m
  = (set_sel_events
       (match skipn k (_send_buffer m) with
        | [] => Some EVENT_READ
        | _ :: _ => sel_events m
        end)
       (set_send_buffer (skipn k (_send_buffer m))
          (set_sock_sent (sock_sent m ++ firstn k (_send_buffer m)) m)),
     Ok tt).
Proof.
  intros Hq Hb Hs He. destruct m as [se sc ss sk rq rb sb qd jl jh rs].
  cbn [_request_queued _send_buffer sock sel_events sock_sent] in *. subst qd sk.
  destruct sb as [|x buf]; [contradiction|].
  destruct se as [ev|]; [|contradiction].
  unfold write, _write, _set_selector_events_mask, selector_modify. run. cbn [negb].
  change (str_eqb (lit "r") (lit "r")) with true. cbv iota.
  destruct (skipn k (x :: buf)); reflexivity.
Qed.

(** The claim as the specification words it: a write step that leaves the
    send buffer empty closes the connection and unregisters it. *)
Definition drained_connection_is_closed : Prop :=
  forall (R : Runtime) (m : Message) (send : result nat),
    snd (write send m) = Ok tt ->
    _send_buffer (fst (write send m)) = [] ->
    sock_closed (fst (write send m)) = true
    /\ sel_events (fst (write send m)) = None.

(** Against C9 as stated: the connection that has sent its whole request is
    still open, and registered for read events. *)
Lemma drained_connection_stays_open : ~ drained_connection_is_closed.
Proof.
  intros H.
  destruct (H cpython (init EVENT_WRITE status_request) (Ok (length status_frame)))
    as [Hc _];
    [vm_compute; reflexivity|vm_compute; reflexivity|].
  vm_compute in Hc. discriminate Hc.
Qed.

(** C9, amended: no write step closes the socket or unregisters the
    connection; every write step, the first one after it has queued the
    frame of the request, offers the whole send buffer to the socket and
    drops from the buffer the bytes the socket took (none when the send
    would block; a send that fails otherwise makes the step raise), and in
    the state where the buffer becomes empty it switches the registration
    of the connection to read events only.  A request that cannot be framed
    makes the step raise and change nothing. *)
Theorem write_drains_then_listens {R : Runtime} (m : Message) (send : result nat) :
  (sock_closed (fst (write send m)) = sock_closed m
   /\ sock (fst (write send m)) = sock m
   /\ (sel_events (fst (write send m)) = sel_events m
       \/ (sel_events m <> None /\ sel_events (fst (write send m)) = Some EVENT_READ)))
  /\ (forall e, pending m = Raise e -> write send m = (m, Raise e))
  /\ (forall buf k,
        pending m = Ok buf -> buf <> [] ->
        sock m = true -> sel_events m <> None -> send = Ok k ->
        snd (write send m) = Ok tt
        /\ _request_queued (fst (write send m)) = true
        /\ sock_sent (fst (write send m)) = sock_sent m ++ firstn k buf
        /\ _send_buffer (fst (write send m)) = skipn k buf
        /\ sel_events (fst (write send m))
           = match skipn k buf with
             | [] => Some EVENT_READ
             | _ :: _ => sel_events m
             end)
  /\ (forall buf e,
        pending m = Ok buf -> buf <> [] -> sock m = true ->
        send = Raise e -> exn_class_of e = BlockingIOError ->
        snd (write send m) = Ok tt
        /\ _request_queued (fst (write send m)) = true
        /\ sock_sent (fst (write send m)) = sock_sent m
        /\ _send_buffer (fst (write send m)) = buf
        /\ sel_events (fst (write send m)) = sel_events m)
  /\ (forall buf e,
        pending m = Ok buf -> buf <> [] -> sock m = true ->
        send = Raise e -> exn_class_of e <> BlockingIOError ->
        snd (write send m) = Raise e
        /\ sock_sent (fst (write send m)) = sock_sent m
        /\ _send_buffer (fst (write send m)) = buf
        /\ sel_events (fst (write send m)) = sel_events m)
  /\ (pending m = Ok [] -> sock m = true -> sel_events m <> None ->
      write send m = (set_sel_events (Some EVENT_READ) m, Ok tt)).
Proof.
  split; [|split; [|split; [|split; [|split]]]].
  - pose proof (write_let m send) as [H1 _].
    destruct (write send m) as [m' res]. exact H1.
  - unfold pending. intros e He.
    destruct (_request_queued m) eqn:Hq; [discriminate He|].
    destruct (encode_frame (request m)) as [f|e'] eqn:Ef; [discriminate He|].
    injection He as ->. now apply first_write_fails.
  - unfold pending. intros buf k Hp Hne Hs He ->.
    destruct (_request_queued m) eqn:Hq.
    + injection Hp as <-. rewrite (write_sends m k Hq Hne Hs He).
      repeat split. exact Hq.
    + destruct (encode_frame (request m)) as [f|e'] eqn:Ef; [|discriminate Hp].
      injection Hp as <-. rewrite (first_write m (Ok k) f Hq Ef).
      rewrite (write_sends (set_request_queued true (set_send_buffer (_send_buffer m ++ f) m))
                 k eq_refl Hne Hs He). repeat split.
  - unfold pending. intros buf e Hp Hne Hs -> He.
    destruct (_request_queued m) eqn:Hq.
    + injection Hp as <-. rewrite (write_blocked m e Hq Hne Hs He).
      repeat split. exact Hq.
    + destruct (encode_frame (request m)) as [f|e'] eqn:Ef; [|discriminate Hp].
      injection Hp as <-. rewrite (first_write m (Raise e) f Hq Ef).
      rewrite (write_blocked (set_request_queued true (set_send_buffer (_send_buffer m ++ f) m))
                 e eq_refl Hne Hs He). repeat split.
  - unfold pending. intros buf e Hp Hne Hs -> He.
    destruct (_request_queued m) eqn:Hq.
    + injection Hp as <-. rewrite (write_fails m e Hq Hne Hs He). repeat split.
    + destruct (encode_frame (request m)) as [f|e'] eqn:Ef; [|discriminate Hp].
      injection Hp as <-. rewrite (first_write m (Raise e) f Hq Ef).
      rewrite (write_fails (set_request_queued true (set_send_buffer (_send_buffer m ++ f) m))
                 e eq_refl Hne Hs He). repeat split.
  - unfold pending. intros Hp Hs He.
    destruct (_request_queued m) eqn:Hq.
    + injection Hp as Hb. now apply write_drained.
    + destruct (encode_frame (request m)) as [f|e'] eqn:Ef; [|discriminate Hp].
      injection Hp as Hb. apply app_eq_nil in Hb as [_ ->].
      destruct (encode_frame_inv _ _ Ef) as (body & Hm & _).
      destruct (create_message_inv _ _ _ _ Hm) as (? & ? & ? & ? & _ & E & _).
      discriminate E.
Qed.
(* ================================================================== *)
(** * Further properties of the code *)
(* ================================================================== *)

(** ** The request text of [send_message]: [json.dumps] with its default
    [ensure_ascii=True] *)

(** A code point of well-formed text: below U+110000 and no surrogate. *)
Definition scalar (c : N) : bool := (c <? 0x110000)%N && negb (Utf8.is_surrogate c).

(** A value without float whose strings and keys are well-formed text. *)
Fixpoint well_formed (v : json) : bool :=
  match v with
  | JFloat _ => false
  | JStr s => forallb scalar s
  | JList l => forallb well_formed l
  | JDict m =>
      keys_distinct (map fst m)
      && forallb (fun kv => match kv with (k, x) => forallb scalar k && well_formed x end) m
  | _ => true
  end.

Lemma lor_high_low (a b : N) :
  (b < 1024)%N -> N.lor (a * 1024) b = (a * 1024 + b)%N.
Proof.
  intros Hb.
  assert (L : N.land (a * 1024) b = 0%N).
  { apply N.bits_inj. intros i. rewrite N.land_spec, N.bits_0.
    destruct (N.lt_ge_cases i 10) as [Hi|Hi].
    - change 1024%N with (2 ^ 10)%N. now rewrite N.mul_pow2_bits_low.
    - destruct (N.eq_dec b 0) as [->|Hb0]; [now rewrite N.bits_0, andb_false_r|].
      rewrite (N.bits_above_log2 b i), andb_false_r; [reflexivity|].
      apply N.log2_lt_pow2; [lia|].
      apply N.lt_le_trans with (2 ^ 10)%N; [exact Hb|].
      apply N.pow_le_mono_r; [discriminate|exact Hi]. }
  now rewrite <- N.lxor_lor, <- N.add_nocarry_lxor.
Qed.

(** The surrogate pair [json.dumps] writes for a code point above U+FFFF. *)
Definition high_surrogate (c : N) : N :=
  N.lor 0xD800 (N.land (N.shiftr (c - 0x10000) 10) 0x3FF).

Definition low_surrogate (c : N) : N :=
  N.lor 0xDC00 (N.land (c - 0x10000) 0x3FF).

Lemma high_surrogate_eq (c : N) :
  (0x10000 <= c < 0x110000)%N ->
  high_surrogate c = (0xD800 + (c - 0x10000) / 1024)%N.
Proof.
  intros H. unfold high_surrogate.
  rewrite N.shiftr_div_pow2. change (2 ^ 10)%N with 1024%N.
  change 0x3FF%N with (N.ones 10). rewrite N.land_ones. change (2 ^ 10)%N with 1024%N.
  rewrite N.mod_small by lia.
  change 0xD800%N with (54 * 1024)%N. rewrite lor_high_low by lia. reflexivity.
Qed.

Lemma low_surrogate_eq (c : N) :
  low_surrogate c = (0xDC00 + (c - 0x10000) mod 1024)%N.
Proof.
  unfold low_surrogate.
  change 0x3FF%N with (N.ones 10). rewrite N.land_ones. change (2 ^ 10)%N with 1024%N.
  change 0xDC00%N with (55 * 1024)%N. rewrite lor_high_low by lia. reflexivity.
Qed.

Lemma scanstring_u_escape_bmp (c : N) (t : str) :
  (c < 0x10000)%N -> Utf8.is_surrogate c = false ->
  scanstring (u_escape c ++ t) =
  match scanstring t with Some (x, rest) => Some (c :: x, rest) | None => None end.
Proof.
  intros H Hs. unfold u_escape. cbn [app scanstring].
  change (92 =? 34)%N with false. change (92 =? 92)%N with true.
  change (117 =? 117)%N with true. cbv iota.
  rewrite hex4_u_escape by lia.
  unfold Utf8.is_surrogate in Hs.
  destruct (N.leb_spec 0xD800 c); [|reflexivity].
  destruct (N.leb_spec c 0xDBFF); [|reflexivity].
  destruct (N.leb_spec c 0xDFFF); [discriminate|lia].
Qed.

Lemma scanstring_surrogate_pair (c : N) (t : str) :
  (0x10000 <= c < 0x110000)%N ->
  scanstring (u_escape (high_surrogate c) ++ u_escape (low_surrogate c) ++ t) =
  match scanstring t with Some (x, rest) => Some (c :: x, rest) | None => None end.
Proof.
  intros H. rewrite high_surrogate_eq, low_surrogate_eq by assumption.
  set (hi := (0xD800 + (c - 0x10000) / 1024)%N).
  set (lo := (0xDC00 + (c - 0x10000) mod 1024)%N).
  assert (Hhi : (0xD800 <= hi <= 0xDBFF)%N) by (subst hi; lia).
  assert (Hlo : (0xDC00 <= lo <= 0xDFFF)%N) by (subst lo; lia).
  unfold u_escape. cbn [app scanstring].
  change (92 =? 34)%N with false. change (92 =? 92)%N with true.
  change (117 =? 117)%N with true. cbv iota. cbn [andb].
  rewrite !hex4_u_escape by lia.
  destruct (N.leb_spec 0xD800 hi); [|lia].
  destruct (N.leb_spec hi 0xDBFF); [|lia].
  destruct (N.leb_spec 0xDC00 lo); [|lia].
  destruct (N.leb_spec lo 0xDFFF); [|lia].
  cbn [andb].
  replace (0x10000 + N.lor (N.shiftl (hi - 0xD800) 10) (lo - 0xDC00))%N with c;
    [reflexivity|].
  rewrite N.shiftl_mul_pow2. change (2 ^ 10)%N with 1024%N.
  rewrite lor_high_low by (subst lo; lia). subst hi lo. lia.
Qed.

Lemma escape_char_above (c : N) :
  (126 < c)%N ->
  escape_char true c
  = if (c <? 0x10000)%N then u_escape c
    else u_escape (high_surrogate c) ++ u_escape (low_surrogate c).
Proof.
  intros H. unfold escape_char, high_surrogate, low_surrogate.
  repeat match goal with
         | |- context [(c =? ?k)%N] => destruct (N.eqb_spec c k); [lia|]
         end.
  destruct (N.ltb_spec c 32); [lia|].
  destruct (N.ltb_spec 126 c); [|lia]. reflexivity.
Qed.

Lemma escape_char_below (c : N) :
  (c <= 126)%N -> escape_char true c = escape_char false c.
Proof.
  intros H. unfold escape_char.
  destruct (N.ltb_spec 126 c); [lia|]. now rewrite !andb_false_r.
Qed.

Lemma scanstring_escape_char_ascii (c : N) (t : str) :
  scalar c = true ->
  scanstring (escape_char true c ++ t) =
  match scanstring t with Some (x, rest) => Some (c :: x, rest) | None => None end.
Proof.
  intros Hc. apply andb_prop in Hc as [Hlt Hs].
  apply N.ltb_lt in Hlt. apply negb_true_iff in Hs.
  destruct (N.lt_ge_cases 126 c) as [Hc|Hc].
  - rewrite escape_char_above by assumption.
    destruct (N.ltb_spec c 0x10000).
    + now apply scanstring_u_escape_bmp.
    + rewrite <- app_assoc. apply scanstring_surrogate_pair. lia.
  - rewrite escape_char_below by assumption. unfold escape_char.
    destruct (N.eqb_spec c 34) as [->|H34].
    { now rewrite <- (scanstring_backslash 34 t 34) by (reflexivity || discriminate). }
    destruct (N.eqb_spec c 92) as [->|H92].
    { now rewrite <- (scanstring_backslash 92 t 92) by (reflexivity || discriminate). }
    destruct (N.eqb_spec c 10) as [->|H10].
    { now rewrite <- (scanstring_backslash 110 t 10) by (reflexivity || discriminate). }
    destruct (N.eqb_spec c 13) as [->|H13].
    { now rewrite <- (scanstring_backslash 114 t 13) by (reflexivity || discriminate). }
    destruct (N.eqb_spec c 9) as [->|H9].
    { now rewrite <- (scanstring_backslash 116 t 9) by (reflexivity || discriminate). }
    destruct (N.eqb_spec c 8) as [->|H8].
    { now rewrite <- (scanstring_backslash 98 t 8) by (reflexivity || discriminate). }
    destruct (N.eqb_spec c 12) as [->|H12].
    { now rewrite <- (scanstring_backslash 102 t 12) by (reflexivity || discriminate). }
    destruct (N.ltb_spec c 32).
    { apply scanstring_u_escape. lia. }
    cbn [andb app]. now apply scanstring_plain_char.
Qed.

Lemma scanstring_escape_ascii (s rest : str) :
  forallb scalar s = true ->
  scanstring (flat_map (escape_char true) s ++ 34%N :: rest) = Some (s, rest).
Proof.
  induction s as [|c s IH]; [reflexivity|].
  cbn [forallb flat_map]. intros H. apply andb_prop in H as [Hc Hs].
  rewrite <- app_assoc, scanstring_escape_char_ascii, IH by assumption. reflexivity.
Qed.

Lemma scanstring_dumps_str_ascii (s rest : str) :
  forallb scalar s = true ->
  scanstring (tl (dumps_str true s) ++ rest) = Some (s, rest).
Proof.
  intros H. unfold dumps_str. cbn [app tl]. rewrite <- app_assoc.
  now apply scanstring_escape_ascii.
Qed.

(** What [json.dumps] writes by default is ASCII, whatever the text holds. *)
Lemma hex_digit_ascii (n : N) : (n < 16)%N -> (hex_digit n < 0x80)%N.
Proof. intros H. unfold hex_digit. destruct (N.ltb_spec n 10); lia. Qed.

Lemma u_escape_ascii (n : N) : (n < 0x10000)%N -> Utf8.is_ascii (u_escape n).
Proof.
  intros H. unfold u_escape, Utf8.is_ascii.
  repeat constructor; try lia; apply hex_digit_ascii; lia.
Qed.

Lemma surrogates_below (c : N) :
  (high_surrogate c < 0x10000)%N /\ (low_surrogate c < 0x10000)%N.
Proof.
  unfold high_surrogate, low_surrogate.
  change 0x3FF%N with (N.ones 10). rewrite !N.land_ones. change (2 ^ 10)%N with 1024%N.
  change 0xD800%N with (54 * 1024)%N. change 0xDC00%N with (55 * 1024)%N.
  rewrite !lor_high_low by lia. lia.
Qed.

Lemma escape_char_ascii (c : N) : Utf8.is_ascii (escape_char true c).
Proof.
  destruct (N.lt_ge_cases 126 c) as [Hc|Hc].
  - rewrite escape_char_above by assumption.
    destruct (N.ltb_spec c 0x10000); [now apply u_escape_ascii|].
    destruct (surrogates_below c). apply Forall_app. split; now apply u_escape_ascii.
  - unfold escape_char.
    repeat match goal with
           | |- context [(c =? ?k)%N] =>
               destruct (N.eqb_spec c k); [repeat constructor; lia|]
           end.
    destruct (N.ltb_spec c 32); [apply u_escape_ascii; lia|].
    destruct (N.ltb_spec 126 c); [lia|]. cbn [andb]. repeat constructor. lia.
Qed.

Lemma dumps_str_ascii (s : str) : Utf8.is_ascii (dumps_str true s).
Proof.
  unfold dumps_str, Utf8.is_ascii. apply Forall_app. split; [repeat constructor; lia|].
  apply Forall_app. split; [|repeat constructor; lia].
  induction s as [|c s IH]; cbn [flat_map]; [constructor|].
  apply Forall_app. split; [apply escape_char_ascii|exact IH].
Qed.

Lemma uint_chars_ascii (u : Decimal.uint) : Utf8.is_ascii (uint_chars u).
Proof. induction u; cbn [uint_chars]; constructor; (lia || assumption). Qed.

Lemma repr_int_ascii (z : Z) : Utf8.is_ascii (repr_int z).
Proof.
  unfold repr_int. apply Forall_app. split; [|apply uint_chars_ascii].
  destruct (z <? 0)%Z; repeat constructor.
Qed.

Lemma join_ascii (sep : str) (items : list str) :
  Utf8.is_ascii sep -> Forall Utf8.is_ascii items -> Utf8.is_ascii (join sep items).
Proof.
  intros Hs. induction 1 as [|x l Hx Hl IH]; [constructor|].
  destruct l as [|y l]; [exact Hx|].
  change (join sep (x :: y :: l)) with (x ++ sep ++ join sep (y :: l)).
  apply Forall_app. split; [assumption|]. apply Forall_app. split; assumption.
Qed.

Section DumpsAscii.
Context {R : Runtime}.

Lemma dumps_ascii (v : json) : plain v = true -> Utf8.is_ascii (dumps true v).
Proof.
  induction v as [| b | z | l | s | l IH | m IH] using json_ind';
    cbn [plain]; intros Hp; try discriminate.
  - repeat constructor.
  - destruct b; repeat constructor.
  - apply repr_int_ascii.
  - apply dumps_str_ascii.
  - cbn [dumps]. apply Forall_app. split; [repeat constructor; lia|].
    apply Forall_app. split; [|repeat constructor; lia].
    apply join_ascii; [repeat constructor|].
    apply Forall_map. revert Hp. induction IH as [|x l Hx _ IHl]; [constructor|].
    cbn [forallb]. intros Hp. apply andb_prop in Hp as [H1 H2].
    constructor; auto.
  - apply andb_prop in Hp as [_ Hp].
    cbn [dumps]. apply Forall_app. split; [repeat constructor; lia|].
    apply Forall_app. split; [|repeat constructor; lia].
    apply join_ascii; [repeat constructor|].
    apply Forall_map. revert Hp. induction IH as [|[k x] m Hx _ IHm]; [constructor|].
    cbn [forallb]. intros Hp. apply andb_prop in Hp as [H1 H2].
    constructor; [|auto].
    apply Forall_app. split; [apply dumps_str_ascii|].
    apply Forall_app. split; [repeat constructor|]. exact (Hx H1).
Qed.
End DumpsAscii.

(** *** Reading back what [dumps] wrote with [ensure_ascii=True] *)

Section ReadBackAscii.
Context {R : Runtime}.

Lemma dumps_head_ascii (v : json) :
  well_formed v = true ->
  exists c t, dumps true v = c :: t /\ is_ws c = false
              /\ c <> 93%N /\ c <> 125%N.
Proof.
  destruct v as [| [|] | z | l | s | l | m]; cbn [well_formed]; intros H;
    try discriminate;
    try (cbn; eexists _, _; split; [reflexivity|repeat split; discriminate]).
  destruct (repr_int_head z) as (c & t & E & Hc). cbn [dumps]. rewrite E.
  exists c, t. split; [reflexivity|].
  destruct Hc as [->|Hc]; [repeat split; discriminate|].
  unfold is_digit in Hc. apply andb_prop in Hc as [H1 H2].
  apply N.leb_le in H1, H2. unfold is_ws.
  repeat split; try lia.
  repeat (apply orb_false_intro); apply N.eqb_neq; lia.
Qed.

Lemma skip_ws_dumps_ascii (v : json) (rest : str) :
  well_formed v = true -> skip_ws (dumps true v ++ rest) = dumps true v ++ rest.
Proof.
  intros H. destruct (dumps_head_ascii v H) as (c & t & E & Hws & _).
  rewrite E. cbn [app skip_ws]. now rewrite Hws.
Qed.

Definition reads_back_ascii (v : json) : Prop :=
  forall f rest, fuel_of v <= f -> value_end rest = true ->
    scan_once f (dumps true v ++ rest) = Scanned v rest.

Lemma array_loop_dumps_ascii (l : list json) :
  l <> [] ->
  Forall reads_back_ascii l -> forallb well_formed l = true ->
  forall f rest,
    list_sum (map (fun x => S (fuel_of x)) l) <= f ->
    array_loop f (join (lit ", ") (map (dumps true) l) ++ 93%N :: rest)
    = Scanned l rest.
Proof.
  intros Hne HF. induction HF as [|x l Hx HF IH]; [contradiction|].
  intros Hp f rest Hf. cbn [forallb] in Hp. apply andb_prop in Hp as [Hpx Hpl].
  cbn [map] in Hf. change (list_sum (?a :: ?b)) with (a + list_sum b) in Hf.
  destruct f as [|f]; [lia|]. rewrite array_loop_S.
  destruct l as [|y l].
  - cbn [map join]. rewrite Hx; [reflexivity|lia|reflexivity].
  - change (join (lit ", ") (map (dumps true) (x :: y :: l)))
      with (dumps true x ++ 44%N :: 32%N :: join (lit ", ") (map (dumps true) (y :: l))).
    rewrite <- app_assoc. cbn [app].
    rewrite Hx; [|lia|reflexivity].
    rewrite (skip_ws_other 44) by reflexivity.
    change (44 =? 93)%N with false. change (44 =? 44)%N with true. cbv iota.
    rewrite skip_ws_space.
    assert (E : skip_ws (join (lit ", ") (map (dumps true) (y :: l)) ++ 93%N :: rest)
                = join (lit ", ") (map (dumps true) (y :: l)) ++ 93%N :: rest).
    { cbn [forallb] in Hpl. apply andb_prop in Hpl as [Hpy _].
      destruct l; cbn [map join]; rewrite <- ?app_assoc;
        apply skip_ws_dumps_ascii; assumption. }
    rewrite E, IH; [reflexivity|discriminate|assumption|lia].
Qed.

Definition dumps_item_ascii (kv : str * json) : str :=
  match kv with
  | (k, x) => dumps_str true k ++ lit ": " ++ dumps true x
  end.

Lemma dumps_item_eq_ascii (k : str) (x : json) (rest : str) :
  dumps_item_ascii (k, x) ++ rest
  = 34%N :: (tl (dumps_str true k) ++ 58%N :: 32%N :: dumps true x ++ rest).
Proof.
  unfold dumps_item_ascii, dumps_str. cbn [app tl lit lit_char].
  rewrite <- !app_assoc. reflexivity.
Qed.

Lemma object_loop_dumps_ascii (m : list (str * json)) :
  m <> [] ->
  Forall (fun kv => reads_back_ascii (snd kv)) m ->
  forallb (fun kv => match kv with (k, x) => forallb scalar k && well_formed x end) m = true ->
  forall f rest,
    list_sum (map (fun kv => match kv with (_, x) => S (fuel_of x) end) m) <= f ->
    object_loop f (tl (join (lit ", ") (map dumps_item_ascii m) ++ 125%N :: rest))
    = Scanned m rest.
Proof.
  intros Hne HF. induction HF as [|[k x] m Hx HF IH]; [contradiction|].
  intros Hp f rest Hf. cbn [forallb] in Hp. apply andb_prop in Hp as [Hpx Hpm].
  apply andb_prop in Hpx as [Hk Hpx].
  cbn [map] in Hf. change (list_sum (?a :: ?b)) with (a + list_sum b) in Hf.
  cbn [snd] in Hx.
  destruct f as [|f]; [lia|]. rewrite object_loop_S.
  destruct m as [|[k' y] m].
  - cbn [map join]. rewrite dumps_item_eq_ascii. cbn [tl].
    rewrite scanstring_dumps_str_ascii by assumption.
    rewrite (skip_ws_other 58) by reflexivity.
    change (58 =? 58)%N with true. cbv iota.
    rewrite skip_ws_space, skip_ws_dumps_ascii by assumption.
    rewrite Hx; [|lia|reflexivity].
    rewrite (skip_ws_other 125) by reflexivity. reflexivity.
  - change (join (lit ", ") (map dumps_item_ascii ((k, x) :: (k', y) :: m)))
      with (dumps_item_ascii (k, x) ++ 44%N :: 32%N
              :: join (lit ", ") (map dumps_item_ascii ((k', y) :: m))).
    rewrite <- app_assoc, dumps_item_eq_ascii. cbn [tl app].
    rewrite scanstring_dumps_str_ascii by assumption.
    rewrite (skip_ws_other 58) by reflexivity.
    change (58 =? 58)%N with true. cbv iota.
    rewrite skip_ws_space, skip_ws_dumps_ascii by assumption.
    rewrite Hx; [|lia|reflexivity].
    rewrite (skip_ws_other 44) by reflexivity.
    change (44 =? 125)%N with false. change (44 =? 44)%N with true. cbv iota.
    rewrite skip_ws_space.
    assert (E : exists t, join (lit ", ") (map dumps_item_ascii ((k', y) :: m)) ++ 125%N :: rest
                          = 34%N :: t).
    { destruct m as [|kv m]; cbn [map join]; rewrite <- ?app_assoc;
        rewrite dumps_item_eq_ascii; eexists; reflexivity. }
    destruct E as (t & E).
    specialize (IH ltac:(discriminate) Hpm f rest ltac:(lia)).
    rewrite E in IH |- *. cbn [tl] in IH.
    rewrite (skip_ws_other 34) by reflexivity.
    change (34 =? 34)%N with true. cbv iota.
    rewrite IH. reflexivity.
Qed.

(** [scan_once] reads back the value that [dumps] wrote, whatever text of
    the enclosing value comes after it. *)
Lemma scan_once_dumps_ascii (v : json) : well_formed v = true -> reads_back_ascii v.
Proof.
  induction v as [| b | z | l | s | l IH | m IH] using json_ind';
    cbn [well_formed]; intros Hp f rest Hf Hend; try discriminate;
    (destruct f as [|f]; [cbn in Hf; lia|]).
  - reflexivity.
  - destruct b; reflexivity.
  - cbn [dumps]. destruct (repr_int_head z) as (c & t & E & Hc).
    rewrite E. cbn [app]. rewrite scan_once_number by assumption.
    change (c :: t ++ rest) with ((c :: t) ++ rest). rewrite <- E.
    rewrite match_number_repr_int by assumption.
    now rewrite parse_int_repr_int.
  - cbn [dumps]. change (dumps_str true s ++ rest)
      with (34%N :: (tl (dumps_str true s) ++ rest)).
    now rewrite scan_once_str, scanstring_dumps_str_ascii by assumption.
  - assert (HF : Forall reads_back_ascii l) by (eapply Forall_forallb; eauto).
    cbn [dumps app]. rewrite scan_once_list.
    cbn [fuel_of] in Hf.
    destruct l as [|x l].
    + reflexivity.
    + rewrite <- app_assoc. cbn [app].
      assert (E : exists c t,
                 join (lit ", ") (map (dumps true) (x :: l)) ++ 93%N :: rest = c :: t
                 /\ is_ws c = false /\ c <> 93%N).
      { cbn [forallb] in Hp. apply andb_prop in Hp as [Hpx _].
        destruct (dumps_head_ascii x Hpx) as (c & t & E & Hws & H93 & _).
        destruct l; cbn [map join]; rewrite <- ?app_assoc, E;
          eexists _, _; (split; [reflexivity|split; assumption]). }
      destruct E as (c & t & E & Hws & H93).
      pose proof (array_loop_dumps_ascii (x :: l) ltac:(discriminate) HF Hp f rest ltac:(lia)) as A.
      rewrite E in A |- *. rewrite skip_ws_other by assumption.
      destruct (N.eqb_spec c 93); [contradiction|]. now rewrite A.
  - apply andb_prop in Hp as [Hk Hp].
    assert (HF : Forall (fun kv => reads_back_ascii (snd kv)) m).
    { apply (Forall_forallb _ (fun kv => match kv with (k, x) => forallb scalar k && well_formed x end));
        [|assumption].
      eapply Forall_impl; [|exact IH]. intros [k x] H Hq.
      apply andb_prop in Hq as [_ Hq]. auto. }
    cbn [dumps app]. rewrite scan_once_dict.
    cbn [fuel_of] in Hf.
    destruct m as [|kv m].
    + reflexivity.
    + rewrite <- app_assoc. cbn [app].
      change (map (fun kv0 : str * json =>
                     let (k, x) := kv0 in dumps_str true k ++ lit ": " ++ dumps true x))
        with (map dumps_item_ascii).
      assert (E : exists t, join (lit ", ") (map dumps_item_ascii (kv :: m)) ++ 125%N :: rest
                            = 34%N :: t).
      { destruct kv as [k x].
        destruct m as [|kv' m]; cbn [map join]; rewrite <- ?app_assoc;
          rewrite dumps_item_eq_ascii; eexists; reflexivity. }
      destruct E as (t & E).
      pose proof (object_loop_dumps_ascii (kv :: m) ltac:(discriminate) HF Hp f rest ltac:(lia)) as A.
      rewrite E in A |- *. cbn [tl] in A.
      rewrite (skip_ws_other 34) by reflexivity.
      change (34 =? 125)%N with false. change (34 =? 34)%N with true. cbv iota.
      rewrite A, dict_of_pairs_distinct by assumption. reflexivity.
Qed.

Lemma dumps_nonempty_ascii (v : json) :
  well_formed v = true -> 1 <= length (dumps true v).
Proof.
  intros H. destruct (dumps_head_ascii v H) as (c & t & E & _). rewrite E. cbn. lia.
Qed.

Lemma dumps_not_bom_ascii (v : json) :
  well_formed v = true -> starts_with [0xFEFF%N] (dumps true v) = false.
Proof.
  destruct v as [| [|] | z | l | s | l | m]; cbn [well_formed]; intros H;
    try discriminate; try reflexivity.
  destruct (repr_int_head z) as (c & t & E & Hc). cbn [dumps]. rewrite E.
  cbn [starts_with]. rewrite andb_true_r. apply N.eqb_neq.
  destruct Hc as [->|Hc]; [discriminate|].
  unfold is_digit in Hc. apply andb_prop in Hc as [H1 H2].
  apply N.leb_le in H1, H2. lia.
Qed.

Lemma fuel_of_dumps_ascii (v : json) :
  well_formed v = true -> fuel_of v <= 2 * length (dumps true v).
Proof.
  induction v as [| b | z | l | s | l IH | m IH] using json_ind';
    intros Hp; try discriminate;
    try (pose proof (dumps_nonempty_ascii _ Hp); cbn [fuel_of]; lia).
  - cbn [well_formed] in Hp. cbn [fuel_of dumps].
    assert (HF : Forall (fun x => fuel_of x <= 2 * length (dumps true x)) l)
      by (eapply Forall_forallb; eauto).
    pose proof (fuel_of_join (lit ", ") l (dumps true) ltac:(cbn; lia) HF).
    rewrite !length_app. cbn [length]. lia.
  - cbn [well_formed] in Hp. apply andb_prop in Hp as [_ Hp].
    cbn [fuel_of dumps].
    assert (HF : Forall (fun kv : str * json =>
                           fuel_of (snd kv) <= 2 * length (dumps_item_ascii kv)) m).
    { assert (HF : Forall (fun kv : str * json =>
                             fuel_of (snd kv) <= 2 * length (dumps true (snd kv))) m).
      { apply (Forall_forallb _ (fun kv => match kv with (k, x) => forallb scalar k && well_formed x end));
          [|assumption].
        eapply Forall_impl; [|exact IH]. intros [k x] H Hq.
      apply andb_prop in Hq as [_ Hq]. auto. }
      eapply Forall_impl; [|exact HF]. intros [k x]. unfold dumps_item_ascii.
      rewrite !length_app. cbn [snd]. lia. }
    assert (HS : list_sum (map (fun kv : str * json => let (_, x) := kv in S (fuel_of x)) m)
                 <= 2 * length (join (lit ", ") (map dumps_item_ascii m)) + 1).
    { clear -HF. induction HF as [|[k x] m Hx _ IH]; [cbn; lia|].
      cbn [map snd] in *. change (list_sum (?a :: ?b)) with (a + list_sum b).
      destruct m as [|y m]; [cbn [map join]; change (list_sum []) with 0; lia|].
      change (join (lit ", ") (dumps_item_ascii (k, x) :: map dumps_item_ascii (y :: m)))
        with (dumps_item_ascii (k, x) ++ lit ", " ++ join (lit ", ") (map dumps_item_ascii (y :: m))).
      rewrite !length_app. change (length (lit ", ")) with 2. cbn [map] in *. lia. }
    change (map (fun kv : str * json =>
                   let (k, x) := kv in dumps_str true k ++ lit ": " ++ dumps true x))
      with (map dumps_item_ascii).
    rewrite !length_app. cbn [length]. lia.
Qed.

(** [json.loads(json.dumps(v)) == v] for well-formed [v]. *)
Lemma loads_dumps_ascii (v : json) :
  well_formed v = true -> loads (dumps true v) = Some v.
Proof.
  intros Hp. unfold loads. rewrite dumps_not_bom_ascii by assumption.
  pose proof (fuel_of_dumps_ascii v Hp) as Hf.
  rewrite <- (List.app_nil_r (dumps true v)).
  rewrite skip_ws_dumps_ascii by assumption.
  rewrite (scan_once_dumps_ascii v Hp); [reflexivity| |reflexivity].
  rewrite List.app_nil_r. lia.
Qed.

End ReadBackAscii.

(** ** The blocking client *)

Section ClientFacts.
Context {R : Runtime}.

Lemma name_scalar (t : RequestType.t) : forallb scalar (RequestType.name t) = true.
Proof. destruct t; reflexivity. Qed.

Lemma name_injective (t t' : RequestType.t) :
  RequestType.name t = RequestType.name t' -> t = t'.
Proof. destruct t, t'; intros H; (reflexivity || discriminate H). Qed.

Lemma request_well_formed (t : RequestType.t) (content : json) :
  well_formed content = true ->
  well_formed (JDict [(lit "request_type", JStr (RequestType.name t));
                      (lit "request_content", content)]) = true.
Proof.
  intros H. cbn [well_formed map fst forallb]. rewrite H, name_scalar. reflexivity.
Qed.

Lemma request_plain (t : RequestType.t) (content : json) :
  plain content = true ->
  plain (JDict [(lit "request_type", JStr (RequestType.name t));
                (lit "request_content", content)]) = true.
Proof. intros H. cbn [plain map fst forallb]. now rewrite H. Qed.

(** The bytes of a request: [message.encode('utf-8')] never fails on what
    [send_message] serialized. *)
Lemma request_encodes (t : RequestType.t) (content : json) :
  plain content = true ->
  Utf8.encode (message_as_string t content)
  = Some (map Utf8.byte_of_N (message_as_string t content)).
Proof.
  intros H. apply Utf8.encode_ascii. unfold message_as_string.
  apply dumps_ascii. now apply request_plain.
Qed.

(** The run of the client once the socket file is there and the connection
    is made. *)
Lemma connected_run (w : World) (message : str) (p : str) (message_bytes : bytes) :
  config_path w = Some p -> p <> [] -> path_exists w p = true ->
  socket_new w = None -> connect w (path_absolute w p) = None ->
  Utf8.encode message = Some message_bytes ->
  exists talking result,
    _send_message_to_scheduler_socket w message
    = ([EvSocket; EvSetTimeout 5; EvConnect (path_absolute w p)]
         ++ talking ++ [EvClose], result)
    /\ (talking = [EvSend message_bytes]
        \/ talking = [EvSend message_bytes; EvSleep; EvRecv 2048]).
Proof.
  intros Hc Hp He Hs Hn Hb. unfold _send_message_to_scheduler_socket.
  rewrite Hc. destruct p as [|c0 p]; [contradiction|].
  rewrite He, Hs, Hn, Hb. cbn [negb].
  destruct (send w message_bytes) as [sent|ex].
  - destruct (recv w 2048) as [[|x data]|ex];
      [| destruct (Utf8.decode (x :: data)) |];
      eexists _, _; (split; [reflexivity|right; reflexivity]).
  - eexists _, _. split; [reflexivity|left; reflexivity].
Qed.

Lemma encode_nonempty (text : str) (b : bytes) :
  text <> [] -> Utf8.encode text = Some b -> b <> [].
Proof.
  destruct text as [|c text]; [contradiction|]. intros _. cbn [Utf8.encode].
  destruct (Utf8.encode_char c) as [a|] eqn:Ea; [|discriminate].
  destruct (Utf8.encode text) as [b'|]; [|discriminate].
  intros H. injection H as <-. unfold Utf8.encode_char in Ea.
  repeat match type of Ea with
         | (if ?c then _ else _) = _ => destruct c
         end; try discriminate; injection Ea as <-; discriminate.
Qed.
End ClientFacts.

(** *** The request *)

(** The contents of these statements are values of the JSON data model:
    None, bool, int, str, list, and dict with str keys.  [int.__repr__]
    raises ValueError on an int of more than 4300 digits, which [repr_int]
    does not do: the statements are for contents whose ints are within that
    limit, which [exchanged] requires. *)

(** X1: the text [send_message] serializes parses back, with [json.loads],
    to the mapping of request_type to the name of the request type and of
    request_content to the content, for every content built from None,
    bool, int within the limit of the conversion to text, str, list, and
    dict with str keys, whose strings are well-formed Unicode text (no
    surrogate code points). *)
Theorem request_parses_back {R : Runtime} (t : RequestType.t) (content : json) :
  well_formed content = true -> exchanged content = true ->
  loads (message_as_string t content)
  = Some (JDict [(lit "request_type", JStr (RequestType.name t));
                 (lit "request_content", content)]).
Proof.
  intros H _. unfold message_as_string. apply loads_dumps_ascii.
  now apply request_well_formed.
Qed.

(** A schedule id with a quote, an accented letter and a character above
    U+FFFF. *)
Definition odd_id : json := JStr [84; 83; 34; 233; 0x1F600]%N.

Lemma request_parses_back_witness :
  loads (message_as_string (R := cpython) RequestType.cancel_task_schedule odd_id)
  = Some (JDict [(lit "request_type", JStr (lit "cancel_task_schedule"));
                 (lit "request_content", odd_id)]).
Proof.
  apply (request_parses_back (R := cpython) RequestType.cancel_task_schedule odd_id);
    reflexivity.
Defined.

(** X2: the text [send_message] serializes holds only characters below
    U+0080, so [message.encode('utf-8')] cannot fail on it and writes one
    byte per character; this holds even when the content holds surrogate
    code points, which UTF-8 cannot encode. *)
Theorem request_text_is_ascii {R : Runtime} (t : RequestType.t) (content : json) :
  plain content = true ->
  Utf8.is_ascii (message_as_string t content)
  /\ Utf8.encode (message_as_string t content)
     = Some (ascii_bytes (message_as_string t content)).
Proof.
  intros H. split.
  - unfold message_as_string. apply dumps_ascii. now apply request_plain.
  - now apply request_encodes.
Qed.

Lemma request_text_is_ascii_witness :
  Utf8.is_ascii (message_as_string (R := cpython) RequestType.create_task_schedule
                   (JStr [0xD800; 233]%N))
  /\ Utf8.encode (message_as_string (R := cpython) RequestType.create_task_schedule
                    (JStr [0xD800; 233]%N))
     = Some (ascii_bytes (message_as_string (R := cpython) RequestType.create_task_schedule
                            (JStr [0xD800; 233]%N))).
Proof.
  apply (request_text_is_ascii (R := cpython) RequestType.create_task_schedule
           (JStr [0xD800; 233]%N)).
  reflexivity.
Defined.

(** X3: two requests that differ in their type or in their content are
    serialized to different texts, for contents built from None, bool, int
    within the limit of the conversion to text, str, list, and dict with str
    keys, whose strings are well-formed text. *)
Theorem request_text_injective {R : Runtime} (t t' : RequestType.t) (c c' : json) :
  well_formed c = true -> well_formed c' = true ->
  exchanged c = true -> exchanged c' = true ->
  t <> t' \/ c <> c' ->
  message_as_string t c <> message_as_string t' c'.
Proof.
  intros Hc Hc' _ _ Hd E. apply (f_equal loads) in E. unfold message_as_string in E.
  rewrite !loads_dumps_ascii in E by now apply request_well_formed.
  injection E as En Ec. destruct Hd as [Hd|Hd]; [|exact (Hd Ec)].
  apply Hd. now apply name_injective.
Qed.

Lemma request_text_injective_witness :
  message_as_string (R := cpython) RequestType.cancel_task_schedule (JStr (lit "TS-1"))
  <> message_as_string (R := cpython) RequestType.cancel_task_schedule (JStr (lit "TS-2")).
Proof.
  apply (request_text_injective (R := cpython)
           RequestType.cancel_task_schedule RequestType.cancel_task_schedule
           (JStr (lit "TS-1")) (JStr (lit "TS-2")));
    [reflexivity|reflexivity|reflexivity|reflexivity|right; discriminate].
Defined.

(** *** Configuration *)

(** What the three public calls end in when no path is configured. *)
Definition configuration_failure : list event * result value :=
  ([], Raise (Exc ValueError
                (raw "BTU Configuration is missing a path to the Unix Domain Socket for the scheduler daemon."))).

(** X4: when the configured socket path is missing or empty, each of the
    three public calls raises ValueError, and no socket call is made. *)
Theorem missing_configuration_raises {R : Runtime} (w : World) (task_schedule_id : json) :
  config_path w = None \/ config_path w = Some [] ->
  send_ping w = configuration_failure
  /\ reload_task_schedule w task_schedule_id = configuration_failure
  /\ cancel_task_schedule w task_schedule_id = configuration_failure.
Proof.
  intros H. unfold send_ping, reload_task_schedule, cancel_task_schedule, send_message,
    _send_message_to_scheduler_socket, configuration_failure.
  destruct H as [-> | ->]; repeat split.
Qed.

(** No path is configured. *)
Definition unconfigured : World := {|
  config_path := Some [];
  path_exists := fun _ => true;
  path_absolute := fun p => p;
  socket_new := None;
  connect := fun _ => None;
  send := fun data => Ok (length data);
  recv := fun _ => Ok []
|}.

Lemma missing_configuration_raises_witness :
  send_ping (R := cpython) unconfigured = configuration_failure
  /\ reload_task_schedule (R := cpython) unconfigured odd_id = configuration_failure
  /\ cancel_task_schedule (R := cpython) unconfigured odd_id = configuration_failure.
Proof.
  apply (missing_configuration_raises (R := cpython) unconfigured odd_id).
  right. reflexivity.
Defined.

(** *** The socket *)

(** X5: when connecting fails the client returns the description of the
    failure, and the socket it created for the attempt is never closed:
    the calls made are socket, settimeout(5) and connect, and nothing
    after them. *)
Theorem refused_connection_is_not_closed (w : World) (message : str) (p : str) (e : exn) :
  config_path w = Some p -> p <> [] -> path_exists w p = true ->
  socket_new w = None -> connect w (path_absolute w p) = Some e ->
  _send_message_to_scheduler_socket w message
  = ([EvSocket; EvSetTimeout 5; EvConnect (path_absolute w p)],
     Ok (VStr (raw "Exception while connecting to BTU Scheduler socket: " ++ exn_str e)))
  /\ opened (fst (_send_message_to_scheduler_socket w message)) = true
  /\ closed (fst (_send_message_to_scheduler_socket w message)) = false.
Proof.
  intros Hc Hp He Hs Hn. unfold _send_message_to_scheduler_socket.
  rewrite Hc. destruct p as [|c0 p]; [contradiction|].
  rewrite He, Hs, Hn. repeat split.
Qed.

Lemma refused_connection_is_not_closed_witness :
  _send_message_to_scheduler_socket refusing (lit "{}")
  = ([EvSocket; EvSetTimeout 5; EvConnect (path_absolute refusing socket_file)],
     Ok (VStr (raw "Exception while connecting to BTU Scheduler socket: "
               ++ raw "[Errno 111] Connection refused")))
  /\ opened (fst (_send_message_to_scheduler_socket refusing (lit "{}"))) = true
  /\ closed (fst (_send_message_to_scheduler_socket refusing (lit "{}"))) = false.
Proof.
  apply (refused_connection_is_not_closed refusing (lit "{}") socket_file
           (Exc OSError (raw "[Errno 111] Connection refused")));
    try reflexivity; discriminate.
Defined.

(** X6: once the connection is made, every request of [send_message] runs
    to the same end whatever send and receive do: the bytes of the request
    text are offered to the socket in exactly one send call, at most one
    receive call of 2048 bytes follows, and the last call is the one close
    of the one socket that was created. *)
Theorem connected_socket_is_closed_once {R : Runtime} (w : World) (t : RequestType.t)
    (content : json) (p : str) :
  plain content = true ->
  config_path w = Some p -> p <> [] -> path_exists w p = true ->
  socket_new w = None -> connect w (path_absolute w p) = None ->
  let calls := fst (send_message w t content) in
  last calls EvSocket = EvClose
  /\ length (filter is_close calls) = 1
  /\ length (filter is_socket calls) = 1
  /\ sends calls = [ascii_bytes (message_as_string t content)]
  /\ (recvs calls = [] \/ recvs calls = [2048%Z]).
Proof.
  intros Hpl Hc Hp He Hs Hn. unfold send_message.
  destruct (connected_run w (message_as_string t content) p _ Hc Hp He Hs Hn
              (request_encodes t content Hpl)) as (talking & result & -> & [-> | ->]);
    cbn; repeat split; auto.
Qed.

(** The calls of a ping to a daemon that goes away after the connection is
    made. *)
Definition broken_ping_calls : list event :=
  fst (send_message (R := cpython) breaking RequestType.ping JNull).

Lemma connected_socket_is_closed_once_witness :
  last broken_ping_calls EvSocket = EvClose
  /\ length (filter is_close broken_ping_calls) = 1
  /\ length (filter is_socket broken_ping_calls) = 1
  /\ sends broken_ping_calls
     = [ascii_bytes (message_as_string (R := cpython) RequestType.ping JNull)]
  /\ (recvs broken_ping_calls = [] \/ recvs broken_ping_calls = [2048%Z]).
Proof.
  unfold broken_ping_calls.
  apply (connected_socket_is_closed_once (R := cpython) breaking RequestType.ping JNull
           socket_file);
    try reflexivity; discriminate.
Defined.

(** X7: when the daemon answers with the UTF-8 encoding of a text that is
    not empty, [send_message] returns that text as a str. *)
Theorem reply_text_is_returned {R : Runtime} (w : World) (t : RequestType.t)
    (content : json) (p : str) (sent : nat) (text : str) (reply : bytes) :
  plain content = true ->
  config_path w = Some p -> p <> [] -> path_exists w p = true ->
  socket_new w = None -> connect w (path_absolute w p) = None ->
  send w (ascii_bytes (message_as_string t content)) = Ok sent ->
  text <> [] -> Utf8.encode text = Some reply -> recv w 2048 = Ok reply ->
  snd (send_message w t content) = Ok (VStr text).
Proof.
  intros Hpl Hc Hp He Hs Hn Hsend Ht Hr Hrecv.
  unfold send_message, _send_message_to_scheduler_socket.
  rewrite Hc. destruct p as [|c0 p]; [contradiction|].
  rewrite He, Hs, Hn, (request_encodes t content Hpl). cbn [negb].
  unfold ascii_bytes in Hsend. rewrite Hsend, Hrecv.
  pose proof (encode_nonempty text reply Ht Hr) as Hne.
  destruct reply as [|x reply]; [contradiction|].
  now rewrite (Utf8.decode_encode text (x :: reply) Hr).
Qed.

(** The reply of the daemon to a ping. *)
Definition pong : str := lit "{'result': 'pong'}".

Lemma reply_text_is_returned_witness :
  snd (send_message (R := cpython) (answering (ascii_bytes pong)) RequestType.ping JNull)
  = Ok (VStr pong).
Proof.
  apply (reply_text_is_returned (R := cpython) (answering (ascii_bytes pong))
           RequestType.ping JNull socket_file
           (length (ascii_bytes (message_as_string (R := cpython) RequestType.ping JNull)))
           pong (ascii_bytes pong));
    try reflexivity; discriminate.
Defined.

(** ** The framed-message connection *)

(** *** Text that UTF-8 can encode *)

Lemma ascii_scalar (s : str) : Utf8.is_ascii s -> forallb scalar s = true.
Proof.
  induction 1 as [|c s Hc _ IH]; [reflexivity|].
  cbn [forallb]. rewrite IH, andb_true_r. unfold scalar, Utf8.is_surrogate.
  destruct (N.ltb_spec c 0x110000); [|lia].
  destruct (N.leb_spec 0xD800 c); [lia|]. reflexivity.
Qed.

Lemma forallb_scalar_app (s t : str) :
  forallb scalar s = true -> forallb scalar t = true -> forallb scalar (s ++ t) = true.
Proof. intros Hs Ht. now rewrite forallb_app, Hs, Ht. Qed.

Lemma escape_char_scalar (c : N) :
  scalar c = true -> forallb scalar (escape_char false c) = true.
Proof.
  intros Hc. unfold escape_char.
  repeat match goal with
         | |- context [(c =? ?k)%N] => destruct (N.eqb_spec c k); [reflexivity|]
         end.
  destruct (N.ltb_spec c 32); [apply ascii_scalar, u_escape_ascii; lia|].
  cbn [andb forallb]. now rewrite Hc.
Qed.

Lemma dumps_str_scalar (s : str) :
  forallb scalar s = true -> forallb scalar (dumps_str false s) = true.
Proof.
  intros H. unfold dumps_str. apply forallb_scalar_app; [reflexivity|].
  apply forallb_scalar_app; [|reflexivity].
  induction s as [|c s IH]; [reflexivity|].
  cbn [forallb flat_map] in *. apply andb_prop in H as [Hc Hs].
  apply forallb_scalar_app; [now apply escape_char_scalar|now apply IH].
Qed.

Lemma join_scalar (sep : str) (items : list str) :
  forallb scalar sep = true -> Forall (fun x => forallb scalar x = true) items ->
  forallb scalar (join sep items) = true.
Proof.
  intros Hs. induction 1 as [|x l Hx Hl IH]; [reflexivity|].
  destruct l as [|y l]; [exact Hx|].
  change (join sep (x :: y :: l)) with (x ++ sep ++ join sep (y :: l)).
  apply forallb_scalar_app; [assumption|]. now apply forallb_scalar_app.
Qed.

Section Encodable.
Context {R : Runtime}.

Lemma dumps_scalar (v : json) :
  well_formed v = true -> forallb scalar (dumps false v) = true.
Proof.
  induction v as [| b | z | l | s | l IH | m IH] using json_ind';
    cbn [well_formed]; intros Hp; try discriminate.
  - reflexivity.
  - destruct b; reflexivity.
  - apply ascii_scalar, repr_int_ascii.
  - now apply dumps_str_scalar.
  - cbn [dumps]. apply forallb_scalar_app; [reflexivity|].
    apply forallb_scalar_app; [|reflexivity].
    apply join_scalar; [reflexivity|].
    apply Forall_map. revert Hp. induction IH as [|x l Hx _ IHl]; [constructor|].
    cbn [forallb]. intros Hp. apply andb_prop in Hp as [H1 H2].
    constructor; auto.
  - apply andb_prop in Hp as [_ Hp].
    cbn [dumps]. apply forallb_scalar_app; [reflexivity|].
    apply forallb_scalar_app; [|reflexivity].
    apply join_scalar; [reflexivity|].
    apply Forall_map. revert Hp. induction IH as [|[k x] m Hx _ IHm]; [constructor|].
    cbn [forallb]. intros Hp. apply andb_prop in Hp as [H1 H2].
    apply andb_prop in H1 as [Hk H1].
    constructor; [|auto].
    apply forallb_scalar_app; [now apply dumps_str_scalar|].
    apply forallb_scalar_app; [reflexivity|]. exact (Hx H1).
Qed.

Lemma encode_char_scalar (c : N) :
  scalar c = true -> exists a, Utf8.encode_char c = Some a /\ 1 <= length a.
Proof.
  intros H. apply andb_prop in H as [Hlt Hs].
  apply N.ltb_lt in Hlt. apply negb_true_iff in Hs.
  unfold Utf8.encode_char. rewrite Hs.
  destruct (N.ltb_spec c 0x80); [eexists; split; [reflexivity|cbn; lia]|].
  destruct (N.ltb_spec c 0x800); [eexists; split; [reflexivity|cbn; lia]|].
  destruct (N.ltb_spec c 0x10000); [eexists; split; [reflexivity|cbn; lia]|].
  destruct (N.ltb_spec c 0x110000); [eexists; split; [reflexivity|cbn; lia]|lia].
Qed.

Lemma encode_scalar (s : str) :
  forallb scalar s = true ->
  exists b, Utf8.encode s = Some b /\ length s <= length b.
Proof.
  induction s as [|c s IH]; [exists []; split; [reflexivity|cbn; lia]|].
  cbn [forallb]. intros H. apply andb_prop in H as [Hc Hs].
  destruct (encode_char_scalar c Hc) as (a & Ea & La).
  destruct (IH Hs) as (b & Eb & Lb).
  exists (a ++ b). cbn [Utf8.encode]. rewrite Ea, Eb. split; [reflexivity|].
  rewrite length_app. cbn [length]. lia.
Qed.

(** [_json_encode] cannot fail on a well-formed value when the encoding is
    utf-8. *)
Lemma json_encode_utf8 (v : json) :
  well_formed v = true ->
  exists b, _json_encode (CJson v) (lit "utf-8") = Ok b
            /\ length (dumps false v) <= length b.
Proof.
  intros H. destruct (encode_scalar _ (dumps_scalar v H)) as (b & Eb & Lb).
  exists b. unfold _json_encode, encode_with. rewrite lookup_utf8.
  cbn [codec_encode utf8]. now rewrite Eb.
Qed.

Lemma escape_length (ea : bool) (s : str) :
  length s <= length (flat_map (escape_char ea) s).
Proof.
  induction s as [|c s IH]; [reflexivity|].
  cbn [flat_map length]. rewrite length_app.
  assert (1 <= length (escape_char ea c)); [|lia].
  unfold escape_char, u_escape.
  repeat match goal with
         | |- context [if ?b then _ else _] => destruct b
         end; cbn [length app]; try rewrite length_app; cbn [length]; lia.
Qed.

Lemma header_of_well_formed (ct ce : str) (n : nat) :
  forallb scalar ct = true -> forallb scalar ce = true ->
  well_formed (header_of ct ce n) = true.
Proof.
  intros Ht He. unfold header_of. cbn [well_formed map fst forallb].
  rewrite Ht, He. destruct sys_byteorder; reflexivity.
Qed.

Lemma header_length (ct ce : str) (n : nat) :
  length ct + length ce <= length (dumps false (header_of ct ce n)).
Proof.
  unfold header_of. cbn [dumps map join]. unfold dumps_str.
  repeat (rewrite !length_app; cbn [length]).
  pose proof (escape_length false ct). pose proof (escape_length false ce). lia.
Qed.
End Encodable.

(** *** Frames *)

(** X9: every frame [_create_message] builds is the payload behind a header
    of at most 65535 bytes behind the two-byte big-endian length of that
    header; the header, read as JSON, is the mapping of byteorder,
    content-type, content-encoding and content-length to the platform's
    byte order, the two strings given and the number of payload bytes. *)
Theorem created_frame_layout {R : Runtime} (body : content) (ct ce : str) (frame : bytes) :
  _create_message body ct ce = Ok frame ->
  exists b0 b1 hb cb,
    body = CBytes cb
    /\ frame = b0 :: b1 :: hb ++ cb
    /\ (Z.of_N (Byte.to_N b0) * 256 + Z.of_N (Byte.to_N b1) = Z.of_nat (length hb))%Z
    /\ (Z.of_nat (length hb) <= 65535)%Z
    /\ _json_decode hb (JStr (lit "utf-8"))
       = Ok (JDict [(lit "byteorder", JStr (byteorder_name sys_byteorder));
                    (lit "content-type", JStr ct);
                    (lit "content-encoding", JStr ce);
                    (lit "content-length", JInt (Z.of_nat (length cb)))]).
Proof.
  intros H.
  destruct (create_message_inv _ _ _ _ H) as (b0 & b1 & hb & cb & E & F & Hl & Hd).
  exists b0, b1, hb, cb. unfold unpack_H in Hl.
  pose proof (Byte.to_N_bounded b0). pose proof (Byte.to_N_bounded b1).
  repeat split; try assumption; lia.
Qed.

(** The frame that carries the reply to a ping. *)
Definition pong_frame : bytes :=
  match _create_message (R := cpython) (CBytes (ascii_bytes pong))
          (lit "text/json") (lit "utf-8") with
  | Ok frame => frame
  | Raise _ => []
  end.

Lemma created_frame_layout_witness :
  exists b0 b1 hb cb,
    CBytes (ascii_bytes pong) = CBytes cb
    /\ pong_frame = b0 :: b1 :: hb ++ cb
    /\ (Z.of_N (Byte.to_N b0) * 256 + Z.of_N (Byte.to_N b1) = Z.of_nat (length hb))%Z
    /\ (Z.of_nat (length hb) <= 65535)%Z
    /\ _json_decode (R := cpython) hb (JStr (lit "utf-8"))
       = Ok (JDict [(lit "byteorder", JStr (lit "little"));
                    (lit "content-type", JStr (lit "text/json"));
                    (lit "content-encoding", JStr (lit "utf-8"));
                    (lit "content-length", JInt (Z.of_nat (length cb)))]).
Proof.
  apply (created_frame_layout (R := cpython) (CBytes (ascii_bytes pong))
           (lit "text/json") (lit "utf-8") pong_frame).
  vm_compute. reflexivity.
Defined.

(** X10: a frame whose header would not fit the two-byte length is not
    built: when the content type and the content encoding together have
    more than 65535 characters (of well-formed text), [_create_message]
    raises struct.error. *)
Theorem oversized_header_is_refused {R : Runtime} (b : bytes) (ct ce : str) :
  forallb scalar ct = true -> forallb scalar ce = true ->
  (65535 < N.of_nat (length ct + length ce))%N ->
  _create_message (CBytes b) ct ce
  = Raise (Exc StructError (raw "'H' format requires 0 <= number <= 65535")).
Proof.
  intros Ht He Hlen. unfold _create_message, or_raise, content_len.
  fold (header_of ct ce (length b)).
  destruct (json_encode_utf8 _ (header_of_well_formed ct ce (length b) Ht He))
    as (hb & -> & Lb).
  pose proof (header_length ct ce (length b)) as Lh.
  unfold pack_H. destruct (N.leb_spec (N.of_nat (length hb)) 65535); [lia|reflexivity].
Qed.

Lemma oversized_header_is_refused_witness :
  _create_message (R := cpython) (CBytes []) (repeat 97%N (N.to_nat 65536)) []
  = Raise (Exc StructError (raw "'H' format requires 0 <= number <= 65535")).
Proof.
  apply (oversized_header_is_refused (R := cpython) [] (repeat 97%N (N.to_nat 65536)) []).
  - vm_compute. reflexivity.
  - reflexivity.
  - vm_compute. reflexivity.
Defined.

(** X11: a payload of bytes under a content type other than text/json goes
    through unchanged: the three decoding steps, run on the frame that
    [queue_request] built for it, store exactly those bytes as the
    response, leave the receive buffer empty, and close the connection. *)
Theorem binary_frame_round_trip {R : Runtime} (b : bytes) (ct ce : str)
    (frame : bytes) (ev : Z) (own : Request) :
  str_eqb ct (lit "text/json") = false ->
  encode_frame {| req_content := CBytes b; req_type := ct; req_encoding := ce |}
  = Ok frame ->
  snd (decode_frame frame (init ev own)) = Ok tt
  /\ response (fst (decode_frame frame (init ev own))) = CBytes b
  /\ _recv_buffer (fst (decode_frame frame (init ev own))) = []
  /\ sock_closed (fst (decode_frame frame (init ev own))) = true
  /\ sel_events (fst (decode_frame frame (init ev own))) = None.
Proof.
  intros Hct He.
  destruct (encode_frame_inv _ _ He) as (body & Hm & Hb).
  cbn [req_type req_encoding req_content] in *. rewrite Hct in Hb. subst body.
  destruct (create_message_inv _ _ _ _ Hm) as (b0 & b1 & hb & cb & E & -> & Hlen & Hhdr).
  injection E as <-.
  unfold decode_frame, process_protoheader, process_jsonheader, init. run.
  rewrite Hlen.
  destruct (Z.leb_spec (Z.of_nat (length hb)) (Z.of_nat (length (hb ++ b))));
    [|rewrite length_app in *; lia].
  rewrite slice_to_app, slice_from_app, Hhdr.
  rewrite (check_headers_hdr b ct ce) by reflexivity.
  unfold process_response, header_of. run.
  match goal with
  | |- context [py_getitem ?h (lit "content-length")] =>
      change (py_getitem h (lit "content-length")) with (@Ok json (JInt (Z.of_nat (length b))))
  end.
  cbv iota beta. unfold int_ge, py_index.
  destruct (Z.leb_spec (Z.of_nat (length b)) (Z.of_nat (length b))); [|lia].
  cbv iota beta delta [negb].
  match goal with
  | |- context [py_getitem ?h (lit "content-type")] =>
      change (py_getitem h (lit "content-type")) with (@Ok json (JStr ct))
  end.
  cbv iota beta. unfold eq_str. rewrite Hct.
  rewrite slice_to_all, slice_from_all.
  unfold _process_response_binary_content, close. run.
  repeat split.
Qed.

(** Bytes sent under an opaque content type, and their frame. *)
Definition blob_request : Request := {|
  req_content := CBytes (ascii_bytes pong);
  req_type := lit "application/octet-stream";
  req_encoding := lit "binary"
|}.

Definition blob_frame : bytes :=
  match encode_frame (R := cpython) blob_request with
  | Ok frame => frame
  | Raise _ => []
  end.

Lemma binary_frame_round_trip_witness :
  snd (decode_frame (R := cpython) blob_frame (init EVENT_READ status_request)) = Ok tt
  /\ response (fst (decode_frame (R := cpython) blob_frame (init EVENT_READ status_request)))
     = CBytes (ascii_bytes pong)
  /\ _recv_buffer (fst (decode_frame (R := cpython) blob_frame
                          (init EVENT_READ status_request))) = []
  /\ sock_closed (fst (decode_frame (R := cpython) blob_frame
                         (init EVENT_READ status_request))) = true
  /\ sel_events (fst (decode_frame (R := cpython) blob_frame
                        (init EVENT_READ status_request))) = None.
Proof.
  apply (binary_frame_round_trip (R := cpython) (ascii_bytes pong)
           (lit "application/octet-stream") (lit "binary") blob_frame
           EVENT_READ status_request);
    [reflexivity|vm_compute; reflexivity].
Defined.

(** X12: under utf-8, [_json_encode] succeeds on every value built from
    None, bool, int within the limit of the conversion to text, str, list,
    and dict with str keys, whose strings are well-formed text, and
    [_json_decode] gives the value back from the bytes it wrote. *)
Theorem json_codec_round_trip {R : Runtime} (v : json) :
  well_formed v = true -> exchanged v = true ->
  exists b, _json_encode (CJson v) (lit "utf-8") = Ok b
            /\ _json_decode b (JStr (lit "utf-8")) = Ok v.
Proof.
  intros H Hx. destruct (json_encode_utf8 v H) as (b & Eb & _).
  exists b. split; [assumption|].
  apply (json_decode_encode_num v (lit "utf-8") utf8 b);
    [assumption|apply lookup_utf8|exact utf8_lossless|assumption].
Qed.

Lemma json_codec_round_trip_witness :
  exists b, _json_encode (R := cpython) (CJson (JList [odd_id; JInt (-7); JNull]))
              (lit "utf-8") = Ok b
            /\ _json_decode (R := cpython) b (JStr (lit "utf-8"))
               = Ok (JList [odd_id; JInt (-7); JNull]).
Proof.
  apply (json_codec_round_trip (R := cpython) (JList [odd_id; JInt (-7); JNull]));
    vm_compute; reflexivity.
Defined.

(** *** Writing *)

(** The write events of a connection, one [send] result each; the first
    exception ends the run. *)
Fixpoint writes {R : Runtime} (sends : list (result nat)) : M unit :=
  match sends with
  | [] => ret tt
  | s :: rest => write s ;; writes rest
  end.

Section WriteFacts.
Context {R : Runtime}.

(** The bytes handed to the socket and the bytes still to send, together. *)
Definition outgoing (m : Message) : bytes := sock_sent m ++ _send_buffer m.

Lemma _write_outgoing (m : Message) (send : result nat) :
  outgoing (fst (_write send m)) = outgoing m
  /\ _request_queued (fst (_write send m)) = _request_queued m.
Proof.
  destruct m as [se sc ss sk rq rb sb qd jl jh rs].
  unfold _write, outgoing, error. run.
  destruct sb as [|x buf]; [split; reflexivity|].
  destruct sk; cbn [negb]; [|split; reflexivity].
  destruct send as [sent|e].
  - cbn [fst]. rewrite <- app_assoc, firstn_skipn. split; reflexivity.
  - destruct (exn_class_of e); split; reflexivity.
Qed.

Lemma set_mask_outgoing (mode : str) (m : Message) :
  outgoing (fst (_set_selector_events_mask mode m)) = outgoing m
  /\ _request_queued (fst (_set_selector_events_mask mode m)) = _request_queued m.
Proof.
  destruct m as [se sc ss sk rq rb sb qd jl jh rs].
  unfold _set_selector_events_mask, selector_modify, outgoing. run.
  destruct (str_eqb mode (lit "r")); [|destruct (str_eqb mode (lit "w"));
    [|destruct (str_eqb mode (lit "rw"))]];
    try (destruct sk; cbn [negb]; [destruct se|]);
    split; reflexivity.
Qed.

Lemma write_outgoing (m : Message) (send : result nat) :
  _request_queued m = true ->
  outgoing (fst (write send m)) = outgoing m
  /\ _request_queued (fst (write send m)) = true.
Proof.
  intros Hq. unfold write, bind, get, ret. rewrite Hq. cbn [negb].
  pose proof (_write_outgoing m send) as [W1 W2]. rewrite Hq in W2.
  destruct (_write send m) as [m1 [[]|e]]; cbn [fst] in *; [|auto].
  rewrite W2. destruct (_send_buffer m1); [|auto].
  pose proof (set_mask_outgoing (lit "r") m1) as [S1 S2].
  destruct (_set_selector_events_mask (lit "r") m1) as [m2 r]; cbn [fst] in *.
  split; congruence.
Qed.

Lemma writes_outgoing (sends : list (result nat)) (m : Message) :
  _request_queued m = true ->
  outgoing (fst (writes sends m)) = outgoing m
  /\ _request_queued (fst (writes sends m)) = true.
Proof.
  revert m. induction sends as [|s sends IH]; intros m Hq; [auto|].
  cbn [writes]. unfold bind.
  pose proof (write_outgoing m s Hq) as [W1 W2].
  destruct (write s m) as [m1 [[]|e]]; cbn [fst] in *; [|auto].
  destruct (IH m1 W2) as [I1 I2]. split; congruence.
Qed.

End WriteFacts.




(** X14: over any run of write events of a connection whose request can be
    framed, whatever each send does (takes some bytes, would block, or
    fails), the bytes handed to the socket followed by the bytes still in
    the send buffer are exactly the frame of the request: the frame is
    queued once, and no byte is lost, repeated or reordered. *)
Theorem write_conserves_bytes {R : Runtime} (request : Request) (frame : bytes)
    (ev : Z) (sends : list (result nat)) :
  encode_frame request = Ok frame -> sends <> [] ->
  sock_sent (fst (writes sends (init ev request)))
    ++ _send_buffer (fst (writes sends (init ev request))) = frame
  /\ _request_queued (fst (writes sends (init ev request))) = true.
Proof.
  intros Hf Hs. destruct sends as [|s sends]; [contradiction|].
  cbn [writes]. unfold bind.
  rewrite (first_write (init ev request) s frame) by (reflexivity || exact Hf).
  set (m0 := set_request_queued true
               (set_send_buffer (_send_buffer (init ev request) ++ frame) (init ev request))).
  assert (Hq : _request_queued m0 = true) by reflexivity.
  assert (Ho : outgoing m0 = frame) by reflexivity.
  pose proof (write_outgoing m0 s Hq) as [W1 W2].
  destruct (write s m0) as [m1 [[]|e]]; cbn [fst] in *.
  - destruct (writes_outgoing sends m1 W2) as [I1 I2].
    split; [|assumption]. change (outgoing (fst (writes sends m1)) = frame). congruence.
  - split; [|assumption]. change (outgoing m1 = frame). congruence.
Qed.

Lemma write_conserves_bytes_witness :
  sock_sent (fst (writes (R := cpython)
                    [Ok 10; Raise (Exc BlockingIOError (raw "[Errno 11]")); Ok 50]
                    (init EVENT_WRITE status_request)))
    ++ _send_buffer (fst (writes (R := cpython)
                            [Ok 10; Raise (Exc BlockingIOError (raw "[Errno 11]")); Ok 50]
                            (init EVENT_WRITE status_request))) = status_frame
  /\ _request_queued (fst (writes (R := cpython)
                             [Ok 10; Raise (Exc BlockingIOError (raw "[Errno 11]")); Ok 50]
                             (init EVENT_WRITE status_request))) = true.
Proof.
  apply (write_conserves_bytes (R := cpython) status_request status_frame EVENT_WRITE
           [Ok 10; Raise (Exc BlockingIOError (raw "[Errno 11]")); Ok 50]).
  - vm_compute. reflexivity.
  - discriminate.
Defined.

(** *** Reading *)

(** [recv] on a socket with nothing to read. *)
Definition would_block : exn :=
  Exc BlockingIOError (raw "[Errno 11] Resource temporarily unavailable").

(** Read events that deliver the pieces in order, each piece after a number
    of events at which the socket had nothing to read. *)
Definition deliveries (pieces : list (nat * bytes)) : list (result bytes) :=
  flat_map (fun piece => repeat (Raise would_block) (fst piece) ++ [Ok (snd piece)]) pieces.

Section ReadFacts.
Context {R : Runtime}.
Variables (ev : Z) (req : Request).
Variables (b0 b1 : byte) (hb cb : bytes) (ct ce : str).

Hypothesis Hlen : unpack_H b0 b1 = Z.of_nat (length hb).
Hypothesis Hhdr : _json_decode hb (JStr (lit "utf-8")) = Ok (header_of ct ce (length cb)).

Let frame : bytes := the_frame b0 b1 hb cb.
Let at_prefix (p : bytes) : Message := after ev req hb cb ct ce p.

(** With part of the frame still to come, a read event that finds nothing
    to read changes nothing. *)
Lemma read_blocked (p rest : bytes) :
  p ++ rest = frame -> rest <> [] ->
  read (Raise would_block) (at_prefix p) = (at_prefix p, Ok tt).
Proof.
  intros E Hr. unfold at_prefix.
  pose proof (steps_after ev req b0 b1 hb cb ct ce Hlen Hhdr p rest [] E Hr) as S.
  rewrite !List.app_nil_r in S. rewrite <- after_reading in S.
  rewrite after_reading.
  change (read (Raise would_block) (reading ev req ?l ?h ?b))
    with (steps (reading ev req l h b)).
  rewrite <- after_reading, S.
  exact (steps_prefix ev req b0 b1 hb cb ct ce Hlen Hhdr p rest E Hr).
Qed.

(** A piece that does not complete the frame. *)
Lemma read_piece (p c rest : bytes) :
  p ++ c ++ rest = frame -> rest <> [] -> c <> [] ->
  read (Ok c) (at_prefix p) = (at_prefix (p ++ c), Ok tt).
Proof.
  intros E Hr Hc. unfold at_prefix. rewrite after_reading, read_reading by assumption.
  assert (Hcr : c ++ rest <> []) by (destruct c; [contradiction|discriminate]).
  rewrite (steps_after ev req b0 b1 hb cb ct ce Hlen Hhdr p (c ++ rest) c E Hcr).
  apply (steps_prefix ev req b0 b1 hb cb ct ce Hlen Hhdr (p ++ c) rest);
    [now rewrite <- app_assoc|assumption].
Qed.

(** The piece that completes the frame. *)
Lemma read_last_piece (p c : bytes) :
  p ++ c = frame -> c <> [] ->
  read (Ok c) (at_prefix p) = read (Ok frame) (init ev req).
Proof.
  intros E Hc. unfold at_prefix. rewrite after_reading, read_reading by assumption.
  rewrite (steps_after ev req b0 b1 hb cb ct ce Hlen Hhdr p c c E Hc), E.
  change (init ev req) with (reading ev req None JNull []).
  rewrite read_reading; [reflexivity|]. subst frame. unfold the_frame. discriminate.
Qed.

Lemma reads_blocked (k : nat) (l : list (result bytes)) (p rest : bytes) :
  p ++ rest = frame -> rest <> [] ->
  reads (repeat (Raise would_block) k ++ l) (at_prefix p) = reads l (at_prefix p).
Proof.
  intros E Hr. induction k as [|k IH]; [reflexivity|].
  cbn [repeat app reads]. unfold bind at 1. now rewrite (read_blocked p rest E Hr).
Qed.

Lemma reads_deliveries (pieces : list (nat * bytes)) :
  forall p, p ++ concat (map snd pieces) = frame ->
  Forall (fun piece => snd piece <> []) pieces -> pieces <> [] ->
  reads (deliveries pieces) (at_prefix p) = read (Ok frame) (init ev req).
Proof.
  induction pieces as [|[k c] ps IH]; intros p E Hall Hne; [contradiction|].
  inversion Hall as [|? ? Hc Hps]; subst. cbn [fst snd] in *.
  cbn [map concat] in E. unfold deliveries. cbn [flat_map fst snd].
  fold (deliveries ps). rewrite <- app_assoc.
  assert (Hcr : c ++ concat (map snd ps) <> []) by (destruct c; [contradiction|discriminate]).
  rewrite (reads_blocked k _ p _ E Hcr). cbn [app reads]. unfold bind at 1.
  destruct ps as [|q ps].
  - cbn [map concat] in E. rewrite List.app_nil_r in E.
    rewrite (read_last_piece p c E Hc). cbn [deliveries flat_map reads].
    unfold ret. destruct (read (Ok frame) (init ev req)) as [m' [[]|e]]; reflexivity.
  - assert (Hr : concat (map snd (q :: ps)) <> []).
    { inversion Hps as [|? ? Hq _]; subst. cbn [map concat].
      destruct q as [kq cq]. cbn [snd] in *.
      destruct cq; [now contradiction Hq|discriminate]. }
    rewrite (read_piece p c _ E Hr Hc).
    apply IH; [now rewrite <- app_assoc|assumption|discriminate].
Qed.

Lemma reads_then_closed (chunks : list bytes) :
  forall p rest, p ++ concat chunks ++ rest = frame -> rest <> [] ->
  Forall (fun c => c <> []) chunks ->
  reads (map Ok chunks ++ [Ok []]) (at_prefix p)
  = (at_prefix (p ++ concat chunks), Raise (Exc RuntimeError (raw "Peer closed."))).
Proof.
  induction chunks as [|c cs IH]; intros p rest E Hr Hall.
  - cbn [map app concat reads]. rewrite List.app_nil_r.
    unfold at_prefix. rewrite after_reading. reflexivity.
  - inversion Hall as [|? ? Hc Hcs]; subst. cbn [map app concat reads] in *.
    rewrite <- app_assoc in E.
    assert (Hr' : concat cs ++ rest <> []) by (destruct (concat cs); [assumption|discriminate]).
    unfold bind at 1. rewrite (read_piece p c _ E Hr' Hc).
    rewrite (IH (p ++ c) rest); [now rewrite <- app_assoc|now rewrite <- app_assoc|
                                 assumption|assumption].
Qed.

Lemma at_prefix_open (p : bytes) :
  response (at_prefix p) = CJson JNull /\ sock (at_prefix p) = true
  /\ sock_closed (at_prefix p) = false /\ sel_events (at_prefix p) = Some ev.
Proof. unfold at_prefix. rewrite after_reading. repeat split. Qed.
End ReadFacts.

(** X15: when the peer closes the connection before the whole frame has
    arrived (a receive of no bytes after any pieces that leave part of the
    frame missing), the read events end with RuntimeError 'Peer closed.';
    no response has been stored, and the handler has neither closed its
    socket nor unregistered itself. *)
Theorem peer_closing_mid_frame_raises {R : Runtime} (request : Request) (frame : bytes)
    (chunks : list bytes) (rest : bytes) (ev : Z) (own : Request) :
  encode_frame request = Ok frame ->
  concat chunks ++ rest = frame -> rest <> [] ->
  Forall (fun c => c <> []) chunks ->
  snd (reads (map Ok chunks ++ [Ok []]) (init ev own))
  = Raise (Exc RuntimeError (raw "Peer closed."))
  /\ response (fst (reads (map Ok chunks ++ [Ok []]) (init ev own))) = CJson JNull
  /\ sock (fst (reads (map Ok chunks ++ [Ok []]) (init ev own))) = true
  /\ sock_closed (fst (reads (map Ok chunks ++ [Ok []]) (init ev own))) = false
  /\ sel_events (fst (reads (map Ok chunks ++ [Ok []]) (init ev own))) = Some ev.
Proof.
  intros He Hc Hr Hall.
  destruct (encode_frame_inv _ _ He) as (body & Hm & _).
  destruct (create_message_inv _ _ _ _ Hm) as (b0 & b1 & hb & cb & _ & -> & Hlen & Hhdr).
  change (init ev own) with (after ev own hb cb (req_type request) (req_encoding request) []).
  rewrite (reads_then_closed ev own b0 b1 hb cb _ _ Hlen Hhdr chunks [] rest Hc Hr Hall).
  cbn [fst snd app].
  destruct (at_prefix_open ev own hb cb (req_type request) (req_encoding request)
              (concat chunks)) as (H1 & H2 & H3 & H4).
  repeat split; assumption.
Qed.

Lemma peer_closing_mid_frame_raises_witness :
  snd (reads (R := cpython) (map Ok [firstn 30 status_frame] ++ [Ok []])
         (init EVENT_READ status_request))
  = Raise (Exc RuntimeError (raw "Peer closed."))
  /\ response (fst (reads (R := cpython) (map Ok [firstn 30 status_frame] ++ [Ok []])
                      (init EVENT_READ status_request))) = CJson JNull
  /\ sock (fst (reads (R := cpython) (map Ok [firstn 30 status_frame] ++ [Ok []])
                  (init EVENT_READ status_request))) = true
  /\ sock_closed (fst (reads (R := cpython) (map Ok [firstn 30 status_frame] ++ [Ok []])
                         (init EVENT_READ status_request))) = false
  /\ sel_events (fst (reads (R := cpython) (map Ok [firstn 30 status_frame] ++ [Ok []])
                        (init EVENT_READ status_request))) = Some EVENT_READ.
Proof.
  apply (peer_closing_mid_frame_raises (R := cpython) status_request status_frame
           [firstn 30 status_frame] (skipn 30 status_frame) EVENT_READ status_request).
  - vm_compute. reflexivity.
  - vm_compute. reflexivity.
  - vm_compute. discriminate.
  - repeat constructor. vm_compute. discriminate.
Defined.

(** X16: read events at which the socket has nothing to read
    (BlockingIOError) change nothing, wherever they fall before the frame is
    complete: the pieces of a frame, each delivered after any number of such
    events, leave a fresh connection in the state, and with the result, of
    one read of the whole frame. *)
Theorem blocked_reads_change_nothing {R : Runtime} (request : Request) (frame : bytes)
    (pieces : list (nat * bytes)) (ev : Z) (own : Request) :
  encode_frame request = Ok frame ->
  concat (map snd pieces) = frame ->
  Forall (fun piece => snd piece <> []) pieces ->
  reads (deliveries pieces) (init ev own) = read (Ok frame) (init ev own).
Proof.
  intros He Hc Hall.
  destruct (encode_frame_inv _ _ He) as (body & Hm & _).
  destruct (create_message_inv _ _ _ _ Hm) as (b0 & b1 & hb & cb & _ & -> & Hlen & Hhdr).
  change (init ev own) with (after ev own hb cb (req_type request) (req_encoding request) [])
    at 1.
  apply (reads_deliveries ev own b0 b1 hb cb _ _ Hlen Hhdr pieces [] Hc Hall).
  intros ->. discriminate Hc.
Qed.

Lemma blocked_reads_change_nothing_witness :
  reads (R := cpython)
    (deliveries [(2, firstn 1 status_frame); (0, firstn 40 (skipn 1 status_frame));
                 (3, skipn 41 status_frame)])
    (init EVENT_READ status_request)
  = read (R := cpython) (Ok status_frame) (init EVENT_READ status_request).
Proof.
  apply (blocked_reads_change_nothing (R := cpython) status_request status_frame
           [(2, firstn 1 status_frame); (0, firstn 40 (skipn 1 status_frame));
            (3, skipn 41 status_frame)] EVENT_READ status_request);
    [vm_compute; reflexivity|vm_compute; reflexivity|].
  repeat constructor; vm_compute; discriminate.
Defined.

(** *** Headers and payloads that are not as expected *)

Section HeaderFacts.
Context {R : Runtime}.

(** The loop over the required keys changes nothing. *)
Lemma check_headers_state (names : list str) (m : Message) :
  fst (check_headers names m) = m.
Proof.
  induction names as [|k names IH]; [reflexivity|].
  cbn [check_headers]. unfold bind, get, lift, raise.
  destruct (py_in k (jsonheader m)) as [[|]|e]; [exact IH|reflexivity|reflexivity].
Qed.

(** [process_jsonheader] once the header bytes are there and decode. *)
Lemma process_jsonheader_decoded (m : Message) (hdrlen : Z) (hdr : json) :
  _jsonheader_len m = Some hdrlen ->
  (hdrlen <= Z.of_nat (length (_recv_buffer m)))%Z ->
  _json_decode (slice_to (_recv_buffer m) hdrlen) (JStr (lit "utf-8")) = Ok hdr ->
  process_jsonheader m
  = check_headers required_headers
      (set_recv_buffer (slice_from (_recv_buffer m) hdrlen) (set_jsonheader hdr m)).
Proof.
  intros Hl Hb Hd. unfold process_jsonheader, bind, get, lift, update.
  rewrite Hl. destruct (Z.leb_spec hdrlen (Z.of_nat (length (_recv_buffer m)))); [|lia].
  now rewrite Hd.
Qed.

Lemma check_headers_listed (names : list str) (l : list json) (m : Message) :
  jsonheader m = JList l ->
  (forall k, In k names -> In (JStr k) l) ->
  check_headers names m = (m, Ok tt).
Proof.
  intros Hj. induction names as [|k names IH]; intros Hin; [reflexivity|].
  cbn [check_headers]. unfold bind, get, lift. rewrite Hj. cbn [py_in].
  assert (E : existsb (fun x => match x with JStr s => str_eqb s k | _ => false end) l
              = true).
  { apply existsb_exists. exists (JStr k). split; [apply Hin; now left|].
    apply str_eqb_refl. }
  rewrite E. apply IH. intros k' Hk'. apply Hin. now right.
Qed.
End HeaderFacts.

(** X17: a header rejected for a missing key is kept all the same: when
    [process_jsonheader] raises for a JSON object that lacks a required key,
    the object has been stored as the header and its bytes have left the
    receive buffer, so that the header step of every later read event is
    skipped and the header is not checked again. *)
Theorem rejected_header_is_kept {R : Runtime} (m : Message) (hdrlen : Z)
    (hm : list (str * json)) (key : str) :
  _jsonheader_len m = Some hdrlen ->
  (hdrlen <= Z.of_nat (length (_recv_buffer m)))%Z ->
  _json_decode (slice_to (_recv_buffer m) hdrlen) (JStr (lit "utf-8")) = Ok (JDict hm) ->
  In key required_headers -> dict_get hm key = None ->
  (exists e, snd (process_jsonheader m) = Raise e /\ exn_class_of e = ValueError)
  /\ jsonheader (fst (process_jsonheader m)) = JDict hm
  /\ _recv_buffer (fst (process_jsonheader m)) = slice_from (_recv_buffer m) hdrlen
  /\ jsonheader_step (fst (process_jsonheader m)) = (fst (process_jsonheader m), Ok tt).
Proof.
  intros Hl Hb Hd Hin Hk.
  rewrite (process_jsonheader_decoded m hdrlen (JDict hm) Hl Hb Hd).
  set (m' := set_recv_buffer _ _).
  destruct (check_headers_missing_dict required_headers m' hm key eq_refl Hin Hk)
    as (k & _ & _ & E).
  rewrite E. cbn [fst snd]. split; [eexists; split; reflexivity|].
  split; [reflexivity|]. split; [reflexivity|].
  unfold jsonheader_step, bind, get, ret. subst m'.
  cbn [_jsonheader_len jsonheader set_recv_buffer set_jsonheader]. now rewrite Hl.
Qed.

(** A header that lacks byteorder only, with the payload behind it. *)
Definition unordered_header : bytes :=
  ascii_bytes (lit "{'content-type': 'text/json', 'content-encoding': 'utf-8', 'content-length': 18}").

Definition unordered_header_map : list (str * json) :=
  [(lit "content-type", JStr (lit "text/json"));
   (lit "content-encoding", JStr (lit "utf-8"));
   (lit "content-length", JInt 18)].

Definition awaiting_unordered : Message :=
  set_recv_buffer (unordered_header ++ ascii_bytes pong)
    (set_jsonheader_len (Some (Z.of_nat (length unordered_header)))
       (init EVENT_READ status_request)).

Lemma rejected_header_is_kept_witness :
  (exists e, snd (process_jsonheader (R := cpython) awaiting_unordered) = Raise e
             /\ exn_class_of e = ValueError)
  /\ jsonheader (fst (process_jsonheader (R := cpython) awaiting_unordered))
     = JDict unordered_header_map
  /\ _recv_buffer (fst (process_jsonheader (R := cpython) awaiting_unordered))
     = slice_from (_recv_buffer awaiting_unordered) (Z.of_nat (length unordered_header))
  /\ jsonheader_step (R := cpython) (fst (process_jsonheader (R := cpython) awaiting_unordered))
     = (fst (process_jsonheader (R := cpython) awaiting_unordered), Ok tt).
Proof.
  apply (rejected_header_is_kept (R := cpython) awaiting_unordered
           (Z.of_nat (length unordered_header)) unordered_header_map (lit "byteorder"));
    [reflexivity|vm_compute; discriminate|vm_compute; reflexivity| |reflexivity].
  left. reflexivity.
Defined.

(** X18: header bytes that cannot be decoded (not UTF-8, or not JSON, as for
    a declared header length of zero) make [process_jsonheader] raise the
    decoder's exception and change nothing: no header is stored and the
    bytes stay in the receive buffer. *)
Theorem undecodable_header_is_not_consumed {R : Runtime} (m : Message) (hdrlen : Z)
    (e : exn) :
  _jsonheader_len m = Some hdrlen ->
  (hdrlen <= Z.of_nat (length (_recv_buffer m)))%Z ->
  _json_decode (slice_to (_recv_buffer m) hdrlen) (JStr (lit "utf-8")) = Raise e ->
  process_jsonheader m = (m, Raise e).
Proof.
  intros Hl Hb Hd. unfold process_jsonheader, bind, get, lift, update.
  rewrite Hl. destruct (Z.leb_spec hdrlen (Z.of_nat (length (_recv_buffer m)))); [|lia].
  now rewrite Hd.
Qed.

(** A frame that declares a header of no bytes. *)
Definition awaiting_empty_header : Message :=
  set_recv_buffer (ascii_bytes pong)
    (set_jsonheader_len (Some 0%Z) (init EVENT_READ status_request)).

Lemma undecodable_header_is_not_consumed_witness :
  process_jsonheader (R := cpython) awaiting_empty_header
  = (awaiting_empty_header, Raise (Exc JSONDecodeError (raw "Expecting value"))).
Proof.
  apply (undecodable_header_is_not_consumed (R := cpython) awaiting_empty_header 0%Z
           (Exc JSONDecodeError (raw "Expecting value")));
    [reflexivity|vm_compute; discriminate|reflexivity].
Defined.

(** X19: a payload of a text/json frame that cannot be decoded is lost:
    [process_response] raises the decoder's exception after it has taken the
    declared number of bytes out of the receive buffer; no response is
    stored, and the connection is neither closed nor unregistered. *)
Theorem undecodable_payload_is_dropped {R : Runtime} (m : Message)
    (hm : list (str * json)) (n : Z) (encoding : json) (e : exn) :
  jsonheader m = JDict hm ->
  dict_get hm (lit "content-length") = Some (JInt n) ->
  (0 <= n <= Z.of_nat (length (_recv_buffer m)))%Z ->
  dict_get hm (lit "content-type") = Some (JStr (lit "text/json")) ->
  dict_get hm (lit "content-encoding") = Some encoding ->
  _json_decode (firstn (Z.to_nat n) (_recv_buffer m)) encoding = Raise e ->
  process_response m
  = (set_recv_buffer (skipn (Z.to_nat n) (_recv_buffer m)) m, Raise e).
Proof.
  intros Hj Hcl Hn Hct Hce Hd. unfold process_response, bind, get, lift, update.
  rewrite Hj. cbn [py_getitem]. rewrite Hcl. cbn [int_ge].
  destruct (Z.leb_spec n (Z.of_nat (length (_recv_buffer m)))); [|lia].
  cbn [negb py_index]. rewrite Hct.
  change (eq_str (JStr (lit "text/json")) (lit "text/json")) with true. cbv iota.
  rewrite Hce.
  assert (St : slice_to (_recv_buffer m) n = firstn (Z.to_nat n) (_recv_buffer m)).
  { unfold slice_to. now destruct (Z.leb_spec 0 n); [|lia]. }
  assert (Sf : slice_from (_recv_buffer m) n = skipn (Z.to_nat n) (_recv_buffer m)).
  { unfold slice_from. now destruct (Z.leb_spec 0 n); [|lia]. }
  now rewrite St, Sf, Hd.
Qed.

(** A header that announces five bytes of JSON, and five bytes that are
    none. *)
Definition awaiting_json : Message :=
  set_recv_buffer (ascii_bytes (lit "hello"))
    (set_jsonheader
       (JDict [(lit "byteorder", JStr (lit "little"));
               (lit "content-type", JStr (lit "text/json"));
               (lit "content-encoding", JStr (lit "utf-8"));
               (lit "content-length", JInt 5)])
       (set_jsonheader_len (Some 99%Z) (init EVENT_READ status_request))).

Lemma undecodable_payload_is_dropped_witness :
  process_response (R := cpython) awaiting_json
  = (set_recv_buffer (skipn (Z.to_nat 5) (_recv_buffer awaiting_json)) awaiting_json,
     Raise (Exc JSONDecodeError (raw "Expecting value"))).
Proof.
  apply (undecodable_payload_is_dropped (R := cpython) awaiting_json
           [(lit "byteorder", JStr (lit "little"));
            (lit "content-type", JStr (lit "text/json"));
            (lit "content-encoding", JStr (lit "utf-8"));
            (lit "content-length", JInt 5)]
           5 (JStr (lit "utf-8")) (Exc JSONDecodeError (raw "Expecting value")));
    try reflexivity.
  vm_compute. split; discriminate.
Defined.

(** X20: the header check tests membership, not that the header is a
    mapping: a header that is a JSON array listing the four names passes
    [process_jsonheader], and the response step that follows raises
    TypeError when it subscripts the array. *)
Theorem listed_names_pass_the_header_check {R : Runtime} (m : Message) (hdrlen : Z)
    (l : list json) :
  _jsonheader_len m = Some hdrlen ->
  (hdrlen <= Z.of_nat (length (_recv_buffer m)))%Z ->
  _json_decode (slice_to (_recv_buffer m) hdrlen) (JStr (lit "utf-8")) = Ok (JList l) ->
  (forall k, In k required_headers -> In (JStr k) l) ->
  response m = CJson JNull ->
  snd (process_jsonheader m) = Ok tt
  /\ jsonheader (fst (process_jsonheader m)) = JList l
  /\ exists e, snd (response_step (fst (process_jsonheader m))) = Raise e
               /\ exn_class_of e = TypeError.
Proof.
  intros Hl Hb Hd Hin Hr.
  rewrite (process_jsonheader_decoded m hdrlen (JList l) Hl Hb Hd).
  rewrite (check_headers_listed required_headers l) by (reflexivity || assumption).
  cbn [fst snd]. split; [reflexivity|]. split; [reflexivity|].
  unfold response_step, process_response, bind, get, lift.
  cbn [Msg.jsonheader Msg.response set_recv_buffer set_jsonheader truthy].
  destruct l as [|x l]; [exfalso; apply (Hin (lit "byteorder")); now left|].
  cbn [negb].
  change (response (set_recv_buffer (slice_from (_recv_buffer m) hdrlen)
                      (set_jsonheader (JList (x :: l)) m))) with (response m).
  rewrite Hr. cbn [is_None]. eexists; split; reflexivity.
Qed.

Lemma listed_names_pass_the_header_check_witness :
  snd (process_jsonheader (R := cpython) awaiting_listing) = Ok tt
  /\ jsonheader (fst (process_jsonheader (R := cpython) awaiting_listing))
     = JList [JStr (lit "byteorder"); JStr (lit "content-length");
              JStr (lit "content-type"); JStr (lit "content-encoding")]
  /\ exists e, snd (response_step (R := cpython)
                      (fst (process_jsonheader (R := cpython) awaiting_listing))) = Raise e
               /\ exn_class_of e = TypeError.
Proof.
  apply (listed_names_pass_the_header_check (R := cpython) awaiting_listing
           (Z.of_nat (length listing_header))
           [JStr (lit "byteorder"); JStr (lit "content-length");
            JStr (lit "content-type"); JStr (lit "content-encoding")]);
    [reflexivity|vm_compute; discriminate|vm_compute; reflexivity| |reflexivity].
  intros k [<-|[<-|[<-|[<-|[]]]]];
    [left|right; left|right; right; left|right; right; right; left]; reflexivity.
Defined.

(** X21: a header that is a JSON object with the four required keys is
    accepted whatever values the keys hold and whatever other keys the
    object has: [process_jsonheader] stores it, takes its bytes out of the
    receive buffer and returns. *)
Theorem complete_header_is_accepted {R : Runtime} (m : Message) (hdrlen : Z)
    (hm : list (str * json)) :
  _jsonheader_len m = Some hdrlen ->
  (hdrlen <= Z.of_nat (length (_recv_buffer m)))%Z ->
  _json_decode (slice_to (_recv_buffer m) hdrlen) (JStr (lit "utf-8")) = Ok (JDict hm) ->
  (forall k, In k required_headers -> dict_get hm k <> None) ->
  process_jsonheader m
  = (set_recv_buffer (slice_from (_recv_buffer m) hdrlen) (set_jsonheader (JDict hm) m),
     Ok tt).
Proof.
  intros Hl Hb Hd Hin.
  rewrite (process_jsonheader_decoded m hdrlen (JDict hm) Hl Hb Hd).
  set (m' := set_recv_buffer _ _).
  assert (Hj : jsonheader m' = JDict hm) by reflexivity.
  clearbody m'. revert Hin. generalize required_headers as names.
  induction names as [|k names IH]; intros Hin; [reflexivity|].
  cbn [check_headers]. unfold bind, get, lift. rewrite Hj. cbn [py_in].
  destruct (dict_get hm k) eqn:Ek; [|exfalso; apply (Hin k); [now left|assumption]].
  apply IH. intros k' Hk'. apply Hin. now right.
Qed.

(** A header with a byte order that is none, a key the code does not know,
    and no payload. *)
Definition odd_header : bytes :=
  ascii_bytes (lit "{'byteorder': 7, 'content-type': 'text/json', 'content-encoding': 'utf-8', 'content-length': 0, 'x': null}").

Definition odd_header_map : list (str * json) :=
  [(lit "byteorder", JInt 7);
   (lit "content-type", JStr (lit "text/json"));
   (lit "content-encoding", JStr (lit "utf-8"));
   (lit "content-length", JInt 0);
   (lit "x", JNull)].

Definition awaiting_odd : Message :=
  set_recv_buffer odd_header
    (set_jsonheader_len (Some (Z.of_nat (length odd_header)))
       (init EVENT_READ status_request)).

Lemma complete_header_is_accepted_witness :
  process_jsonheader (R := cpython) awaiting_odd
  = (set_recv_buffer (slice_from (_recv_buffer awaiting_odd) (Z.of_nat (length odd_header)))
       (set_jsonheader (JDict odd_header_map) awaiting_odd),
     Ok tt).
Proof.
  apply (complete_header_is_accepted (R := cpython) awaiting_odd
           (Z.of_nat (length odd_header)) odd_header_map);
    [reflexivity|vm_compute; discriminate|vm_compute; reflexivity|].
  intros k [<-|[<-|[<-|[<-|[]]]]]; discriminate.
Defined.

(** *** The length prefix, and the end of a connection *)

(** X22: [process_protoheader] waits while fewer than two bytes are
    buffered, changing nothing; with two bytes or more it takes exactly the
    first two out of the buffer and records as header length their
    big-endian value, a number from 0 to 65535. *)
Theorem protoheader_bounds {R : Runtime} (m : Message) :
  (length (_recv_buffer m) < 2 -> process_protoheader m = (m, Ok tt))
  /\ (2 <= length (_recv_buffer m) ->
      exists b0 b1 n,
        _recv_buffer m = b0 :: b1 :: _recv_buffer (fst (process_protoheader m))
        /\ _jsonheader_len (fst (process_protoheader m)) = Some n
        /\ (n = Z.of_N (Byte.to_N b0) * 256 + Z.of_N (Byte.to_N b1))%Z
        /\ (0 <= n <= 65535)%Z
        /\ snd (process_protoheader m) = Ok tt).
Proof.
  unfold process_protoheader, bind, get, update, ret.
  destruct (_recv_buffer m) as [|b0 [|b1 rest]] eqn:E; cbn [length]; split;
    try reflexivity; try lia; intros _.
  exists b0, b1, (unpack_H b0 b1). cbn [fst snd].
  pose proof (Byte.to_N_bounded b0). pose proof (Byte.to_N_bounded b1).
  unfold unpack_H. repeat split; lia.
Qed.

(** X23: [close] on an open connection unregisters it, closes the socket
    and forgets it; after that every read event raises AttributeError
    without reading, and a second [close] raises AttributeError as well. *)
Theorem closed_connection_rejects_events {R : Runtime} (m : Message)
    (recv : result bytes) :
  sock m = true ->
  snd (close m) = Ok tt
  /\ sock_closed (fst (close m)) = true
  /\ sel_events (fst (close m)) = None
  /\ read recv (fst (close m))
     = (fst (close m),
        Raise (Exc AttributeError (raw "'NoneType' object has no attribute 'recv'")))
  /\ snd (close (fst (close m)))
     = Raise (Exc AttributeError (raw "'NoneType' object has no attribute 'close'")).
Proof.
  intros Hs. destruct m as [se sc ss sk rq rb sb qd jl jh rs].
  cbn [sock] in Hs. subst sk. repeat split.
Qed.

Lemma closed_connection_rejects_events_witness :
  snd (close (init EVENT_READ status_request)) = Ok tt
  /\ sock_closed (fst (close (init EVENT_READ status_request))) = true
  /\ sel_events (fst (close (init EVENT_READ status_request))) = None
  /\ read (R := cpython) (Ok (ascii_bytes pong)) (fst (close (init EVENT_READ status_request)))
     = (fst (close (init EVENT_READ status_request)),
        Raise (Exc AttributeError (raw "'NoneType' object has no attribute 'recv'")))
  /\ snd (close (fst (close (init EVENT_READ status_request))))
     = Raise (Exc AttributeError (raw "'NoneType' object has no attribute 'close'")).
Proof.
  apply (closed_connection_rejects_events (R := cpython) (init EVENT_READ status_request)
           (Ok (ascii_bytes pong))).
  reflexivity.
Defined.

(** *** A whole exchange *)

(** The events a selector reports for a connection, in order: the mask, and
    what [recv] and [send] do if the handler calls them at that event.  The
    first exception ends the run. *)
Fixpoint events {R : Runtime} (reported : list (Z * result bytes * result nat)) : M unit :=
  match reported with
  | [] => ret tt
  | (mask, recv, send) :: rest => process_events mask recv send ;; events rest
  end.

(** The sending side of a connection, which the reading methods neither
    look at nor change. *)
Definition with_sending (ss sb : bytes) (qd : bool) (m : Message) : Message :=
  set_request_queued qd (set_send_buffer sb (set_sock_sent ss m)).

Definition ignores_sending {A} (c : M A) : Prop :=
  forall ss sb qd m,
    c (with_sending ss sb qd m) = (with_sending ss sb qd (fst (c m)), snd (c m)).

Section Ignoring.
Context {R : Runtime}.

Lemma ignores_ret {A} (a : A) : ignores_sending (ret a).
Proof. intros ss sb qd m. reflexivity. Qed.

Lemma ignores_raise {A} (e : exn) : ignores_sending (@raise A e).
Proof. intros ss sb qd m. reflexivity. Qed.

Lemma ignores_lift {A} (r : result A) : ignores_sending (lift r).
Proof. intros ss sb qd m. reflexivity. Qed.

Lemma ignores_bind {A B} (c : M A) (k : A -> M B) :
  ignores_sending c -> (forall a, ignores_sending (k a)) -> ignores_sending (bind c k).
Proof.
  intros Hc Hk ss sb qd m. unfold bind. rewrite Hc.
  destruct (c m) as [m' [a|e]]; cbn [fst snd]; [apply Hk|reflexivity].
Qed.

Lemma ignores_get {A} (f : Message -> A) :
  (forall ss sb qd m, f (with_sending ss sb qd m) = f m) -> ignores_sending (get f).
Proof. intros H ss sb qd m. unfold get. now rewrite H. Qed.

Lemma ignores_update (g : Message -> Message) :
  (forall ss sb qd m, g (with_sending ss sb qd m) = with_sending ss sb qd (g m)) ->
  ignores_sending (update g).
Proof. intros H ss sb qd m. unfold update. now rewrite H. Qed.

Ltac ignoring :=
  repeat first
    [ assumption
    | apply ignores_ret
    | apply ignores_raise
    | apply ignores_lift
    | apply ignores_get; intros; reflexivity
    | apply ignores_update; intros; reflexivity
    | apply ignores_bind; [|intros ?]
    | match goal with
      | |- ignores_sending (match ?x with _ => _ end) => destruct x
      end ].

Lemma ignores_close : ignores_sending close.
Proof.
  intros ss sb qd m. destruct m as [se sc st sk rq rb sd q jl jh rs].
  destruct sk; reflexivity.
Qed.

Lemma ignores__read (recv : result bytes) : ignores_sending (_read recv).
Proof. unfold _read, error. ignoring. Qed.

Lemma ignores_process_protoheader : ignores_sending process_protoheader.
Proof. unfold process_protoheader. ignoring. Qed.

Lemma ignores_check_headers (names : list str) : ignores_sending (check_headers names).
Proof. induction names as [|k names IH]; cbn [check_headers]; ignoring. Qed.

Lemma ignores_process_jsonheader : ignores_sending process_jsonheader.
Proof.
  unfold process_jsonheader, error. pose proof (ignores_check_headers required_headers).
  ignoring.
Qed.

Lemma ignores_process_response : ignores_sending process_response.
Proof.
  unfold process_response, _process_response_json_content,
    _process_response_binary_content, error.
  pose proof ignores_close. ignoring.
Qed.

Lemma ignores_read (recv : result bytes) : ignores_sending (read recv).
Proof.
  unfold read, protoheader_step, jsonheader_step, response_step.
  pose proof (ignores__read recv). pose proof ignores_process_protoheader.
  pose proof ignores_process_jsonheader. pose proof ignores_process_response.
  ignoring.
Qed.

Lemma ignores_reads (recvs : list (result bytes)) : ignores_sending (reads recvs).
Proof.
  induction recvs as [|r recvs IH]; cbn [reads]; [apply ignores_ret|].
  apply ignores_bind; [apply ignores_read|intros _; exact IH].
Qed.
End Ignoring.

Section Exchange.
Context {R : Runtime}.

Lemma process_events_write (recv : result bytes) (send : result nat) (m : Message) :
  process_events EVENT_WRITE recv send m = write send m.
Proof. reflexivity. Qed.

Lemma process_events_read (recv : result bytes) (send : result nat) (m : Message) :
  process_events EVENT_READ recv send m = read recv m.
Proof.
  change (process_events EVENT_READ recv send m) with ((read recv ;; ret tt) m).
  apply bind_ret_tt.
Qed.

Lemma events_reads (chunks : list bytes) (send : result nat) (m : Message) :
  events (map (fun c => (EVENT_READ, Ok c, send)) chunks) m = reads (map Ok chunks) m.
Proof.
  revert m. induction chunks as [|c cs IH]; intros m; [reflexivity|].
  cbn [map events reads]. unfold bind. rewrite process_events_read.
  destruct (read (Ok c) m) as [m' [[]|e]]; [apply IH|reflexivity].
Qed.

(** A socket that takes the whole frame at the first write event. *)
Lemma write_all (request : Request) (frame : bytes) :
  encode_frame request = Ok frame ->
  write (Ok (length frame)) (init EVENT_WRITE request)
  = (with_sending frame [] true (init EVENT_READ request), Ok tt).
Proof.
  intros He. rewrite (first_write _ _ frame) by (reflexivity || exact He).
  destruct (encode_frame_inv _ _ He) as (body & Hm & _).
  destruct (create_message_inv _ _ _ _ Hm) as (b0 & b1 & hb & cb & _ & E & _).
  destruct frame as [|x f]; [discriminate E|]. clear E.
  unfold write, _write, _set_selector_events_mask, selector_modify, init, with_sending.
  run. cbn [app negb]. rewrite firstn_all, skipn_all. reflexivity.
Qed.

(** One read of a whole text/json frame whose payload is a mapping. *)
Lemma read_json_frame (ev : Z) (req : Request) (b0 b1 : byte) (hb cb : bytes)
    (ce : str) (d : list (str * json)) :
  unpack_H b0 b1 = Z.of_nat (length hb) ->
  _json_decode hb (JStr (lit "utf-8")) = Ok (header_of (lit "text/json") ce (length cb)) ->
  _json_decode cb (JStr ce) = Ok (JDict d) ->
  read (Ok (the_frame b0 b1 hb cb)) (init ev req)
  = ({| sel_events := None; sock_closed := true; sock_sent := []; sock := false;
        request := req; _recv_buffer := []; _send_buffer := [];
        _request_queued := false; _jsonheader_len := Some (Z.of_nat (length hb));
        jsonheader := header_of (lit "text/json") ce (length cb);
        response := CJson (JDict d) |}, Ok tt).
Proof.
  intros Hlen Hhdr Hd.
  change (init ev req) with (reading ev req None JNull []).
  rewrite read_reading by (unfold the_frame; discriminate).
  cbn [app]. unfold the_frame.
  rewrite (steps_proto ev req b0 b1 hb Hlen).
  rewrite (steps_header ev req hb cb (lit "text/json") ce Hhdr).
  unfold steps, protoheader_step, jsonheader_step, response_step, process_response,
    reading, header_of. run.
  cbv beta iota delta [truthy negb is_None].
  match goal with
  | |- context [py_getitem ?h (lit "content-length")] =>
      change (py_getitem h (lit "content-length")) with (@Ok json (JInt (Z.of_nat (length cb))))
  end.
  cbv iota beta. unfold int_ge, py_index.
  destruct (Z.leb_spec (Z.of_nat (length cb)) (Z.of_nat (length cb))); [|lia].
  cbv iota beta delta [negb].
  match goal with
  | |- context [py_getitem ?h (lit "content-type")] =>
      change (py_getitem h (lit "content-type")) with (@Ok json (JStr (lit "text/json")))
  end.
  cbv iota beta.
  change (eq_str (JStr (lit "text/json")) (lit "text/json")) with true. cbv iota.
  match goal with
  | |- context [py_getitem ?h (lit "content-encoding")] =>
      change (py_getitem h (lit "content-encoding")) with (@Ok json (JStr ce))
  end.
  cbv iota beta.
  rewrite slice_to_all, slice_from_all, Hd.
  unfold _process_response_json_content, close. run. reflexivity.
Qed.
End Exchange.

(** X24: a whole exchange.  On a fresh connection registered for writing,
    the write event at which the socket takes the whole frame of the
    request is followed by read events that deliver, in any non-empty
    pieces, a text/json frame whose payload is a mapping: the run raises
    nothing, the bytes handed to the socket are exactly the frame of the
    request, the mapping is stored as the response, both buffers are empty,
    and the connection is closed and unregistered. *)
Theorem request_response_cycle {R : Runtime} (request : Request) (frame : bytes)
    (d : list (str * json)) (encoding : str) (c : Codec) (reply : bytes)
    (chunks : list bytes) (recv : result bytes) (send : result nat) :
  encode_frame request = Ok frame ->
  plain (JDict d) = true -> lookup encoding = Some c -> lossless c ->
  encode_frame {| req_content := CJson (JDict d); req_type := lit "text/json";
                  req_encoding := encoding |} = Ok reply ->
  concat chunks = reply -> Forall (fun piece => piece <> []) chunks ->
  let outcome :=
    events ((EVENT_WRITE, recv, Ok (length frame))
              :: map (fun piece => (EVENT_READ, Ok piece, send)) chunks)
           (init EVENT_WRITE request) in
  snd outcome = Ok tt
  /\ sock_sent (fst outcome) = frame
  /\ _send_buffer (fst outcome) = []
  /\ response (fst outcome) = CJson (JDict d)
  /\ _recv_buffer (fst outcome) = []
  /\ sock_closed (fst outcome) = true
  /\ sel_events (fst outcome) = None.
Proof.
  intros He Hp Hl Hc Hr Hcat Hall outcome.
  destruct (encode_frame_inv _ _ Hr) as (body & Hm & Hb).
  cbn [req_type req_encoding req_content] in *.
  change (str_eqb (lit "text/json") (lit "text/json")) with true in Hb.
  destruct Hb as (b & -> & Hb).
  destruct (create_message_inv _ _ _ _ Hm) as (b0 & b1 & hb & cb & E & Hf & Hlen & Hhdr).
  injection E as <-.
  pose proof (json_decode_encode (JDict d) encoding c b Hp Hl Hc Hb) as Hd.
  change (b0 :: b1 :: hb ++ b) with (the_frame b0 b1 hb b) in Hf. rewrite Hf in Hcat.
  assert (E : outcome
              = (with_sending frame [] true
                   (fst (read (Ok (the_frame b0 b1 hb b)) (init EVENT_READ request))),
                 Ok tt)).
  { subst outcome. cbn [events]. unfold bind at 1.
    rewrite process_events_write, (write_all request frame He), events_reads.
    rewrite (ignores_reads (map Ok chunks) frame [] true (init EVENT_READ request)).
    rewrite (reads_chunks EVENT_READ request b0 b1 hb b (lit "text/json") encoding
               Hlen Hhdr chunks Hcat Hall).
    now rewrite (read_json_frame EVENT_READ request b0 b1 hb b encoding d Hlen Hhdr Hd). }
  rewrite E, (read_json_frame EVENT_READ request b0 b1 hb b encoding d Hlen Hhdr Hd).
  repeat split.
Qed.

(** The reply to the example request, and its frame. *)
Definition status_reply : list (str * json) := [(lit "result", JStr (lit "idle"))].

Definition status_reply_frame : bytes :=
  match encode_frame (R := cpython)
          {| req_content := CJson (JDict status_reply); req_type := lit "text/json";
             req_encoding := lit "utf-8" |} with
  | Ok frame => frame
  | Raise _ => []
  end.

(** The example request sent at one write event, and its reply read in two
    pieces. *)
Definition status_exchange : Message * result unit :=
  events (R := cpython)
    ((EVENT_WRITE, Raise would_block, Ok (length status_frame))
       :: map (fun piece => (EVENT_READ, Ok piece, Raise would_block))
            [firstn 7 status_reply_frame; skipn 7 status_reply_frame])
    (init EVENT_WRITE status_request).

Lemma request_response_cycle_witness :
  snd status_exchange = Ok tt
  /\ sock_sent (fst status_exchange) = status_frame
  /\ _send_buffer (fst status_exchange) = []
  /\ response (fst status_exchange) = CJson (JDict status_reply)
  /\ _recv_buffer (fst status_exchange) = []
  /\ sock_closed (fst status_exchange) = true
  /\ sel_events (fst status_exchange) = None.
Proof.
  unfold status_exchange.
  apply (request_response_cycle (R := cpython) status_request status_frame status_reply
           (lit "utf-8") utf8 status_reply_frame
           [firstn 7 status_reply_frame; skipn 7 status_reply_frame]
           (Raise would_block) (Raise would_block));
    [vm_compute; reflexivity|reflexivity|reflexivity|exact utf8_lossless
    |vm_compute; reflexivity|vm_compute; reflexivity|].
  repeat constructor; vm_compute; discriminate.
Defined.

(** X25: [_set_selector_events_mask] changes the registration exactly when
    the mode is r, w or rw and the connection still has its socket and is
    registered; the events are then read, write, or both, and nothing else
    of the connection changes.  In every other case it raises and changes
    nothing (ValueError for another mode). *)
Theorem events_mask_modes {R : Runtime} (mode : str) (m : Message) :
  let valid :=
    str_eqb mode (lit "r") || str_eqb mode (lit "w") || str_eqb mode (lit "rw") in
  let events_of :=
    if str_eqb mode (lit "r") then EVENT_READ
    else if str_eqb mode (lit "w") then EVENT_WRITE
    else Z.lor EVENT_READ EVENT_WRITE in
  (valid = false ->
   exists e, _set_selector_events_mask mode m = (m, Raise e)
             /\ exn_class_of e = ValueError)
  /\ (valid = true -> sock m = true -> sel_events m <> None ->
      _set_selector_events_mask mode m = (set_sel_events (Some events_of) m, Ok tt))
  /\ (sock m = false \/ sel_events m = None ->
      exists e, _set_selector_events_mask mode m = (m, Raise e)).
Proof.
  intros valid events_of. subst valid events_of.
  assert (V : forall ev : Z,
            (sock m = true -> sel_events m <> None ->
             selector_modify ev m = (set_sel_events (Some ev) m, Ok tt))
            /\ (sock m = false \/ sel_events m = None ->
                exists e, selector_modify ev m = (m, Raise e))).
  { intros ev. unfold selector_modify. split.
    - intros Hs Hr. rewrite Hs. cbn [negb].
      destruct (sel_events m); [reflexivity|contradiction].
    - intros [Hs|Hr]; [rewrite Hs; eexists; reflexivity|].
      destruct (sock m); cbn [negb]; [rewrite Hr|]; eexists; reflexivity. }
  unfold _set_selector_events_mask, bind, ret, raise.
  destruct (str_eqb mode (lit "r"));
    [|destruct (str_eqb mode (lit "w")); [|destruct (str_eqb mode (lit "rw"))]];
    cbn [orb].
  - split; [discriminate|]. split; [intros _; apply V|apply V].
  - split; [discriminate|]. split; [intros _; apply V|apply V].
  - split; [discriminate|]. split; [intros _; apply V|apply V].
  - split; [intros _; eexists; split; reflexivity|].
    split; [discriminate|intros _; eexists; reflexivity].
Qed.
